(** * Candlestick analyzer: scoring engine and history aggregator

    A shallow embedding of [src/analysis/scoring.py] and
    [src/analysis/patterns.py], with the fragments of the Python run time
    they rely on: exceptions, [int()], [round()], and IEEE 754 binary64
    arithmetic (through the executable specification [SpecFloat] of the
    Standard Library, so that every float operation below computes). *)

From Stdlib Require Import ZArith String Ascii Bool Lia SpecFloat DecimalString.
From stdpp Require Import gmap strings list sorting.

Local Open Scope Z_scope.

(** ** Exceptions

    Python functions that may raise return a [result]; [x ← c; k] is the
    sequencing of statements, an exception in [c] leaving the function. *)

Inductive exn : Set :=
  | TypeError
  | ValueError
  | OverflowError
  | ZeroDivisionError
  | IndexError.

Inductive result (A : Type) : Type :=
  | Ok (a : A)
  | Raise (e : exn).

Arguments Ok {A} a.
Arguments Raise {A} e.

#[global] Instance result_ret : MRet result := @Ok.
#[global] Instance result_bind : MBind result :=
  λ A B f m, match m with Ok a => f a | Raise e => Raise e end.

Definition raises {A} (r : result A) : Prop := ∃ e, r = Raise e.
Definition returns {A} (r : result A) : Prop := ∃ a, r = Ok a.

(** ** Binary64 floats *)

Module F64.

Definition prec : Z := 53.
Definition emax : Z := 1024.

Definition add : spec_float → spec_float → spec_float := SFadd prec emax.
Definition mul : spec_float → spec_float → spec_float := SFmul prec emax.
Definition div : spec_float → spec_float → spec_float := SFdiv prec emax.
Definition ltb : spec_float → spec_float → bool := SFltb.

Definition zero : spec_float := S754_zero false.

(** The float nearest to an integer (ties to even); an infinity when the
    integer is beyond the largest float. *)
Definition of_Z (z : Z) : spec_float := binary_normalize prec emax z 0 false.

Definition hundred : spec_float := Eval cbv in of_Z 100.

Definition is_finite (x : spec_float) : bool :=
  match x with
  | S754_zero _ | S754_finite _ _ _ => true
  | S754_infinity _ | S754_nan => false
  end.

Definition is_zero (x : spec_float) : bool :=
  match x with
  | S754_zero _ => true
  | _ => false
  end.

(** [n / d] rounded to the nearest integer, ties to even ([0 < d]). *)
Definition round_half_even (n d : Z) : Z :=
  let q := n / d in
  let r := n mod d in
  match 2 * r ?= d with
  | Lt => q
  | Gt => q + 1
  | Eq => if Z.even q then q else q + 1
  end.

(** [m * 2^e] rounded to the nearest integer, ties to even. *)
Definition nearest_int (m : positive) (e : Z) : Z :=
  match e with
  | Zneg k => round_half_even (Zpos m) (2 ^ Zpos k)
  | _ => Zpos m * 2 ^ e
  end.

(** [m * 2^e] truncated towards zero. *)
Definition trunc_int (m : positive) (e : Z) : Z :=
  match e with
  | Zneg k => Zpos m / 2 ^ Zpos k
  | _ => Zpos m * 2 ^ e
  end.

Definition with_sign (s : bool) (z : Z) : Z := if s then - z else z.

End F64.

Arguments F64.add : simpl never.
Arguments F64.mul : simpl never.
Arguments F64.div : simpl never.
Arguments F64.of_Z : simpl never.

(** ** Python values and builtins *)

Inductive pyobj : Type :=
  | PyNone
  | PyInt (z : Z)
  | PyFloat (x : spec_float)
  | PyStr (s : string).

Module Py.

(** [float(z)] as done implicitly by [int / float] and [int * float]:
    "OverflowError: int too large to convert to float". *)
Definition float_of_int (z : Z) : result spec_float :=
  match F64.of_Z z with
  | S754_infinity _ => Raise OverflowError
  | x => Ok x
  end.

(** [x / y] on floats. *)
Definition float_truediv (x y : spec_float) : result spec_float :=
  if F64.is_zero y then Raise ZeroDivisionError else Ok (F64.div x y).

(** [z / y], an int by a float. *)
Definition int_div_float (z : Z) (y : spec_float) : result spec_float :=
  x ← float_of_int z; float_truediv x y.

(** [z * y], an int by a float. *)
Definition int_mul_float (z : Z) (y : spec_float) : result spec_float :=
  x ← float_of_int z; Ok (F64.mul x y).

(** [a / b], an int by an int: the correctly rounded quotient,
    "OverflowError: integer division result too large for a float". *)
Definition int_truediv (a b : Z) : result spec_float :=
  match b, a with
  | Z0, _ => Raise ZeroDivisionError
  | _, Z0 => Ok (S754_zero (b <? 0))
  | _, _ =>
      match F64.div (S754_finite (a <? 0) (Z.to_pos (Z.abs a)) 0)
                    (S754_finite (b <? 0) (Z.to_pos (Z.abs b)) 0) with
      | S754_infinity _ => Raise OverflowError
      | x => Ok x
      end
  end.

(** [round(x)]: the nearest integer, ties to even. *)
Definition round (x : spec_float) : result Z :=
  match x with
  | S754_nan => Raise ValueError
  | S754_infinity _ => Raise OverflowError
  | S754_zero _ => Ok 0
  | S754_finite s m e => Ok (F64.with_sign s (F64.nearest_int m e))
  end.

(** [round(x, 2)]: the float nearest to the decimal with two digits after
    the point that is nearest to [x] (ties to even); infinities and NaN
    round to themselves, and the sign of a zero result is that of [x]. *)
Definition round2 (x : spec_float) : spec_float :=
  match x with
  | S754_finite s m e =>
      match F64.nearest_int (100 * m) e with
      | Zpos q => F64.div (S754_finite s q 0) F64.hundred
      | _ => S754_zero s
      end
  | _ => x
  end.

(** [int(x)] on a float: truncation. *)
Definition int_of_float (x : spec_float) : result Z :=
  match x with
  | S754_nan => Raise ValueError
  | S754_infinity _ => Raise OverflowError
  | S754_zero _ => Ok 0
  | S754_finite s m e => Ok (F64.with_sign s (F64.trunc_int m e))
  end.

(** The ASCII spelling of an integer: blanks, an optional sign, decimal
    digits with single underscores between them, blanks. *)
Definition is_space (c : ascii) : bool :=
  let n := nat_of_ascii c in
  ((9 <=? n)%nat && (n <=? 13)%nat) || (n =? 32)%nat.

Definition digit_of (c : ascii) : option Z :=
  let n := nat_of_ascii c in
  if ((48 <=? n)%nat && (n <=? 57)%nat) then Some (Z.of_nat n - 48) else None.

Fixpoint lstrip (s : string) : string :=
  match s with
  | String c s' => if is_space c then lstrip s' else s
  | EmptyString => s
  end.

Fixpoint all_space (s : string) : bool :=
  match s with
  | String c s' => is_space c && all_space s'
  | EmptyString => true
  end.

(** [digits acc after_digit s]: [after_digit] tells whether the previous
    character was a digit, which an underscore and the end require. *)
Fixpoint digits (acc : Z) (after_digit : bool) (s : string) : option Z :=
  match s with
  | EmptyString => if after_digit then Some acc else None
  | String c s' =>
      match digit_of c with
      | Some d => digits (10 * acc + d) true s'
      | None =>
          if after_digit then
            if Ascii.eqb c "_" then
              match s' with
              | String c' _ =>
                  match digit_of c' with
                  | Some _ => digits acc false s'
                  | None => None
                  end
              | EmptyString => None
              end
            else if all_space s then Some acc else None
          else None
      end
  end.

(** [int(s)] on a string. A string holds the UTF-8 encoding of the Python
    string. As CPython does, [int] first turns every character beyond
    ASCII into a blank, when it is a Unicode space, or into the ASCII
    digit of its value, when it is a Unicode decimal digit (those of the
    database 14.0 of CPython 3.11), and rejects the string for any other
    one. The ASCII spelling is then read: blanks, an optional sign,
    decimal digits with single underscores between them, blanks; a
    spelling of more than 4300 digits is rejected, which is the default
    limit of the interpreter. *)

(** The code points of a string, when it is well-formed UTF-8. *)
Definition continuation (c : ascii) : option N :=
  let n := N_of_ascii c in
  if ((128 <=? n) && (n <=? 191))%N then Some (n - 128)%N else None.

Fixpoint utf8_decode (s : string) : option (list N) :=
  match s with
  | EmptyString => Some []
  | String c0 s1 =>
      let b0 := N_of_ascii c0 in
      if (b0 <? 128)%N then cons b0 <$> utf8_decode s1
      else if ((194 <=? b0) && (b0 <=? 223))%N then
        match s1 with
        | String c1 s2 =>
            b1 ← continuation c1;
            cons ((b0 - 192) * 64 + b1)%N <$> utf8_decode s2
        | _ => None
        end
      else if ((224 <=? b0) && (b0 <=? 239))%N then
        match s1 with
        | String c1 (String c2 s3) =>
            b1 ← continuation c1;
            b2 ← continuation c2;
            let cp := ((b0 - 224) * 4096 + b1 * 64 + b2)%N in
            if ((2048 <=? cp) && negb ((55296 <=? cp) && (cp <=? 57343)))%N
            then cons cp <$> utf8_decode s3
            else None
        | _ => None
        end
      else if ((240 <=? b0) && (b0 <=? 244))%N then
        match s1 with
        | String c1 (String c2 (String c3 s4)) =>
            b1 ← continuation c1;
            b2 ← continuation c2;
            b3 ← continuation c3;
            let cp := ((b0 - 240) * 262144 + b1 * 4096 + b2 * 64 + b3)%N in
            if ((65536 <=? cp) && (cp <=? 1114111))%N
            then cons cp <$> utf8_decode s4
            else None
        | _ => None
        end
      else None
  end.

(** The Unicode spaces beyond ASCII. *)
Definition unicode_spaces : list N :=
  [133; 160; 5760; 8192; 8193; 8194; 8195; 8196; 8197; 8198; 8199; 8200;
   8201; 8202; 8232; 8233; 8239; 8287; 12288]%N.

(** The zeros of the sets of decimal digits beyond ASCII: the digits of a
    set are the ten code points from its zero on. *)
Definition decimal_zeros : list N :=
  [1632; 1776; 1984; 2406; 2534; 2662; 2790; 2918; 3046; 3174; 3302; 3430;
   3558; 3664; 3792; 3872; 4160; 4240; 6112; 6160; 6470; 6608; 6784; 6800;
   6992; 7088; 7232; 7248; 42528; 43216; 43264; 43472; 43504; 43600; 44016;
   65296; 66720; 68912; 69734; 69872; 69942; 70096; 70384; 70736; 70864;
   71248; 71360; 71472; 71904; 72016; 72784; 73040; 73120; 92768; 92864;
   93008; 120782; 120792; 120802; 120812; 120822; 123200; 123632; 125264;
   130032]%N.

Definition decimal_value (cp : N) : option N :=
  (λ zero, (cp - zero)%N)
    <$> List.find (λ zero, ((zero <=? cp) && (cp <? zero + 10))%N) decimal_zeros.

(** The ASCII character that stands for a code point. *)
Definition to_ascii (cp : N) : option ascii :=
  if (cp <? 127)%N then Some (ascii_of_N cp)
  else if existsb (N.eqb cp) unicode_spaces then Some " "%char
  else (λ d, ascii_of_N (48 + d)) <$> decimal_value cp.

Fixpoint transform (cps : list N) : option string :=
  match cps with
  | [] => Some EmptyString
  | cp :: cps' =>
      c ← to_ascii cp;
      String c <$> transform cps'
  end.

Fixpoint count_digits (s : string) : Z :=
  match s with
  | EmptyString => 0
  | String c s' =>
      (match digit_of c with Some _ => 1 | None => 0 end) + count_digits s'
  end.

Definition max_str_digits : Z := 4300.

Definition int_of_str (s : string) : result Z :=
  match utf8_decode s ≫= transform with
  | None => Raise ValueError
  | Some spelling =>
      if max_str_digits <? count_digits spelling then Raise ValueError
      else
        let parsed :=
          match lstrip spelling with
          | String "+" s' => digits 0 false s'
          | String "-" s' => Z.opp <$> digits 0 false s'
          | s' => digits 0 false s'
          end in
        match parsed with
        | Some z => Ok z
        | None => Raise ValueError
        end
  end.

(** [int(o)]. *)
Definition int (o : pyobj) : result Z :=
  match o with
  | PyNone => Raise TypeError
  | PyInt z => Ok z
  | PyFloat x => int_of_float x
  | PyStr s => int_of_str s
  end.

(** [format(z, "+d")]. *)
Definition format_plus_d (z : Z) : string :=
  append (if z <? 0 then "-" else "+")
         (NilZero.string_of_uint (N.to_uint (Z.abs_N z))).

(** [s.lower()] and [s.upper()], on the ASCII letters. *)
Definition lower_ascii (c : ascii) : ascii :=
  let n := nat_of_ascii c in
  if ((65 <=? n)%nat && (n <=? 90)%nat) then ascii_of_nat (n + 32) else c.

Definition upper_ascii (c : ascii) : ascii :=
  let n := nat_of_ascii c in
  if ((97 <=? n)%nat && (n <=? 122)%nat) then ascii_of_nat (n - 32) else c.

Fixpoint lower (s : string) : string :=
  match s with
  | String c s' => String (lower_ascii c) (lower s')
  | EmptyString => EmptyString
  end.

Fixpoint upper (s : string) : string :=
  match s with
  | String c s' => String (upper_ascii c) (upper s')
  | EmptyString => EmptyString
  end.

End Py.

Arguments Py.float_of_int : simpl never.
Arguments Py.int_div_float : simpl never.
Arguments Py.int_mul_float : simpl never.
Arguments Py.int_truediv : simpl never.

(** ** Domain model ([src/domain/models.py]) *)

(** A calendar date, as its proleptic ordinal. *)
Definition pydate : Type := Z.

Module PatternHit.
Record t : Type := mk {
  fn : string;
  value : Z;
  strength : option spec_float;
  base_score : option Z;
  weighted_score : option spec_float;
  variant : pyobj;
  english : pyobj;
  japanese : pyobj;
  typical_setup : pyobj;
  next_move : pyobj;
  description : pyobj;
  date : option pydate
}.
End PatternHit.

(** A raw hit, [{"fn": ..., "value": ...}]: a mapping in which either key
    may be absent; the fn entry is a string, the value entry any object. *)
Record RawHit : Type := mkRaw {
  raw_fn : option string;
  raw_value : option pyobj
}.

Inductive hit : Type :=
  | HitObj (h : PatternHit.t)
  | HitMap (m : RawHit).

(** ** The scoring engine ([src/analysis/scoring.py]) *)

Module BiasEntry.
(** One value of [_bias_map()[fn]]: the score is an int by construction
    there, the other cells are whatever the reference table holds. *)
Record t : Type := mk {
  score : Z;
  variant : pyobj;
  english : pyobj;
  japanese : pyobj;
  typical : pyobj;
  next_move : pyobj;
  description : pyobj
}.

(** The literal returned for a detector without entries. *)
Definition empty : t := mk 0 PyNone PyNone PyNone PyNone PyNone PyNone.
End BiasEntry.

(** [d.get(k)] on a dictionary kept as its items in insertion order. *)
Fixpoint dict_get {V} (d : list (string * V)) (k : string) : option V :=
  match d with
  | [] => None
  | (k', v) :: d' => if String.eqb k' k then Some v else dict_get d' k
  end.

(** The module globals that are read from files when the module is loaded:
    the clip range of [config.yaml] and the table [_bias_map()] builds from
    the reference dataset, detector to variant to entry, the entries of a
    detector in insertion order. *)
Record Globals : Type := mkGlobals {
  CLIP_MIN : Z;
  CLIP_MAX : Z;
  _bias_map : gmap string (list (string * BiasEntry.t))
}.

Section Scoring.

Context (g : Globals).

Definition _normalize_variant (value : Z) : string :=
  if 0 <? value then "bullish"
  else if value <? 0 then "bearish"
  else "neutral".

Definition _lookup_bias (fn : string) (value : Z) : BiasEntry.t :=
  let bias_for_fn := default [] (_bias_map g !! fn) in
  match bias_for_fn with
  | [] => BiasEntry.empty
  | first :: _ =>
      let variant_key := _normalize_variant value in
      let entry :=
        match dict_get bias_for_fn variant_key with
        | Some e => Some e
        | None => dict_get bias_for_fn "neutral"
        end in
      let entry :=
        match entry with
        | None => Some (snd first)
        | Some e => Some e
        end in
      default BiasEntry.empty entry
  end.

Definition _base_score (fn : string) (value : Z) : Z :=
  BiasEntry.score (_lookup_bias fn value).

Definition _extract (h : hit) : result (string * Z) :=
  match h with
  | HitObj p => Ok (PatternHit.fn p, PatternHit.value p)
  | HitMap m =>
      let fn := default "None"%string (raw_fn m) in
      value ← Py.int (default (PyInt 0) (raw_value m));
      Ok (fn, value)
  end.

(** The body of the loop of [total_score_from_hits]. *)
Definition score_step (score : spec_float) (raw : hit) : result spec_float :=
  '(fn, value) ← _extract raw;
  let base := Z.abs (_base_score fn value) * (if 0 <? value then 1 else -1) in
  strength ← Py.int_div_float (Z.abs value) F64.hundred;
  term ← Py.int_mul_float base strength;
  Ok (F64.add score term).

Fixpoint score_loop (score : spec_float) (hits : list hit) : result spec_float :=
  match hits with
  | [] => Ok score
  | raw :: hits' => score' ← score_step score raw; score_loop score' hits'
  end.

Definition total_score_from_hits (hits : list hit) : result Z :=
  score ← score_loop F64.zero hits;
  rounded ← Py.round score;
  Ok (Z.max (CLIP_MIN g) (Z.min (CLIP_MAX g) rounded)).

(** The body of the loop of [enrich_hits]. *)
Definition enrich_hit (at_ : option pydate) (raw : RawHit) : result PatternHit.t :=
  '(fn, value) ← _extract (HitMap raw);
  let info := _lookup_bias fn value in
  strength ←
    (if value =? 0 then Ok None
     else x ← Py.int_truediv (Z.abs value) 100; Ok (Some x));
  let base_score := Some (BiasEntry.score info) in
  weighted ←
    match strength, base_score with
    | Some s, Some b => x ← Py.int_mul_float b s; Ok (Some (Py.round2 x))
    | _, _ => Ok None
    end;
  Ok (PatternHit.mk fn value strength base_score weighted
        (BiasEntry.variant info) (BiasEntry.english info)
        (BiasEntry.japanese info) (BiasEntry.typical info)
        (BiasEntry.next_move info) (BiasEntry.description info) at_).

Fixpoint enrich_hits (hits : list RawHit) (at_ : option pydate)
  : result (list PatternHit.t) :=
  match hits with
  | [] => Ok []
  | raw :: hits' =>
      p ← enrich_hit at_ raw;
      enriched ← enrich_hits hits' at_;
      Ok (p :: enriched)
  end.

End Scoring.

Definition categorize_score (score : option Z) : option string * string :=
  match score with
  | None => (None, "—"%string)
  | Some score =>
      if 3 <=? score then
        (Some "Strong＋", "↑↑ Strong＋ (" +:+ Py.format_plus_d score +:+ ")")%string
      else if 1 <=? score then
        (Some "Mild＋", "↑ Mild＋ (" +:+ Py.format_plus_d score +:+ ")")%string
      else if score <=? -3 then
        (Some "Strong−", "↓↓ Strong− (" +:+ Py.format_plus_d score +:+ ")")%string
      else if score <=? -1 then
        (Some "Mild−", "↓ Mild− (" +:+ Py.format_plus_d score +:+ ")")%string
      else (Some "Neutral", "Neutral (0)")%string
  end.

(** ** The history aggregator ([src/analysis/patterns.py]) *)

(** A [pd.Timestamp], as its count of nanoseconds. *)
Definition Timestamp : Type := Z.

(** [l[i]] on a list and [s.iloc[i]] on a series: a negative index counts
    from the end, an index out of range raises. *)
Definition py_getitem {A} (l : list A) (i : Z) : result A :=
  let n := Z.of_nat (length l) in
  let j := if i <? 0 then n + i else i in
  if (0 <=? j) && (j <? n) then
    match l !! Z.to_nat j with
    | Some x => Ok x
    | None => Raise IndexError
    end
  else Raise IndexError.

(** [d[k] = v] on a dictionary kept in insertion order. *)
Fixpoint dict_set {V} (d : list (string * V)) (k : string) (v : V)
  : list (string * V) :=
  match d with
  | [] => [(k, v)]
  | (k', v') :: d' =>
      if String.eqb k' k then (k', v) :: d' else (k', v') :: dict_set d' k v
  end.

Record HistoryEntry : Type := mkEntry {
  entry_date : Timestamp;
  entry_hits : list RawHit
}.

(** [to_pydatetime]: a [datetime] holds microseconds, the nanoseconds
    below them are dropped. *)
Definition to_pydatetime (t : Timestamp) : Timestamp := t / 1000 * 1000.

Section Patterns.

(** The cells and the index labels of a price frame are those of
    pandas. *)
Context {cell index : Type}.

(** The part of the module [pandas] that the aggregator calls.
    [pd.to_datetime] on a column, or on an index, raises or converts
    every element; how an element is converted may depend on the whole
    column (the format of the dates is inferred from it), so that a call
    gives the conversion of the elements. On a [DatetimeIndex] the
    conversion of the index changes nothing and raises nothing: the two
    branches of the code on the index are this one call. *)
Record pandas : Type := mkPandas {
  to_datetime : list cell → result (cell → Timestamp);
  index_to_datetime : list index → result (index → Timestamp)
}.

Context (pd : pandas).

(** A frame is its column labels (strings, distinct) and its rows, so
    that every column has as many cells as the frame has days. *)
Record Row : Type := mkRow {
  row_index : index;
  row_cell : string → cell
}.

Record DataFrame : Type := mkFrame {
  df_columns : list string;
  df_rows : list Row
}.

Definition df_empty (df : DataFrame) : bool :=
  match df_columns df, df_rows df with
  | [], _ | _, [] => true
  | _, _ => false
  end.

Definition df_getitem (df : DataFrame) (col : string) : list cell :=
  (λ r, row_cell r col) <$> df_rows df.

(** What a call [getattr(ta, fn)(o, h, l, c)] does. *)
Inductive ta_output : Type :=
  | TaRaises
  | TaOther
  | TaSeries (out : list pyobj).

(** The module [talib] when its import succeeded: the names [dir(ta)]
    lists and the function behind each. *)
Record talib : Type := mkTalib {
  ta_dir : list string;
  ta_getattr : string → list cell → list cell → list cell → list cell → ta_output
}.

(** The global [ta]: [None] when [import talib] failed. *)
Context (ta : option talib).

Definition available_pattern_functions : list string :=
  match ta with
  | None => []
  | Some m => filter (λ name, String.prefix "CDL" name = true) (ta_dir m)
  end.

Definition ta_call (fn : string) (o h l c : list cell) : ta_output :=
  match ta with
  | None => TaRaises
  | Some m => ta_getattr m fn o h l c
  end.

Definition _compute_pattern_series (df : DataFrame) (patterns : option (list string))
  : result (list (string * list pyobj) * list Timestamp) :=
  let cols :=
    foldl (λ d c, dict_set d (Py.lower c) c) [] (df_columns df) in
  match dict_get cols "open", dict_get cols "high",
        dict_get cols "low", dict_get cols "close" with
  | Some open_col, Some high_col, Some low_col, Some close_col =>
      let o := df_getitem df open_col in
      let h := df_getitem df high_col in
      let l := df_getitem df low_col in
      let c := df_getitem df close_col in
      let all_functions := available_pattern_functions in
      let functions :=
        match patterns with
        | Some ps =>
            let enabled := Py.upper <$> ps in
            filter (λ fn, Py.upper fn ∈ enabled) all_functions
        | None => all_functions
        end in
      let series_map :=
        foldl (λ m fn,
                 match ta_call fn o h l c with
                 | TaSeries out => dict_set m fn out
                 | TaRaises | TaOther => m
                 end) [] functions in
      let date_col :=
        match dict_get cols "date" with
        | Some col => Some col
        | None => dict_get cols "datetime"
        end in
      dates ←
        match date_col with
        | Some (String a col) =>
            let column := df_getitem df (String a col) in
            convert ← to_datetime pd column;
            Ok (convert <$> column)
        | _ =>
            let index := row_index <$> df_rows df in
            convert ← index_to_datetime pd index;
            Ok ((λ i, to_pydatetime (convert i)) <$> index)
        end;
      Ok (series_map, dates)
  | _, _, _, _ => Ok ([], [])
  end.

(** The series and the dates that [_compute_pattern_series] returns,
    none when it raises. *)
Definition series_of (df : DataFrame) (patterns : option (list string))
  : list (string * list pyobj) :=
  match _compute_pattern_series df patterns with
  | Ok (series_map, _) => series_map
  | Raise _ => []
  end.

Definition dates_of (df : DataFrame) (patterns : option (list string))
  : list Timestamp :=
  match _compute_pattern_series df patterns with
  | Ok (_, dates) => dates
  | Raise _ => []
  end.

(** The dates of the frame convert: [pd.to_datetime] returns on every
    column named date or datetime, in any case, and on the index. *)
Definition dates_convert (df : DataFrame) : Prop :=
  (∀ c, c ∈ df_columns df →
        Py.lower c = "date"%string ∨ Py.lower c = "datetime"%string →
        returns (to_datetime pd (df_getitem df c)))
  ∧ returns (index_to_datetime pd (row_index <$> df_rows df)).

(** The inner loop over [series_map.items()], for the day at [idx]. *)
Fixpoint hits_at (series_map : list (string * list pyobj)) (idx : Z)
  : list RawHit :=
  match series_map with
  | [] => []
  | (fn, series) :: rest =>
      match x ← py_getitem series idx; Py.int x with
      | Raise _ => hits_at rest idx
      | Ok value =>
          if value =? 0 then hits_at rest idx
          else mkRaw (Some fn) (Some (PyInt value)) :: hits_at rest idx
      end
  end.

(** The loop [for idx in range(start, last_index + 1)]. *)
Fixpoint history_loop (series_map : list (string * list pyobj))
    (dates : list Timestamp) (idxs : list Z) : result (list HistoryEntry) :=
  match idxs with
  | [] => Ok []
  | idx :: idxs' =>
      match hits_at series_map idx with
      | [] => history_loop series_map dates idxs'
      | day_hits =>
          d ← py_getitem dates idx;
          history ← history_loop series_map dates idxs';
          Ok (mkEntry d day_hits :: history)
      end
  end.

Definition detect_with_history (df : DataFrame) (lookback : Z)
    (patterns : option (list string))
  : result (list RawHit * list HistoryEntry) :=
  match ta with
  | None => Ok ([], [])
  | Some _ =>
      if df_empty df then Ok ([], [])
      else
        '(series_map, dates) ← _compute_pattern_series df patterns;
        match series_map with
        | [] => Ok ([], [])
        | _ =>
            let last_index := Z.of_nat (length dates) - 1 in
            let hits_today := hits_at series_map last_index in
            let start := Z.max 0 (last_index - lookback + 1) in
            history ←
              history_loop series_map dates
                (seqZ start (last_index + 1 - start));
            Ok (hits_today, history)
        end
  end.

Definition detect_all (df : DataFrame) (patterns : option (list string))
  : result (list RawHit) :=
  '(hits, _) ← detect_with_history df 1 patterns; Ok hits.

End Patterns.

(** ** Predicates on floats *)

(** The sign bit of [x] is [s], unless [x] is a NaN. *)
Definition sign_or_nan (s : bool) (x : spec_float) : Prop :=
  match x with
  | S754_nan => True
  | S754_zero s' | S754_infinity s' | S754_finite s' _ _ => s' = s
  end.

Definition zero_or_nan (x : spec_float) : Prop :=
  match x with
  | S754_nan | S754_zero _ => True
  | S754_infinity _ | S754_finite _ _ _ => False
  end.

(** The exponent of a finite [x] is at least the least exponent of the
    format. *)
Definition canonical_exp (x : spec_float) : Prop :=
  match x with
  | S754_finite _ _ e => SpecFloat.emin F64.prec F64.emax ≤ e
  | _ => True
  end.

Definition not_neg_zero (x : spec_float) : Prop := x ≠ S754_zero true.

(** [x] is finite and not a zero, or an infinity. *)
Definition nonzero_number (x : spec_float) : Prop :=
  match x with
  | S754_finite _ _ _ | S754_infinity _ => True
  | S754_zero _ | S754_nan => False
  end.

(** [x] is a zero or a finite float of magnitude at most [2^K]. *)
Definition le_pow2 (K : Z) (x : spec_float) : Prop :=
  match x with
  | S754_zero _ => True
  | S754_finite _ m e => e ≤ K ∧ Z.pos m ≤ 2 ^ (K - e)
  | S754_infinity _ | S754_nan => False
  end.

(** ** Predicates on histories *)

(** [h] is the hit of a detector of [series_map] whose output on the day
    [idx] is an integer other than 0. *)
Definition nonzero_output (series_map : list (string * list pyobj)) (idx : Z)
    (h : RawHit) : Prop :=
  ∃ fn series value,
    (fn, series) ∈ series_map
    ∧ (x ← py_getitem series idx; Py.int x) = Ok value
    ∧ value ≠ 0
    ∧ h = mkRaw (Some fn) (Some (PyInt value)).


(** ** The total score in the words of the specification

    The definitions [reference_*] follow section 4.2 of the specification,
    not the code: the base is the magnitude of the bias score times the
    sign of the value, the strength is the magnitude of the value over
    100, the terms are summed in a running float total, which is rounded
    to the nearest integer (ties to even) and clamped. The formulas are
    evaluated in binary64, an integer converted before it meets a float. *)

Section Reference.

Context (g : Globals).

Definition sign (value : Z) : Z := Z.sgn value.

Definition clamp (lo hi x : Z) : Z :=
  if x <? lo then lo else if hi <? x then hi else x.

Definition reference_term (detector_id : string) (value : Z) : result spec_float :=
  let bias_score := BiasEntry.score (_lookup_bias g detector_id value) in
  let base := Z.abs bias_score * sign value in
  strength ← Py.int_div_float (Z.abs value) F64.hundred;
  Py.int_mul_float base strength.

Fixpoint reference_sum (total : spec_float) (hits : list (string * Z))
  : result spec_float :=
  match hits with
  | [] => Ok total
  | (detector_id, value) :: hits' =>
      term ← reference_term detector_id value;
      reference_sum (F64.add total term) hits'
  end.

Definition reference_total_score (hits : list (string * Z)) : result Z :=
  total ← reference_sum F64.zero hits;
  rounded ← Py.round total;
  Ok (clamp (CLIP_MIN g) (CLIP_MAX g) rounded).

End Reference.

(** ** Tables and hits *)

(** The term the loop of [total_score_from_hits] adds for a hit of
    detector [fn] and value [value]. *)
Definition code_term (g : Globals) (fn : string) (value : Z) : result spec_float :=
  let base := Z.abs (_base_score g fn value) * (if 0 <? value then 1 else -1) in
  strength ← Py.int_div_float (Z.abs value) F64.hundred;
  Py.int_mul_float base strength.

(** Every score of the table converts to a float (is below [2^1024] in
    magnitude, as the scores from -5 to 5 of the reference dataset are). *)
Definition scores_convertible (g : Globals) : Prop :=
  map_Forall
    (λ _ d, Forall (λ ke : string * BiasEntry.t,
                      F64.is_finite (F64.of_Z (BiasEntry.score ke.2)) = true) d)
    (_bias_map g).

(** The inputs the detectors produce: values that fit 32 bits, as the
    integer arrays of the backend do, with scores that do so too. *)
Definition small (z : Z) : Prop := Z.abs z < 2 ^ 31.

Definition small_hit (h : hit) : Prop :=
  ∃ fn value, _extract h = Ok (fn, value) ∧ small value.

Definition scores_small (g : Globals) : Prop :=
  map_Forall
    (λ _ d, Forall (λ ke : string * BiasEntry.t, small (BiasEntry.score ke.2)) d)
    (_bias_map g).

(** ** The properties of the specification that the code does not have,
    as predicates *)


(** Sign correction of the enriched hits: no positive weighted score for a
    negative value, no negative one for a positive value. *)
Definition weighted_positive (p : PatternHit.t) : bool :=
  match PatternHit.weighted_score p with
  | Some w => F64.ltb F64.zero w
  | None => false
  end.

Definition weighted_negative (p : PatternHit.t) : bool :=
  match PatternHit.weighted_score p with
  | Some w => F64.ltb w F64.zero
  | None => false
  end.

Definition sign_corrected (g : Globals) (hits : list RawHit) : Prop :=
  ∀ enriched p,
    enrich_hits g hits None = Ok enriched → p ∈ enriched →
    (PatternHit.value p < 0 → weighted_positive p = false)
    ∧ (0 < PatternHit.value p → weighted_negative p = false).

(** Literal scenario B, with the names and labels of the specification. *)
Definition scenario_b_as_specified : Prop :=
  (categorize_score (Some 4) = (Some "Strong-positive", "↑↑ Strong+ (+4)")%string
   ∨ categorize_score (Some 4) = (Some "Strong＋", "↑↑ Strong+ (+4)")%string)
  ∧ categorize_score (Some 2) = (Some "Mild-positive", "↑ Mild+ (+2)")%string
  ∧ categorize_score (Some 0) = (Some "Neutral", "Neutral (0)")%string
  ∧ categorize_score (Some (-1)) = (Some "Mild-negative", "↓ Mild- (-1)")%string
  ∧ categorize_score (Some (-5)) = (Some "Strong-negative", "↓↓ Strong- (-5)")%string.



(** ** Sample data

    A table with the shape of the reference dataset, the defaults of the
    clip range, and the hits of the scoring test. *)

Module Sample.

Definition entry (score : Z) (variant english : string) : BiasEntry.t :=
  BiasEntry.mk score (PyStr variant) (PyStr english)
    PyNone PyNone PyNone PyNone.

Definition table : gmap string (list (string * BiasEntry.t)) :=
  <["CDLENGULFING"%string :=
      [("bullish"%string, entry 3 "Bullish" "Engulfing Pattern");
       ("bearish"%string, entry (-3) "Bearish" "Engulfing Pattern")]]>
  (<["CDLKICKINGBYLENGTH"%string :=
      [("bullish"%string, entry 4 "Bullish" "Kicking by length");
       ("bearish"%string, entry (-4) "Bearish" "Kicking by length")]]>
  (<["CDLDOJI"%string := [("neutral"%string, entry 0 "Neutral" "Doji")]]>
  (<["CDLHAMMER"%string := [("bullish"%string, entry 2 "Bullish" "Hammer")]]>
   ∅))).

Definition globals : Globals := mkGlobals (-5) 5 table.

Definition raw (fn : string) (value : pyobj) : RawHit :=
  mkRaw (Some fn) (Some value).

(** The hits of [test_total_score_from_hits_basic]. *)
Definition scenario_a : list hit :=
  [HitMap (raw "CDLENGULFING" (PyInt 100));
   HitMap (raw "CDLENGULFING" (PyInt (-100)));
   HitMap (raw "CDLKICKINGBYLENGTH" (PyInt 200))].

Definition scenario_a_pairs : list (string * Z) :=
  [("CDLENGULFING"%string, 100); ("CDLENGULFING"%string, -100);
   ("CDLKICKINGBYLENGTH"%string, 200)].

(** A bearish hit of the hammer, which the table knows as bullish only,
    and its enrichment. *)
Definition hammer_down : RawHit := raw "CDLHAMMER" (PyInt (-100)).

Definition hammer_down_enriched : PatternHit.t :=
  PatternHit.mk "CDLHAMMER" (-100)
    (Some (S754_finite false 4503599627370496 (-52))) (Some 2)
    (Some (S754_finite false 4503599627370496 (-51)))
    (PyStr "Bullish") (PyStr "Hammer") PyNone PyNone PyNone PyNone None.

(** A frame of three days without a close column, and a backend with one
    pattern function. The cells and the index labels of the sample
    frames are integers, which pandas reads as counts of nanoseconds. *)
Definition frame_without_close : DataFrame (cell:=Z) (index:=Z) :=
  mkFrame ["Date"; "Open"; "High"; "Low"; "Volume"]%string
    ((λ t, mkRow t (λ _, t)) <$> [1; 2; 3]).

Definition pd : pandas (cell:=Z) (index:=Z) :=
  mkPandas (λ _, Ok (λ c, c)) (λ _, Ok (λ i, i)).

Definition backend : talib (cell:=Z) :=
  mkTalib ["CDLDOJI"; "SMA"]%string
    (λ fn o h l c, TaSeries ((λ _, PyInt 100) <$> o)).

End Sample.

(** ** The days of a history *)

(** The days [range(start, last_index + 1)] of [detect_with_history], for
    [n] dates. *)
Definition window (n lookback : Z) : list Z :=
  seqZ (Z.max 0 (n - lookback)) (n - Z.max 0 (n - lookback)).

(** The entry of the day [idx], if the day has hits. *)
Definition entry_at (series_map : list (string * list pyobj))
    (dates : list Timestamp) (idx : Z) : option HistoryEntry :=
  match hits_at series_map idx with
  | [] => None
  | day_hits => (λ d, mkEntry d day_hits) <$> dates !! Z.to_nat idx
  end.

(** The lists of hits of a run: those of today and of each entry. *)
Definition hit_lists (hits_today : list RawHit) (history : list HistoryEntry)
  : list (list RawHit) :=
  hits_today :: (entry_hits <$> history).

(** ** A week of prices

    Five days with a date column, and a backend with two detectors: a
    doji where the close is the open, a bearish engulfing where the close
    is below the open; [SMA] is not a pattern function. The first day is
    a doji, the third and the last are engulfings. *)

Module Week.

Definition day (t o h l c : Z) : Row (cell:=Z) (index:=Z) :=
  mkRow t (λ col,
    if String.eqb col "Date" then t
    else if String.eqb col "Open" then o
    else if String.eqb col "High" then h
    else if String.eqb col "Low" then l
    else c).

Definition frame : DataFrame (cell:=Z) (index:=Z) :=
  mkFrame ["Date"; "Open"; "High"; "Low"; "Close"]%string
    [day 1 10 11 9 10; day 2 10 12 10 12; day 3 12 12 10 11;
     day 4 11 13 11 13; day 5 13 14 12 12].

Definition backend : talib (cell:=Z) :=
  mkTalib ["CDLDOJI"; "CDLENGULFING"; "SMA"]%string
    (λ fn o h l c,
       if String.eqb fn "CDLDOJI" then
         TaSeries (zip_with (λ a b, PyInt (if a =? b then 100 else 0)) o c)
       else if String.eqb fn "CDLENGULFING" then
         TaSeries (zip_with (λ a b, PyInt (if b <? a then -100 else 0)) o c)
       else TaOther).

(** The date of a timestamp, the days numbered as the timestamps are. *)
Definition date_of (t : Timestamp) : pydate := t.

Definition doji : RawHit := mkRaw (Some "CDLDOJI"%string) (Some (PyInt 100)).
Definition engulfing : RawHit :=
  mkRaw (Some "CDLENGULFING"%string) (Some (PyInt (-100))).

(** The hits of the last day, and the histories of the last three days
    and of the whole week. *)
Definition today : list RawHit := [engulfing].

Definition history3 : list HistoryEntry :=
  [mkEntry 3 [engulfing]; mkEntry 5 [engulfing]].

Definition history5 : list HistoryEntry :=
  [mkEntry 1 [doji]; mkEntry 3 [engulfing]; mkEntry 5 [engulfing]].

End Week.

(** ** Integers as floats *)

(** The float of sign [s] and magnitude [a], for [0 < a < 2^53]: the
    mantissa of 53 bits and its exponent. *)
Definition exact_float (s : bool) (a : Z) : spec_float :=
  S754_finite s (Z.to_pos (a * 2 ^ (53 - Zdigits2 a))) (Zdigits2 a - 53).

(** [x] is a zero, or has the sign [s], or is a NaN. *)
Definition sign_or_zero (s : bool) (x : spec_float) : Prop :=
  match x with
  | S754_nan | S754_zero _ => True
  | S754_infinity s' | S754_finite s' _ _ => s' = s
  end.

(** ** The total in integers

    The term of a hit and the sum of the terms when the values are
    multiples of 100, as the outputs of the backend are (100, -100, 200,
    ...): no float is involved. *)
Definition int_term (g : Globals) (fn : string) (value : Z) : Z :=
  Z.abs (_base_score g fn value) * (if 0 <? value then 1 else -1)
  * (Z.abs value / 100).

Definition int_sum (g : Globals) (pairs : list (string * Z)) : Z :=
  foldr (λ p acc, int_term g p.1 p.2 + acc) 0 pairs.

(** The sum of the magnitudes of the terms. *)
Definition int_mass (g : Globals) (pairs : list (string * Z)) : Z :=
  foldr (λ p acc, Z.abs (int_term g p.1 p.2) + acc) 0 pairs.

(** ** The scoring of a detection ([src/services/analyzer.py]) *)

Module HitTimelineEntry.
Record t : Type := mk {
  date : option pydate;
  hits : list PatternHit.t;
  total_score : Z
}.
End HitTimelineEntry.

Section Analyzer.

(** [date_of] is [pd.Timestamp.date]. *)
Context (g : Globals) (date_of : Timestamp → pydate).

(** The loop of [analyze_symbol] over [history_raw]: the date of an entry
    of [detect_with_history] is a [pd.Timestamp]. *)
Fixpoint history_entries (history_raw : list HistoryEntry)
  : result (list HitTimelineEntry.t) :=
  match history_raw with
  | [] => Ok []
  | entry :: history_raw' =>
      let entry_date := Some (date_of (entry_date entry)) in
      hits_list ← enrich_hits g (entry_hits entry) entry_date;
      total_score ← total_score_from_hits g (HitObj <$> hits_list);
      history_entries' ← history_entries history_raw';
      Ok (HitTimelineEntry.mk entry_date hits_list total_score :: history_entries')
  end.

(** What [analyze_symbol] does with the result of [detect_with_history]:
    the hits, the score and the history of the summary. *)
Definition score_detection (hits_raw : list RawHit) (history_raw : list HistoryEntry)
  : result (list PatternHit.t * Z * list HitTimelineEntry.t) :=
  hits ← enrich_hits g hits_raw None;
  score ← total_score_from_hits g (HitObj <$> hits);
  history ← history_entries history_raw;
  Ok (hits, score, history).

(** What an entry of the history becomes: its date, the enrichment of
    its hits at that date, and the total of its hits. *)
Definition entry_scored (raw : HistoryEntry) (e : HitTimelineEntry.t) : Prop :=
  HitTimelineEntry.date e = Some (date_of (entry_date raw))
  ∧ enrich_hits g (entry_hits raw) (HitTimelineEntry.date e)
    = Ok (HitTimelineEntry.hits e)
  ∧ total_score_from_hits g (HitMap <$> entry_hits raw)
    = Ok (HitTimelineEntry.total_score e).

End Analyzer.

(** The summary of the last three days of [Week.frame] under the sample
    table. *)
Module Scored.

Definition summary : list PatternHit.t * Z * list HitTimelineEntry.t :=
  Eval vm_compute in
    match score_detection Sample.globals Week.date_of Week.today Week.history3 with
    | Ok r => r
    | Raise _ => ([], 0, [])
    end.

End Scored.

(** [_safe_int] of the analyzer settings. *)
Definition _safe_int (value : pyobj) (fallback : Z) : result Z :=
  match Py.int value with
  | Ok z => Ok z
  | Raise TypeError | Raise ValueError => Ok fallback
  | Raise e => Raise e
  end.

(** The integers in the series of the backend fit 32 bits, as those of
    the integer arrays of TA-Lib do. *)
Definition small_outputs {cell : Type} (ta : option (talib (cell:=cell))) : Prop :=
  ∀ fn o h l c out x value,
    ta_call ta fn o h l c = TaSeries out → x ∈ out → Py.int x = Ok value →
    small value.

(** ** Frames with the same prices *)

(** The columns that the detection looks for, whatever the case of their
    names. *)
Definition price_column (col : string) : Prop :=
  Py.lower col ∈ ["open"; "high"; "low"; "close"; "date"; "datetime"]%string.

(** Two frames with the same column names whose rows have the same index
    and the same cells in the price and date columns. *)
Definition same_prices {cell index : Type}
    (df1 df2 : DataFrame (cell:=cell) (index:=index)) : Prop :=
  df_columns df1 = df_columns df2
  ∧ Forall2 (λ r1 r2, row_index r1 = row_index r2
                      ∧ ∀ col, price_column col → row_cell r1 col = row_cell r2 col)
      (df_rows df1) (df_rows df2).

Module Volume.

(** The week of [Week.frame] with a volume column, and with another one. *)
Definition day (volume : Z) (r : Row (cell:=Z) (index:=Z))
  : Row (cell:=Z) (index:=Z) :=
  mkRow (row_index r)
    (λ col, if String.eqb col "Volume" then volume else row_cell r col).

Definition frame (volume : Z) : DataFrame (cell:=Z) (index:=Z) :=
  mkFrame (df_columns Week.frame ++ ["Volume"%string])
    (day volume <$> df_rows Week.frame).

End Volume.

Module Intraday.

(** Two bars without a date column, indexed by their time in
    nanoseconds. *)
Definition bar (t o h l c : Z) : Row (cell:=Z) (index:=Z) :=
  mkRow t (λ col,
    if String.eqb col "Open" then o
    else if String.eqb col "High" then h
    else if String.eqb col "Low" then l
    else c).

Definition frame : DataFrame (cell:=Z) (index:=Z) :=
  mkFrame ["Open"; "High"; "Low"; "Close"]%string
    [bar 1500 10 11 9 10; bar 2999 10 12 10 12].

End Intraday.

(** [c] is the last of the columns whose name in lower case is [key]. *)
Definition last_column (columns : list string) (key c : string) : Prop :=
  ∃ before after,
    columns = before ++ c :: after
    ∧ Py.lower c = key
    ∧ Forall (λ c', Py.lower c' ≠ key) after.

(** * Properties *)

(** ** Exceptions *)

Lemma bind_Ok {A B} (m : result A) (f : A → result B) b :
  m ≫= f = Ok b ↔ ∃ a, m = Ok a ∧ f a = Ok b.
Proof.
  destruct m as [a|e]; simpl; split.
  - eauto.
  - intros (a' & [= <-] & H). exact H.
  - discriminate.
  - intros (a' & [=] & _).
Qed.

Lemma bind_raises {A B} (m : result A) (f : A → result B) :
  raises m → raises (m ≫= f).
Proof. intros [e ->]. exists e. reflexivity. Qed.

Lemma returns_or_raises {A} (r : result A) : returns r ∨ raises r.
Proof. destruct r as [a|e]; [left; exists a | right; exists e]; reflexivity. Qed.

(** ** Signs of float results *)

Lemma binary_round_aux_sign (s : bool) (m e : Z) (l : location) :
  sign_or_nan s (binary_round_aux F64.prec F64.emax s m e l).
Proof.
  unfold binary_round_aux.
  destruct (shr_fexp _ _ m e l) as [mrs' e'].
  destruct (shr_fexp _ _ _ e' loc_Exact) as [mrs'' e''].
  destruct (shr_m mrs''); simpl; [reflexivity | | exact I].
  destruct (_ <=? _)%Z; reflexivity.
Qed.

Lemma of_Z_sign (z : Z) : z ≠ 0 → sign_or_nan (z <? 0) (F64.of_Z z).
Proof.
  intros Hz. destruct z as [|p|p]; [done | |];
    unfold F64.of_Z, binary_normalize, binary_round;
    destruct (shl_align _ _ _) as [mz ez]; apply binary_round_aux_sign.
Qed.

Lemma mul_sign (sx sy : bool) (x y : spec_float) :
  sign_or_nan sx x → sign_or_nan sy y → sign_or_nan (xorb sx sy) (F64.mul x y).
Proof.
  destruct x, y; simpl; intros; subst; try exact I; try reflexivity.
  apply binary_round_aux_sign.
Qed.

Lemma mul_zero_l (x y : spec_float) :
  F64.is_zero x = true → zero_or_nan (F64.mul x y).
Proof. destruct x, y; simpl; intros; try discriminate; exact I. Qed.

Lemma div_finite_sign (sx sy : bool) (mx my : positive) (ex ey : Z) :
  sign_or_nan (xorb sx sy)
    (F64.div (S754_finite sx mx ex) (S754_finite sy my ey)).
Proof.
  unfold F64.div, SFdiv.
  destruct (SFdiv_core_binary _ _ _ _ _ _) as [[mz ez] lz].
  apply binary_round_aux_sign.
Qed.

Lemma round2_sign (s : bool) (x : spec_float) :
  sign_or_nan s x → sign_or_nan s (Py.round2 x).
Proof.
  destruct x as [| | |s' m e]; simpl; try done.
  intros ->. destruct (F64.nearest_int _ _); [reflexivity | | reflexivity].
  pose proof (div_finite_sign s false p 7036874417766400 0 (-46)) as H.
  by rewrite xorb_false_r in H.
Qed.

Lemma round2_zero (x : spec_float) : zero_or_nan x → zero_or_nan (Py.round2 x).
Proof. destruct x; simpl; done. Qed.

Lemma not_positive (x : spec_float) :
  sign_or_nan true x ∨ zero_or_nan x → F64.ltb F64.zero x = false.
Proof. destruct x as [| | |s m e]; simpl; intros [H|H]; try done; by subst. Qed.

Lemma not_negative (x : spec_float) :
  sign_or_nan false x ∨ zero_or_nan x → F64.ltb x F64.zero = false.
Proof. destruct x as [| | |s m e]; simpl; intros [H|H]; try done; by subst. Qed.

(** ** Rounding to binary64

    What [binary_round_aux] computes, spelled out with divisions: the
    mantissa is shifted down to the exponent [fexp] wants, rounded, and
    shifted once more when the rounding carried into a new bit. *)

Section Rounding.

Local Abbreviation prec := F64.prec.
Local Abbreviation emax := F64.emax.
Local Abbreviation emin := (SpecFloat.emin prec emax).
Local Abbreviation fexp := (SpecFloat.fexp prec emax).

Lemma emin_eq : emin = -1074.
Proof. reflexivity. Qed.

Lemma fexp_eq (e : Z) : fexp e = Z.max (e - 53) (-1074).
Proof. reflexivity. Qed.

Lemma digits2_pos_size (p : positive) : digits2_pos p = Pos.size p.
Proof. induction p; simpl; congruence. Qed.

Lemma Zdigits2_nonneg (m : Z) : 0 ≤ Zdigits2 m.
Proof. destruct m; simpl; lia. Qed.

Lemma Zdigits2_bounds (m : Z) :
  0 < m → 2 ^ (Zdigits2 m - 1) ≤ m < 2 ^ Zdigits2 m.
Proof.
  destruct m as [|p|p]; try lia. intros _. simpl.
  rewrite digits2_pos_size.
  pose proof (Pos.size_gt p) as Hgt. pose proof (Pos.size_le p) as Hle.
  apply Pos2Z.pos_lt_pos in Hgt. apply Pos2Z.pos_le_pos in Hle.
  rewrite Pos2Z.inj_pow in Hgt, Hle.
  split; [| exact Hgt].
  replace (Z.pos (Pos.size p)) with (Z.succ (Z.pos (Pos.size p) - 1)) in Hle by lia.
  rewrite Z.pow_succ_r in Hle by lia. lia.
Qed.

Lemma Zdigits2_le (m : Z) (k : Z) : 0 ≤ k → 0 ≤ m < 2 ^ k → Zdigits2 m ≤ k.
Proof.
  intros Hk [Hm Hlt]. destruct (Z.eq_dec m 0) as [->|Hne]; [simpl; lia |].
  destruct (Zdigits2_bounds m) as [Hlo _]; [lia |].
  destruct (Z.le_gt_cases (Zdigits2 m) k) as [|Hgt]; [done |].
  assert (2 ^ k ≤ 2 ^ (Zdigits2 m - 1)) by (apply Z.pow_le_mono_r; lia). lia.
Qed.

Lemma shr_1_m (mrs : shr_record) :
  0 ≤ shr_m mrs → shr_m (shr_1 mrs) = shr_m mrs / 2.
Proof.
  destruct mrs as [m r s]. simpl. intros Hm. rewrite <- Z.div2_div.
  destruct m as [|[p|p|]|p]; simpl; try lia; reflexivity.
Qed.

Lemma shr_1_nonneg (mrs : shr_record) : 0 ≤ shr_m mrs → 0 ≤ shr_m (shr_1 mrs).
Proof. intros H. rewrite shr_1_m by done. apply Z.div_pos; lia. Qed.

Lemma iter_shr_1_m (p : positive) (mrs : shr_record) :
  0 ≤ shr_m mrs →
  shr_m (SpecFloat.iter_pos shr_1 p mrs) = shr_m mrs / 2 ^ Z.pos p.
Proof.
  revert mrs. induction p as [p IH|p IH|]; intros mrs Hm; simpl.
  - assert (0 < 2 ^ Z.pos p) by (apply Z.pow_pos_nonneg; lia).
    rewrite IH; [rewrite IH | rewrite IH]; try by apply shr_1_nonneg.
    + rewrite shr_1_m by done. rewrite !Z.div_div by lia. f_equal.
      change (Z.pos p~1) with (2 * Z.pos p + 1).
      replace (2 * Z.pos p + 1) with (1 + Z.pos p + Z.pos p) by lia.
      rewrite !Z.pow_add_r by lia. change (2 ^ 1) with 2. ring.
    + apply Z.div_pos; [by apply shr_1_nonneg | lia].
  - assert (0 < 2 ^ Z.pos p) by (apply Z.pow_pos_nonneg; lia).
    rewrite IH; [rewrite IH by done |].
    + rewrite Z.div_div by lia. f_equal.
      change (Z.pos p~0) with (2 * Z.pos p).
      replace (2 * Z.pos p) with (Z.pos p + Z.pos p) by lia.
      rewrite Z.pow_add_r by lia. reflexivity.
    + rewrite IH by done. apply Z.div_pos; lia.
  - by apply shr_1_m.
Qed.

(** The first component of [shr_fexp]: exponent and mantissa. *)
Lemma shr_fexp_spec (m e : Z) (l : location) :
  0 ≤ m →
  let e' := Z.max e (fexp (Zdigits2 m + e)) in
  ∃ mrs, shr_fexp prec emax m e l = (mrs, e') ∧ shr_m mrs = m / 2 ^ (e' - e).
Proof.
  intros Hm e'. unfold shr_fexp, shr.
  assert (shr_m (shr_record_of_loc m l) = m) as Hrec
    by (by destruct l as [|[]]).
  destruct (fexp (Zdigits2 m + e) - e) as [|p|p] eqn:Hn.
  - eexists. split; [f_equal; subst e'; lia |].
    replace (e' - e) with 0 by (subst e'; lia). by rewrite Z.div_1_r.
  - eexists. split; [f_equal; subst e'; lia |].
    rewrite iter_shr_1_m by (by rewrite Hrec). rewrite Hrec.
    do 2 f_equal. subst e'. lia.
  - eexists. split; [f_equal; subst e'; lia |].
    replace (e' - e) with 0 by (subst e'; lia). by rewrite Z.div_1_r.
Qed.

Lemma round_nearest_even_bounds (m : Z) (l : location) :
  m ≤ round_nearest_even m l ≤ m + 1.
Proof. destruct l as [|[]]; simpl; try lia. destruct (Z.even m); lia. Qed.

(** The shape of a rounded result. *)
Lemma binary_round_aux_spec (s : bool) (m e : Z) (l : location) :
  0 ≤ m →
  let e1 := Z.max e (fexp (Zdigits2 m + e)) in
  ∃ m2, m / 2 ^ (e1 - e) ≤ m2 ≤ m / 2 ^ (e1 - e) + 1
    ∧ let e2 := Z.max e1 (fexp (Zdigits2 m2 + e1)) in
      binary_round_aux prec emax s m e l
      = match m2 / 2 ^ (e2 - e1) with
        | Z0 => S754_zero s
        | Zpos p => if e2 <=? emax - prec then S754_finite s p e2
                    else S754_infinity s
        | Zneg _ => S754_nan
        end.
Proof.
  intros Hm. cbv zeta. unfold binary_round_aux.
  destruct (shr_fexp_spec m e l Hm) as (mrs' & -> & Hm1).
  set (e1 := Z.max e (fexp (Zdigits2 m + e))) in *.
  set (m2 := round_nearest_even (shr_m mrs') (loc_of_shr_record mrs')).
  pose proof (round_nearest_even_bounds (shr_m mrs') (loc_of_shr_record mrs')) as Hb.
  fold m2 in Hb. rewrite Hm1 in Hb.
  assert (0 ≤ m / 2 ^ (e1 - e)) by (apply Z.div_pos; [lia | apply Z.pow_pos_nonneg; lia]).
  exists m2. split; [exact Hb |].
  destruct (shr_fexp_spec m2 e1 loc_Exact) as (mrs'' & -> & Hm3); [lia |].
  rewrite Hm3. reflexivity.
Qed.

Lemma pow2_pos (k : Z) : 0 ≤ k → 0 < 2 ^ k.
Proof. intros. apply Z.pow_pos_nonneg; lia. Qed.

(** Shifting down to the exponent of [fexp] keeps a bit of a positive
    mantissa whose exponent is not below [emin]. *)
Lemma shift_positive (m e : Z) :
  0 < m → emin ≤ e → 0 < m / 2 ^ (Z.max e (fexp (Zdigits2 m + e)) - e).
Proof.
  intros Hm He. rewrite emin_eq in He. rewrite fexp_eq.
  destruct (Zdigits2_bounds m Hm) as [Hlo _].
  pose proof (Zdigits2_nonneg m) as Hd.
  destruct (Z.le_gt_cases (Zdigits2 m) 53) as [Hle|Hgt].
  - replace (Z.max e _ - e) with 0 by lia. rewrite Z.div_1_r. lia.
  - replace (Z.max e _ - e) with (Zdigits2 m - 53) by lia.
    apply Z.div_str_pos. split; [apply pow2_pos; lia |].
    transitivity (2 ^ (Zdigits2 m - 1)); [apply Z.pow_le_mono_r; lia | done].
Qed.

Lemma binary_round_aux_nonzero (s : bool) (m e : Z) (l : location) :
  0 < m → emin ≤ e → nonzero_number (binary_round_aux prec emax s m e l).
Proof.
  intros Hm He.
  destruct (binary_round_aux_spec s m e l) as (m2 & Hm2 & ->); [lia |].
  pose proof (shift_positive m e Hm He) as H1.
  set (e1 := Z.max e (fexp (Zdigits2 m + e))) in *.
  assert (0 < m2) as Hm2' by lia.
  assert (emin ≤ e1) as He1 by (subst e1; lia).
  pose proof (shift_positive m2 e1 Hm2' He1) as H3.
  destruct (m2 / 2 ^ _); [lia | | lia].
  by destruct (_ <=? _).
Qed.

Lemma binary_round_aux_exponent (s s' : bool) (m e : Z) (l : location)
    (m' : positive) (e' : Z) :
  0 ≤ m →
  binary_round_aux prec emax s m e l = S754_finite s' m' e' →
  Z.max e (fexp (Zdigits2 m + e)) ≤ e' ≤ emax - prec.
Proof.
  intros Hm. destruct (binary_round_aux_spec s m e l Hm) as (m2 & Hm2 & ->).
  destruct (m2 / 2 ^ _); [done | | done].
  destruct (Z.leb_spec (Z.max (Z.max e (fexp (Zdigits2 m + e)))
                          (fexp (Zdigits2 m2 + Z.max e (fexp (Zdigits2 m + e)))))
              (emax - prec)); [| done].
  intros [= _ _ <-]. lia.
Qed.

Lemma binary_round_aux_canonical (s : bool) (m e : Z) (l : location) :
  0 ≤ m → canonical_exp (binary_round_aux prec emax s m e l).
Proof.
  intros Hm. destruct (binary_round_aux prec emax s m e l) as [| | |s' m' e'] eqn:H;
    try exact I.
  apply binary_round_aux_exponent in H; [| done]. simpl.
  rewrite fexp_eq in H. rewrite emin_eq. lia.
Qed.

(** A value below [2^K], [K] at most 1023, does not round to an
    infinity. *)
Lemma binary_round_aux_no_overflow (s : bool) (m e K : Z) (l : location) :
  0 ≤ m → e ≤ emax - prec → m < 2 ^ (K - e) → K ≤ 1023 →
  F64.is_finite (binary_round_aux prec emax s m e l) = true.
Proof.
  intros Hm He HK HK'.
  assert (0 ≤ K - e) as HKe.
  { destruct (Z.le_gt_cases 0 (K - e)); [done |].
    rewrite Z.pow_neg_r in HK by lia. lia. }
  destruct (binary_round_aux_spec s m e l Hm) as (m2 & Hm2 & ->).
  pose proof (Zdigits2_le m (K - e) HKe (conj Hm HK)) as Hd.
  set (e1 := Z.max e (fexp (Zdigits2 m + e))) in *.
  assert (e ≤ e1 ≤ emax - prec) as He1
    by (subst e1; rewrite fexp_eq; unfold emax, prec in *; lia).
  assert (m / 2 ^ (e1 - e) < 2 ^ Z.max (K - e1) 0) as Hm1.
  { apply Z.div_lt_upper_bound; [apply pow2_pos; lia |].
    rewrite <- Z.pow_add_r by lia.
    eapply Z.lt_le_trans; [exact HK |]. apply Z.pow_le_mono_r; lia. }
  assert (0 ≤ m / 2 ^ (e1 - e)) by (apply Z.div_pos; [lia | apply pow2_pos; lia]).
  assert (Zdigits2 m2 ≤ Z.max (K - e1) 0 + 1) as Hd2.
  { apply Zdigits2_le; [lia |]. split; [lia |].
    rewrite Z.pow_add_r by lia. change (2 ^ 1) with 2. lia. }
  set (e2 := Z.max e1 (fexp (Zdigits2 m2 + e1))).
  assert (e2 ≤ emax - prec) as He2
    by (subst e2; rewrite fexp_eq; unfold emax, prec in *; lia).
  assert (0 ≤ m2 / 2 ^ (e2 - e1)) as Hm3
    by (apply Z.div_pos; [lia | apply pow2_pos; subst e2; lia]).
  destruct (m2 / 2 ^ (e2 - e1)); [done | | lia].
  by rewrite (proj2 (Z.leb_le _ _)) by exact He2.
Qed.

Lemma shl_align_spec (mx : positive) (ex ex' : Z) :
  let '(mz, ez) := shl_align mx ex ex' in
  ez = Z.min ex ex' ∧ Z.pos mz = Z.pos mx * 2 ^ (ex - ez).
Proof.
  unfold shl_align. destruct (ex' - ex) as [|d|d] eqn:Hd.
  - split; [lia |]. replace (ex - ex) with 0 by lia. lia.
  - split; [lia |]. replace (ex - ex) with 0 by lia. lia.
  - split; [lia |]. replace (ex - ex') with (Z.pos d) by lia.
    clear. induction d as [|d IH] using Pos.peano_ind.
    + simpl. lia.
    + rewrite Pos.iter_succ, Pos2Z.inj_succ, Z.pow_succ_r by lia.
      rewrite Pos2Z.inj_xO, IH. lia.
Qed.

Lemma binary_round_good (s : bool) (m : positive) (e : Z) :
  emin ≤ e →
  nonzero_number (binary_round prec emax s m e)
  ∧ canonical_exp (binary_round prec emax s m e).
Proof.
  intros He. unfold binary_round.
  pose proof (shl_align_spec m e (fexp (Z.pos (digits2_pos m) + e))) as H.
  destruct (shl_align _ _ _) as [mz ez]. destruct H as [Hez _].
  split.
  - apply binary_round_aux_nonzero; [lia |].
    rewrite Hez, fexp_eq. rewrite emin_eq in *. lia.
  - apply binary_round_aux_canonical. lia.
Qed.

End Rounding.

(** ** Sums of floats *)

Section Sums.

Local Abbreviation prec := F64.prec.
Local Abbreviation emax := F64.emax.

Lemma binary_round_aux_opp (s : bool) (m e : Z) (l : location) :
  binary_round_aux prec emax (negb s) m e l
  = SFopp (binary_round_aux prec emax s m e l).
Proof.
  unfold binary_round_aux.
  destruct (shr_fexp _ _ m e l) as [mrs' e'].
  destruct (shr_fexp _ _ _ e' loc_Exact) as [mrs'' e''].
  destruct (shr_m mrs''); [reflexivity | | reflexivity].
  destruct (_ <=? _)%Z; reflexivity.
Qed.

Lemma is_finite_opp (x : spec_float) : F64.is_finite (SFopp x) = F64.is_finite x.
Proof. by destruct x. Qed.

Lemma of_Z_finite_opp (z : Z) :
  F64.is_finite (F64.of_Z (- z)) = F64.is_finite (F64.of_Z z).
Proof.
  destruct z as [|p|p]; [reflexivity | |];
    [change (- Z.pos p) with (Z.neg p) | change (- Z.neg p) with (Z.pos p)];
    unfold F64.of_Z, binary_normalize, binary_round;
    destruct (shl_align _ _ _) as [mz ez];
    change true with (negb false);
    by rewrite binary_round_aux_opp, is_finite_opp.
Qed.

Lemma of_Z_finite_abs (z : Z) :
  F64.is_finite (F64.of_Z (Z.abs z)) = F64.is_finite (F64.of_Z z).
Proof. destruct z; try reflexivity. apply (of_Z_finite_opp (Z.neg p)). Qed.

Lemma float_of_int_finite (z : Z) :
  F64.is_finite (F64.of_Z z) = true → Py.float_of_int z = Ok (F64.of_Z z).
Proof. unfold Py.float_of_int. by destruct (F64.of_Z z). Qed.

Lemma mul_canonical (x y : spec_float) : canonical_exp (F64.mul x y).
Proof.
  destruct x, y; try exact I.
  apply binary_round_aux_canonical. lia.
Qed.

Lemma add_finite_good (sx sy : bool) (mx my : positive) (ex ey : Z) :
  canonical_exp (S754_finite sx mx ex) → canonical_exp (S754_finite sy my ey) →
  not_neg_zero (F64.add (S754_finite sx mx ex) (S754_finite sy my ey))
  ∧ canonical_exp (F64.add (S754_finite sx mx ex) (S754_finite sy my ey)).
Proof.
  simpl. intros Hx Hy. unfold not_neg_zero, F64.add, SFadd.
  set (z := (_ + _)%Z). unfold binary_normalize.
  destruct z as [|p|p]; [done | |].
  - destruct (binary_round_good false p (Z.min ex ey)) as [H1 H2]; [lia |].
    split; [| exact H2]. intros E. by rewrite E in H1.
  - destruct (binary_round_good true p (Z.min ex ey)) as [H1 H2]; [lia |].
    split; [| exact H2]. intros E. by rewrite E in H1.
Qed.

Lemma add_good (x y : spec_float) :
  not_neg_zero x → canonical_exp x → canonical_exp y →
  not_neg_zero (F64.add x y) ∧ canonical_exp (F64.add x y).
Proof.
  intros Hx Hcx Hcy.
  destruct x as [[]|[]| |sx mx ex], y as [[]|[]| |sy my ey];
    try (by apply add_finite_good); try done;
    split; try discriminate; try done.
Qed.

Lemma add_zero_r (x : spec_float) (s : bool) :
  not_neg_zero x → F64.add x (S754_zero s) = F64.add x (S754_zero false).
Proof. unfold not_neg_zero. by destruct x as [[]| | |], s. Qed.

End Sums.

(** ** Overflow of the conversions *)

Section Overflow.

Local Abbreviation prec := F64.prec.
Local Abbreviation emax := F64.emax.

Lemma of_Z_number (z : Z) : z ≠ 0 → nonzero_number (F64.of_Z z).
Proof.
  destruct z as [|p|p]; [done | |]; intros _;
    apply (binary_round_good _ p 0); done.
Qed.

Lemma float_of_int_raises (z : Z) :
  raises (Py.float_of_int z) ↔ F64.is_finite (F64.of_Z z) = false.
Proof.
  split.
  - intros [e He]. destruct (F64.is_finite (F64.of_Z z)) eqn:H; [| done].
    by rewrite (float_of_int_finite z H) in He.
  - intros H. destruct (decide (z = 0)) as [->|Hz]; [done |].
    pose proof (of_Z_number z Hz) as Hn. unfold Py.float_of_int.
    destruct (F64.of_Z z); try done. by exists OverflowError.
Qed.

(** An integer of 1025 bits or more is too large for a float. *)
Lemma of_Z_overflow (a : Z) : 2 ^ 1024 ≤ a → F64.is_finite (F64.of_Z a) = false.
Proof.
  intros Ha.
  assert (0 < a) as Hpos by (pose proof (pow2_pos 1024); lia).
  destruct a as [|p|p]; try lia.
  pose proof (of_Z_number (Z.pos p) ltac:(done)) as Hn.
  unfold F64.of_Z, binary_normalize, binary_round in *.
  pose proof (shl_align_spec p 0 (fexp prec emax (Z.pos (digits2_pos p) + 0))) as H.
  destruct (shl_align _ _ _) as [mz ez]. destruct H as [Hez Hmz].
  destruct (Zdigits2_bounds (Z.pos p) Hpos) as [_ Hd]. simpl Zdigits2 in Hd.
  assert (1024 < Z.pos (digits2_pos p)) as Hdigits.
  { destruct (Z.le_gt_cases (Z.pos (digits2_pos p)) 1024) as [Hle|]; [| lia].
    assert (2 ^ Z.pos (digits2_pos p) ≤ 2 ^ 1024) by (apply Z.pow_le_mono_r; lia).
    lia. }
  rewrite fexp_eq in Hez.
  assert (ez = 0) as -> by lia.
  replace (0 - 0) with 0 in Hmz by lia. rewrite Z.pow_0_r, Z.mul_1_r in Hmz.
  injection Hmz as ->.
  destruct (binary_round_aux prec emax false (Z.pos p) 0 loc_Exact)
    as [| | |s' m' e'] eqn:Hr; try done.
  apply binary_round_aux_exponent in Hr; [| lia].
  simpl Zdigits2 in Hr. rewrite fexp_eq in Hr. unfold emax, prec in Hr. lia.
Qed.

(** The quotient by 100 of an integer below [2^1024] is a float. *)
Lemma div_100_finite (a : positive) :
  Z.pos a < 2 ^ 1024 →
  F64.is_finite (F64.div (S754_finite false a 0) (S754_finite false 100 0)) = true.
Proof.
  intros Ha. unfold F64.div, SFdiv, SFdiv_core_binary.
  change (Zdigits2 100) with 7.
  set (e' := Z.min (fexp prec emax (Zdigits2 (Z.pos a) + 0 - (7 + 0))) (0 - 0)).
  assert (e' ≤ 0) as He' by (subst e'; lia).
  set (m' := match 0 - 0 - e' with
             | 0 => Z.pos a
             | Z.pos _ => Z.shiftl (Z.pos a) (0 - 0 - e')
             | Z.neg _ => 0
             end).
  assert (m' = Z.pos a * 2 ^ (- e')) as Hm'.
  { subst m'. destruct (0 - 0 - e') as [|s|s] eqn:Hs; [| | lia].
    - replace (- e') with 0 by lia. lia.
    - rewrite Z.shiftl_mul_pow2 by lia. do 2 f_equal. lia. }
  clearbody m'.
  pose proof (Z_div_mod m' 100 ltac:(done)) as Hdiv.
  destruct (Z.div_eucl m' 100) as [q r]. destruct Hdiv as [Hq Hr].
  assert (0 < 2 ^ (- e')) as Hpow by (apply pow2_pos; lia).
  apply binary_round_aux_no_overflow with (K := 1018); [nia | unfold emax, prec; lia | | lia].
  replace (1018 - e') with (1018 + - e') by lia.
  rewrite Z.pow_add_r by lia.
  assert (2 ^ 1024 = 64 * 2 ^ 1018) as E by reflexivity.
  nia.
Qed.

Lemma int_truediv_overflow (a : Z) :
  0 < a → raises (Py.int_truediv a 100) → raises (Py.float_of_int a).
Proof.
  intros Ha H. apply float_of_int_raises.
  destruct (Z.le_gt_cases (2 ^ 1024) a) as [Hle|Hgt]; [by apply of_Z_overflow |].
  exfalso. destruct H as [e He]. unfold Py.int_truediv in He.
  destruct a as [|p|p]; try lia.
  pose proof (div_100_finite p ltac:(lia)) as Hfin.
  change (Z.pos p <? 0) with false in He. change (100 <? 0) with false in He.
  change (Z.to_pos (Z.abs (Z.pos p))) with p in He.
  change (Z.to_pos (Z.abs 100)) with 100%positive in He.
  destruct (F64.div _ _); done.
Qed.

End Overflow.

(** ** Magnitudes of float results *)

Section Magnitude.

Local Abbreviation prec := F64.prec.
Local Abbreviation emax := F64.emax.

Lemma le_pow2_mono (K K' : Z) (x : spec_float) :
  K ≤ K' → le_pow2 K x → le_pow2 K' x.
Proof.
  intros HK. destruct x as [| | |s m e]; simpl; try done.
  intros [He Hm]. split; [lia |].
  etransitivity; [exact Hm |]. apply Z.pow_le_mono_r; lia.
Qed.

Lemma le_pow2_finite (K : Z) (x : spec_float) : le_pow2 K x → F64.is_finite x = true.
Proof. by destruct x. Qed.

(** A value below [2^K] rounds to at most [2^K]. *)
Lemma binary_round_aux_le_pow2 (s : bool) (m e K : Z) (l : location) :
  0 ≤ m → e ≤ K → m < 2 ^ (K - e) → -1074 ≤ K ≤ 971 →
  le_pow2 K (binary_round_aux prec emax s m e l).
Proof.
  intros Hm He HK HK'.
  destruct (binary_round_aux_spec s m e l Hm) as (m2 & Hm2 & ->).
  pose proof (Zdigits2_le m (K - e) ltac:(lia) (conj Hm HK)) as Hd.
  set (e1 := Z.max e (fexp prec emax (Zdigits2 m + e))) in *.
  assert (e ≤ e1 ≤ K) as He1 by (subst e1; rewrite fexp_eq; lia).
  assert (m / 2 ^ (e1 - e) < 2 ^ (K - e1)) as Hm1.
  { apply Z.div_lt_upper_bound; [apply pow2_pos; lia |].
    rewrite <- Z.pow_add_r by lia. by replace (e1 - e + (K - e1)) with (K - e) by lia. }
  assert (0 ≤ m / 2 ^ (e1 - e)) by (apply Z.div_pos; [lia | apply pow2_pos; lia]).
  assert (Zdigits2 m2 ≤ K - e1 + 1) as Hd2.
  { apply Zdigits2_le; [lia |]. split; [lia |].
    rewrite Z.pow_add_r by lia. change (2 ^ 1) with 2. lia. }
  set (e2 := Z.max e1 (fexp prec emax (Zdigits2 m2 + e1))).
  assert (e1 ≤ e2 ≤ K) as He2 by (subst e2; rewrite fexp_eq; lia).
  assert (0 ≤ m2 / 2 ^ (e2 - e1) ≤ 2 ^ (K - e2)) as Hm3.
  { split; [apply Z.div_pos; [lia | apply pow2_pos; lia] |].
    apply Z.div_le_upper_bound; [apply pow2_pos; lia |].
    rewrite <- Z.pow_add_r by lia. replace (e2 - e1 + (K - e2)) with (K - e1) by lia. lia. }
  destruct (m2 / 2 ^ (e2 - e1)) as [|p|p] eqn:E; [done | | lia].
  rewrite (proj2 (Z.leb_le _ _)) by (unfold emax, prec; lia).
  simpl. split; [lia | tauto].
Qed.

Lemma binary_round_le_pow2 (s : bool) (m : positive) (e K : Z) :
  e ≤ K → Z.pos m < 2 ^ (K - e) → -1074 ≤ K ≤ 971 →
  le_pow2 K (binary_round prec emax s m e).
Proof.
  intros He Hm HK. unfold binary_round.
  pose proof (shl_align_spec m e (fexp prec emax (Z.pos (digits2_pos m) + e))) as H.
  destruct (shl_align _ _ _) as [mz ez]. destruct H as [Hez Hmz].
  apply binary_round_aux_le_pow2; [lia | lia | | lia].
  rewrite Hmz. replace (K - ez) with (K - e + (e - ez)) by lia.
  rewrite Z.pow_add_r by lia.
  apply Z.mul_lt_mono_pos_r; [apply pow2_pos; lia | exact Hm].
Qed.

Lemma of_Z_le_pow2 (z K : Z) :
  Z.abs z < 2 ^ K → 0 ≤ K ≤ 971 → le_pow2 K (F64.of_Z z).
Proof.
  intros Hz HK. unfold F64.of_Z, binary_normalize.
  destruct z as [|p|p]; [done | |];
    apply binary_round_le_pow2; try lia; by rewrite Z.sub_0_r.
Qed.

Lemma mul_le_pow2 (K1 K2 : Z) (x y : spec_float) :
  le_pow2 K1 x → le_pow2 K2 y → 0 ≤ K1 → 0 ≤ K2 → K1 + K2 + 1 ≤ 971 →
  le_pow2 (K1 + K2 + 1) (F64.mul x y).
Proof.
  intros Hx Hy HK1 HK2 HK.
  destruct x as [| | |sx mx ex], y as [| | |sy my ey]; try done.
  destruct Hx as [Hex Hmx], Hy as [Hey Hmy].
  apply binary_round_aux_le_pow2; [lia | lia | | lia].
  rewrite Pos2Z.inj_mul.
  replace (K1 + K2 + 1 - (ex + ey)) with (1 + (K1 - ex) + (K2 - ey)) by lia.
  rewrite !Z.pow_add_r by lia. change (2 ^ 1) with 2.
  pose proof (pow2_pos (K1 - ex) ltac:(lia)). pose proof (pow2_pos (K2 - ey) ltac:(lia)).
  nia.
Qed.

Lemma div_hundred_le_pow2 (K : Z) (x : spec_float) :
  le_pow2 K x → -1074 ≤ K ≤ 971 → le_pow2 K (F64.div x F64.hundred).
Proof.
  intros Hx HK. destruct x as [| | |s m e]; try done.
  destruct Hx as [He Hm].
  unfold F64.div, F64.hundred, SFdiv, SFdiv_core_binary.
  change (Zdigits2 7036874417766400) with 53.
  set (e' := Z.min _ _).
  destruct (Zdigits2_bounds (Z.pos m) ltac:(done)) as [Hlo _].
  assert (Zdigits2 (Z.pos m) + e ≤ K + 1) as Hd.
  { destruct (Z.le_gt_cases (Zdigits2 (Z.pos m) - 1) (K - e)) as [|Hgt]; [lia |].
    assert (2 ^ (K - e + 1) ≤ 2 ^ (Zdigits2 (Z.pos m) - 1))
      by (apply Z.pow_le_mono_r; lia).
    rewrite Z.pow_add_r in * by lia. pose proof (pow2_pos (K - e) ltac:(lia)). lia. }
  assert (e' ≤ K ∧ e' ≤ e + 46) as [He'K He'e] by (subst e'; rewrite fexp_eq; lia).
  set (m' := match e - -46 - e' with
             | 0 => Z.pos m
             | Z.pos _ => Z.shiftl (Z.pos m) (e - -46 - e')
             | Z.neg _ => 0
             end).
  assert (m' = Z.pos m * 2 ^ (e + 46 - e')) as Hm'.
  { subst m'. destruct (e - -46 - e') as [|p|p] eqn:Hs; [| | lia].
    - replace (e + 46 - e') with 0 by lia. lia.
    - rewrite Z.shiftl_mul_pow2 by lia. do 2 f_equal. lia. }
  clearbody m'.
  pose proof (Z_div_mod m' 7036874417766400 ltac:(done)) as Hdiv.
  destruct (Z.div_eucl m' 7036874417766400) as [q r]. destruct Hdiv as [Hq Hr].
  assert (0 < 2 ^ (e + 46 - e')) as Hpow by (apply pow2_pos; lia).
  assert (0 ≤ q) as Hq0 by nia.
  apply binary_round_aux_le_pow2; [exact Hq0 | exact He'K | | lia].
  destruct (Z.eq_dec q 0) as [->|Hne]; [apply pow2_pos; lia |].
  assert (2 ^ (K - e) * 2 ^ (e + 46 - e') = 2 ^ 46 * 2 ^ (K - e')) as E.
  { rewrite <- !Z.pow_add_r by lia. f_equal. lia. }
  assert (2 ^ 46 = 70368744177664) as E46 by reflexivity.
  pose proof (pow2_pos (K - e') ltac:(lia)).
  nia.
Qed.

End Magnitude.

(** ** Absorption

    A running total of magnitude [2^120] absorbs a term of magnitude at
    most [2^63]: the sum rounds back to [2^120]. *)

Section Absorption.

Local Abbreviation prec := F64.prec.
Local Abbreviation emax := F64.emax.

Lemma iter_pos_iter {A} (f : A → A) (p : positive) (x : A) :
  SpecFloat.iter_pos f p x = Pos.iter f x p.
Proof.
  revert x. induction p as [p IH|p IH|]; intros x; simpl.
  - by rewrite !IH, <- !Pos.iter_swap.
  - by rewrite !IH.
  - reflexivity.
Qed.

Lemma shr_1_r (mrs : shr_record) :
  0 ≤ shr_m mrs → shr_r (shr_1 mrs) = Z.odd (shr_m mrs).
Proof.
  destruct mrs as [m r s]. simpl.
  destruct m as [|[p|p|]|p]; simpl; try lia; reflexivity.
Qed.

Lemma iter_shr_1_nonneg (p : positive) (mrs : shr_record) :
  0 ≤ shr_m mrs → 0 ≤ shr_m (SpecFloat.iter_pos shr_1 p mrs).
Proof.
  intros H. rewrite iter_shr_1_m by done.
  apply Z.div_pos; [done | apply pow2_pos; lia].
Qed.

(** The round bit after a shift by [p] is the bit [p - 1] of the
    mantissa. *)
Lemma iter_shr_1_r (p : positive) (mrs : shr_record) :
  0 ≤ shr_m mrs →
  shr_r (SpecFloat.iter_pos shr_1 p mrs) = Z.odd (shr_m mrs / 2 ^ (Z.pos p - 1)).
Proof.
  intros Hm. destruct (Pos.eq_dec p 1%positive) as [->|Hp].
  - simpl. rewrite Z.div_1_r. by apply shr_1_r.
  - destruct (Pos.succ_pred_or p) as [|Hs]; [done |].
    rewrite <- Hs at 1. rewrite iter_pos_iter, Pos.iter_succ, <- iter_pos_iter.
    rewrite shr_1_r by (by apply iter_shr_1_nonneg).
    rewrite iter_shr_1_m by done. do 3 f_equal. lia.
Qed.

(** Without a round bit, rounding an exact mantissa truncates it. *)
Lemma binary_round_aux_truncates (s : bool) (m e : Z) :
  0 ≤ m →
  let e1 := fexp prec emax (Zdigits2 m + e) in
  e < e1 →
  Z.odd (m / 2 ^ (e1 - e - 1)) = false →
  let m2 := m / 2 ^ (e1 - e) in
  let e2 := Z.max e1 (fexp prec emax (Zdigits2 m2 + e1)) in
  binary_round_aux prec emax s m e loc_Exact
  = match m2 / 2 ^ (e2 - e1) with
    | Z0 => S754_zero s
    | Zpos p => if e2 <=? emax - prec then S754_finite s p e2 else S754_infinity s
    | Zneg _ => S754_nan
    end.
Proof.
  intros Hm. cbv zeta. intros He Hodd. unfold binary_round_aux.
  set (e1 := fexp prec emax (Zdigits2 m + e)) in *.
  assert (0 ≤ m / 2 ^ (e1 - e)) as Hm2
    by (apply Z.div_pos; [done | apply pow2_pos; lia]).
  assert (∃ mrs, shr_fexp prec emax m e loc_Exact = (mrs, e1)
                 ∧ shr_m mrs = m / 2 ^ (e1 - e) ∧ shr_r mrs = false)
    as (mrs' & -> & Hm1 & Hr).
  { unfold shr_fexp, shr. fold e1.
    destruct (e1 - e) as [|p|p] eqn:Hn; try lia.
    eexists. split; [f_equal; lia |].
    rewrite iter_shr_1_m, iter_shr_1_r by done. simpl shr_m.
    split; [reflexivity | exact Hodd]. }
  assert (round_nearest_even (shr_m mrs') (loc_of_shr_record mrs') = m / 2 ^ (e1 - e))
    as ->.
  { destruct mrs' as [m' r' s']. simpl in *. subst r' m'. by destruct s'. }
  destruct (shr_fexp_spec (m / 2 ^ (e1 - e)) e1 loc_Exact Hm2) as (mrs'' & -> & Hm3).
  by rewrite Hm3.
Qed.

Lemma add_absorbs (x y : spec_float) :
  le_pow2 120 x → le_pow2 63 y → le_pow2 120 (F64.add x y).
Proof.
  intros Hx Hy.
  destruct x as [[]| | |sx mx ex], y as [[]| | |sy my ey]; try done;
    try (by eapply le_pow2_mono; [| eassumption]; lia).
  destruct Hx as [Hex Hmx], Hy as [Hey Hmy].
  unfold F64.add, SFadd.
  pose proof (shl_align_spec mx ex (Z.min ex ey)) as Hax.
  pose proof (shl_align_spec my ey (Z.min ex ey)) as Hay.
  destruct (shl_align mx ex _) as [mx' ex'], (shl_align my ey _) as [my' ey'].
  destruct Hax as [Hex' Hmx'], Hay as [Hey' Hmy']. simpl fst.
  set (ez := Z.min ex ey) in *.
  assert (Z.pos mx' ≤ 2 ^ (120 - ez)) as Hbx.
  { rewrite Hmx'. replace (120 - ez) with (120 - ex + (ex - ex')) by lia.
    rewrite Z.pow_add_r by lia.
    apply Z.mul_le_mono_nonneg_r; [apply Z.lt_le_incl, pow2_pos; lia | exact Hmx]. }
  assert (Z.pos my' ≤ 2 ^ (63 - ez)) as Hby.
  { rewrite Hmy'. replace (63 - ez) with (63 - ey + (ey - ey')) by lia.
    rewrite Z.pow_add_r by lia.
    apply Z.mul_le_mono_nonneg_r; [apply Z.lt_le_incl, pow2_pos; lia | exact Hmy]. }
  set (z := (cond_Zopp _ _ + cond_Zopp _ _)%Z).
  assert (Z.abs z ≤ 2 ^ (120 - ez) + 2 ^ (63 - ez)) as Hz
    by (subst z; destruct sx, sy; simpl; lia).
  clearbody z. clear Hmx' Hmy' Hbx Hby Hmx Hmy.
  unfold binary_normalize.
  destruct (Z.lt_ge_cases (Z.abs z) (2 ^ (120 - ez))) as [Hlt|Hge].
  { destruct z as [|p|p]; [done | |]; apply binary_round_le_pow2; lia. }
  assert (∀ s (p : positive), Z.pos p = Z.abs z →
            le_pow2 120 (binary_round prec emax s p ez)) as Hround.
  { intros s p Hp. rewrite <- Hp in *. clear Hp.
    assert (2 ^ (120 - ez) = 2 ^ (63 - ez) * 2 ^ 57) as E57
      by (rewrite <- Z.pow_add_r by lia; f_equal; lia).
    pose proof (pow2_pos (63 - ez) ltac:(lia)) as Hpos.
    assert (Zdigits2 (Z.pos p) = 121 - ez) as Hd.
    { destruct (Zdigits2_bounds (Z.pos p) ltac:(done)) as [Hlo Hhi].
      assert (Zdigits2 (Z.pos p) ≤ 121 - ez).
      { apply Zdigits2_le; [lia |]. split; [lia |].
        replace (121 - ez) with (1 + (120 - ez)) by lia.
        rewrite Z.pow_add_r by lia. change (2 ^ 1) with 2.
        change (2 ^ 57) with 144115188075855872 in E57. lia. }
      destruct (Z.le_gt_cases (121 - ez) (Zdigits2 (Z.pos p))) as [|Hgt]; [lia |].
      assert (2 ^ Zdigits2 (Z.pos p) ≤ 2 ^ (120 - ez))
        by (apply Z.pow_le_mono_r; lia).
      lia. }
    unfold binary_round.
    pose proof (shl_align_spec p ez (fexp prec emax (Z.pos (digits2_pos p) + ez))) as H.
    destruct (shl_align _ _ _) as [mz ez'']. destruct H as [Hez Hmz].
    simpl Zdigits2 in Hd. rewrite Hd in Hez.
    replace (121 - ez + ez) with 121 in Hez by lia.
    change (fexp prec emax 121) with 68 in Hez.
    assert (ez'' = ez) as -> by lia.
    replace (ez - ez) with 0 in Hmz by lia. rewrite Z.pow_0_r, Z.mul_1_r in Hmz.
    injection Hmz as ->.
    assert (fexp prec emax (Zdigits2 (Z.pos p) + ez) = 68) as Hfexp.
    { simpl Zdigits2. rewrite Hd. by replace (121 - ez + ez) with 121 by lia. }
    assert (Z.pos p / 2 ^ (68 - ez - 1) = 2 ^ 53) as Hq1.
    { symmetry. apply Z.div_unique with (Z.pos p - 2 ^ (120 - ez)).
      - left. split; [lia |].
        replace (68 - ez - 1) with (63 - ez + 4) by lia.
        rewrite Z.pow_add_r by lia. change (2 ^ 4) with 16. lia.
      - rewrite <- Z.pow_add_r by lia.
        replace (68 - ez - 1 + 53) with (120 - ez) by lia. lia. }
    assert (Z.pos p / 2 ^ (68 - ez) = 2 ^ 52) as Hq2.
    { symmetry. apply Z.div_unique with (Z.pos p - 2 ^ (120 - ez)).
      - left. split; [lia |].
        replace (68 - ez) with (63 - ez + 5) by lia.
        rewrite Z.pow_add_r by lia. change (2 ^ 5) with 32. lia.
      - rewrite <- Z.pow_add_r by lia.
        replace (68 - ez + 52) with (120 - ez) by lia. lia. }
    rewrite binary_round_aux_truncates; rewrite ?Hfexp, ?Hq1, ?Hq2; try done; lia. }
  destruct z as [|p|p]; [done | |]; apply Hround; lia.
Qed.

End Absorption.

(** ** The bias lookup *)

Lemma _normalize_variant_cases (value : Z) :
  (0 < value ∧ _normalize_variant value = "bullish"%string)
  ∨ (value < 0 ∧ _normalize_variant value = "bearish"%string)
  ∨ (value = 0 ∧ _normalize_variant value = "neutral"%string).
Proof.
  unfold _normalize_variant.
  destruct (Z.ltb_spec 0 value); [auto |].
  destruct (Z.ltb_spec value 0); [auto |].
  right; right; split; [lia | reflexivity].
Qed.

(** C7: the variant is read off the sign of the value; the lookup returns
    the entry of the detector under that variant, else its entry under
    "neutral", else the first entry the detector has, and the entry with
    score 0 and no text for a detector without entries. *)
Theorem _lookup_bias_fallback (g : Globals) (fn : string) (value : Z) :
  let bias_for_fn := default [] (_bias_map g !! fn) in
  let variant := _normalize_variant value in
  (0 < value → variant = "bullish"%string)
  ∧ (value < 0 → variant = "bearish"%string)
  ∧ (value = 0 → variant = "neutral"%string)
  ∧ (∀ e, dict_get bias_for_fn variant = Some e → _lookup_bias g fn value = e)
  ∧ (∀ e, dict_get bias_for_fn variant = None →
          dict_get bias_for_fn "neutral" = Some e →
          _lookup_bias g fn value = e)
  ∧ (∀ k e rest, dict_get bias_for_fn variant = None →
          dict_get bias_for_fn "neutral" = None →
          bias_for_fn = (k, e) :: rest →
          _lookup_bias g fn value = e)
  ∧ (bias_for_fn = [] →
       _lookup_bias g fn value
       = BiasEntry.mk 0 PyNone PyNone PyNone PyNone PyNone PyNone).
Proof.
  intros bias_for_fn variant.
  split; [|split; [|split]].
  - intros H. subst variant.
    destruct (_normalize_variant_cases value) as [[_ E]|[[? _]|[? _]]]; [exact E | lia | lia].
  - intros H. subst variant.
    destruct (_normalize_variant_cases value) as [[? _]|[[_ E]|[? _]]]; [lia | exact E | lia].
  - intros H. subst variant.
    destruct (_normalize_variant_cases value) as [[? _]|[[? _]|[_ E]]]; [lia | lia | exact E].
  - unfold _lookup_bias. fold bias_for_fn. fold variant.
    destruct bias_for_fn as [|[k0 e0] rest0] eqn:Hd.
    + repeat split; try discriminate; reflexivity.
    + repeat split.
      * intros e ->. reflexivity.
      * intros e -> ->. reflexivity.
      * intros k e rest -> -> [= _ -> _]. reflexivity.
      * discriminate.
Qed.

Lemma dict_get_elem {V} (d : list (string * V)) (k : string) (v : V) :
  dict_get d k = Some v → (k, v) ∈ d.
Proof.
  induction d as [|[k' v'] d IH]; simpl; [done |].
  destruct (String.eqb_spec k' k) as [->|_].
  - intros [= ->]. by left.
  - intros H. right. by apply IH.
Qed.

Lemma _lookup_bias_entry (g : Globals) (fn : string) (value : Z) :
  _lookup_bias g fn value = BiasEntry.empty
  ∨ ∃ k, (k, _lookup_bias g fn value) ∈ default [] (_bias_map g !! fn).
Proof.
  unfold _lookup_bias. generalize (default [] (_bias_map g !! fn)).
  intros [|[k0 e0] d']; [by left | right].
  destruct (dict_get _ (_normalize_variant value)) as [e|] eqn:H1.
  - eexists. apply dict_get_elem. exact H1.
  - destruct (dict_get _ "neutral") as [e|] eqn:H2.
    + eexists. apply dict_get_elem. exact H2.
    + exists k0. by left.
Qed.

Lemma _lookup_bias_convertible (g : Globals) (fn : string) (value : Z) :
  scores_convertible g →
  F64.is_finite (F64.of_Z (BiasEntry.score (_lookup_bias g fn value))) = true.
Proof.
  intros Hg. destruct (_lookup_bias_entry g fn value) as [-> | [k Hk]]; [reflexivity |].
  destruct (_bias_map g !! fn) as [d|] eqn:Hd; simpl in Hk; [| by apply elem_of_nil in Hk].
  specialize (Hg fn d Hd). simpl in Hg. rewrite Forall_forall in Hg.
  exact (Hg _ Hk).
Qed.

(** ** The category of a score *)

(** C4: [categorize_score] is total and cuts the integers into five
    ranges with inclusive bounds, one category each: at least 3, 1 to 2,
    0, -2 to -1, at most -3. The five names differ, so no score has two
    categories and none is left out; a missing score has no category and
    the dash as its label. *)
Theorem categorize_score_partition (score : Z) :
  let category := (categorize_score (Some score)).1 in
  (category = Some "Strong＋"%string ↔ 3 ≤ score)
  ∧ (category = Some "Mild＋"%string ↔ 1 ≤ score ≤ 2)
  ∧ (category = Some "Neutral"%string ↔ score = 0)
  ∧ (category = Some "Mild−"%string ↔ -2 ≤ score ≤ -1)
  ∧ (category = Some "Strong−"%string ↔ score ≤ -3)
  ∧ (3 ≤ score ∨ 1 ≤ score ≤ 2 ∨ score = 0 ∨ -2 ≤ score ≤ -1 ∨ score ≤ -3)
  ∧ categorize_score None = (None, "—"%string).
Proof.
  unfold categorize_score.
  destruct (Z.leb_spec 3 score); [|destruct (Z.leb_spec 1 score);
    [|destruct (Z.leb_spec score (-3)); [|destruct (Z.leb_spec score (-1))]]];
    simpl; repeat split; intros; try discriminate; try lia; try reflexivity.
Qed.

(** C5 (as specified): the labels of the code are not those of the
    specification, already for the score 2. *)
Lemma scenario_b_labels_differ : ¬ scenario_b_as_specified.
Proof. intros (_ & H2 & _). vm_compute in H2. discriminate H2. Qed.

(** C5 (amended): the five scores of scenario B get the names and labels
    of the code, written with the full-width plus and the minus sign, as
    the scoring test asserts them. *)
Theorem categorize_score_scenario_b :
  categorize_score (Some 4) = (Some "Strong＋", "↑↑ Strong＋ (+4)")%string
  ∧ categorize_score (Some 2) = (Some "Mild＋", "↑ Mild＋ (+2)")%string
  ∧ categorize_score (Some 0) = (Some "Neutral", "Neutral (0)")%string
  ∧ categorize_score (Some (-1)) = (Some "Mild−", "↓ Mild− (-1)")%string
  ∧ categorize_score (Some (-5)) = (Some "Strong−", "↓↓ Strong− (-5)")%string
  ∧ categorize_score None = (None, "—"%string).
Proof. repeat split. Qed.

(** ** The total score *)



Lemma round_returns (x : spec_float) :
  returns (Py.round x) ↔ F64.is_finite x = true.
Proof.
  destruct x; simpl; split; intros H; try discriminate; try reflexivity;
    solve [eexists; reflexivity | by destruct H].
Qed.

Lemma score_step_term (g : Globals) (score : spec_float) (h : hit) (fn : string) (value : Z) :
  _extract h = Ok (fn, value) →
  score_step g score h = term ← code_term g fn value; Ok (F64.add score term).
Proof.
  intros H. unfold score_step, code_term. rewrite H. simpl.
  destruct (Py.int_div_float _ _); [| reflexivity]. simpl.
  destruct (Py.int_mul_float _ _); reflexivity.
Qed.

(** ** The total score of small hits *)

Section SmallHits.

Context (g : Globals) (Hscores : scores_small g).

Lemma _lookup_bias_small (fn : string) (value : Z) :
  small (BiasEntry.score (_lookup_bias g fn value)).
Proof.
  destruct (_lookup_bias_entry g fn value) as [-> | [k Hk]]; [done |].
  destruct (_bias_map g !! fn) as [d|] eqn:Hd; simpl in Hk; [| by apply elem_of_nil in Hk].
  specialize (Hscores fn d Hd). simpl in Hscores. rewrite Forall_forall in Hscores.
  exact (Hscores _ Hk).
Qed.

Lemma float_of_int_small (z : Z) :
  small z → ∃ x, Py.float_of_int z = Ok x ∧ le_pow2 31 x.
Proof.
  intros Hz. pose proof (of_Z_le_pow2 z 31 Hz ltac:(lia)) as H.
  exists (F64.of_Z z). split; [| exact H].
  by apply float_of_int_finite, (le_pow2_finite 31).
Qed.

Lemma code_term_small (fn : string) (value : Z) :
  small value → ∃ term, code_term g fn value = Ok term ∧ le_pow2 63 term.
Proof.
  intros Hv. unfold code_term, Py.int_div_float, Py.int_mul_float.
  destruct (float_of_int_small (Z.abs value)) as (x & -> & Hx);
    [unfold small in *; lia |]. simpl.
  pose proof (div_hundred_le_pow2 31 x Hx ltac:(lia)) as Hs.
  destruct (float_of_int_small
              (Z.abs (_base_score g fn value) * (if 0 <? value then 1 else -1)))
    as (xb & -> & Hb).
  { pose proof (_lookup_bias_small fn value) as H. unfold small, _base_score in *.
    destruct (0 <? value); lia. }
  simpl. eexists. split; [reflexivity |].
  apply (mul_le_pow2 31 31); done.
Qed.

Lemma score_loop_small (hits : list hit) :
  Forall small_hit hits →
  ∀ score, le_pow2 120 score →
  ∃ x, score_loop g score hits = Ok x ∧ le_pow2 120 x.
Proof.
  induction 1 as [|h hits (fn & value & Hh & Hv) _ IH]; intros score Hscore; simpl.
  - by exists score.
  - rewrite (score_step_term g score h fn value Hh).
    destruct (code_term_small fn value Hv) as (term & -> & Hterm). simpl.
    by apply IH, add_absorbs.
Qed.

End SmallHits.





(** Scenario A: the three hits of the scoring test, one of value 200, are
    small hits on the sample table, and their total is 5. *)
Lemma sample_scores_small : scores_small Sample.globals.
Proof.
  unfold scores_small, Sample.globals, Sample.table. simpl.
  repeat (apply map_Forall_insert_2; [by repeat constructor |]).
  apply map_Forall_empty.
Qed.

Lemma scenario_a_small : Forall small_hit Sample.scenario_a.
Proof. repeat constructor; eexists _, _; (split; [reflexivity | done]). Qed.

Lemma scenario_a_total : total_score_from_hits Sample.globals Sample.scenario_a = Ok 5.
Proof. reflexivity. Qed.




(** ** The total score against its specification *)

Lemma clamp_max_min (lo hi x : Z) :
  lo ≤ hi → Z.max lo (Z.min hi x) = clamp lo hi x.
Proof.
  intros H. unfold clamp.
  destruct (Z.ltb_spec x lo); [lia |]. destruct (Z.ltb_spec hi x); lia.
Qed.

Section Refinement.

Context (g : Globals) (Hscores : scores_convertible g).

Lemma int_mul_float_canonical (z : Z) (y x : spec_float) :
  Py.int_mul_float z y = Ok x → canonical_exp x.
Proof.
  unfold Py.int_mul_float. intros H.
  apply bind_Ok in H as (x' & _ & [= <-]). apply mul_canonical.
Qed.

Lemma code_term_canonical (fn : string) (value : Z) (x : spec_float) :
  code_term g fn value = Ok x → canonical_exp x.
Proof.
  unfold code_term. intros H. apply bind_Ok in H as (s & _ & H).
  by eapply int_mul_float_canonical.
Qed.

(** The two terms differ for the value 0 only, and there by the sign of
    a zero, which a running total that is not the negative zero
    absorbs. *)
Lemma term_agree (score : spec_float) (fn : string) (value : Z) :
  not_neg_zero score →
  (term ← code_term g fn value; Ok (F64.add score term))
  = (term ← reference_term g fn value; Ok (F64.add score term)).
Proof.
  intros Hscore. unfold code_term, reference_term, _base_score, sign.
  destruct (Z.eq_dec value 0) as [->|Hv].
  - set (b := BiasEntry.score (_lookup_bias g fn 0)).
    change (Py.int_div_float (Z.abs 0) F64.hundred)
      with (Ok (S754_zero false) : result spec_float).
    simpl. unfold Py.int_mul_float.
    assert (F64.is_finite (F64.of_Z (Z.abs b * -1)) = true) as Hfin.
    { replace (Z.abs b * -1) with (- Z.abs b) by lia.
      rewrite of_Z_finite_opp, of_Z_finite_abs.
      by apply _lookup_bias_convertible. }
    rewrite (float_of_int_finite _ Hfin). simpl.
    replace (Z.abs b * 0) with 0 by lia.
    change (Py.float_of_int 0) with (Ok (S754_zero false) : result spec_float).
    simpl. f_equal.
    destruct (F64.of_Z (Z.abs b * -1)) as [s| | |s m e]; try discriminate;
      apply add_zero_r; exact Hscore.
  - replace (if 0 <? value then 1 else -1) with (Z.sgn value); [reflexivity |].
    destruct (Z.ltb_spec 0 value); lia.
Qed.

Lemma score_loop_reference (hits : list hit) (pairs : list (string * Z)) :
  Forall2 (λ h p, _extract h = Ok p) hits pairs →
  ∀ score, not_neg_zero score → canonical_exp score →
  score_loop g score hits = reference_sum g score pairs.
Proof.
  induction 1 as [|h [fn value] hits pairs Hh _ IH]; intros score Hnz Hc; simpl.
  - reflexivity.
  - rewrite (score_step_term g _ _ _ _ Hh).
    pose proof (term_agree score fn value Hnz) as Hterm.
    destruct (code_term g fn value) as [t|e] eqn:Hcode;
      destruct (reference_term g fn value) as [t'|e'] eqn:Href;
      simpl in *; try discriminate.
    + injection Hterm as Hterm. rewrite <- Hterm.
      apply code_term_canonical in Hcode.
      destruct (add_good score t Hnz Hc Hcode) as [H1 H2].
      by apply IH.
    + exact Hterm.
Qed.

(** C2: on a table whose scores convert to floats and with a clip range
    that is not empty, [total_score_from_hits] is the total score of the
    specification on the detector and value of every hit: the magnitude
    of the bias score with the sign of the value, times the value's
    magnitude over 100, summed in a running float total, rounded to the
    nearest integer with ties to even, clamped to the clip range. *)
Theorem total_score_refines_reference (hits : list hit) (pairs : list (string * Z)) :
  CLIP_MIN g ≤ CLIP_MAX g →
  Forall2 (λ h p, _extract h = Ok p) hits pairs →
  total_score_from_hits g hits = reference_total_score g pairs.
Proof.
  intros Hclip H. unfold total_score_from_hits, reference_total_score.
  rewrite (score_loop_reference hits pairs H F64.zero) by done.
  destruct (reference_sum g F64.zero pairs) as [total|e]; [| reflexivity]. simpl.
  destruct (Py.round total) as [r|e]; [| reflexivity]. simpl.
  by rewrite clamp_max_min.
Qed.

End Refinement.

Lemma sample_scores_convertible : scores_convertible Sample.globals.
Proof.
  unfold scores_convertible, Sample.globals, Sample.table. simpl.
  repeat (apply map_Forall_insert_2; [by repeat constructor |]).
  apply map_Forall_empty.
Qed.

Lemma total_score_refines_reference_witness :
  scores_convertible Sample.globals
  ∧ CLIP_MIN Sample.globals ≤ CLIP_MAX Sample.globals
  ∧ Forall2 (λ h p, _extract h = Ok p) Sample.scenario_a Sample.scenario_a_pairs
  ∧ total_score_from_hits Sample.globals Sample.scenario_a
    = reference_total_score Sample.globals Sample.scenario_a_pairs.
Proof.
  assert (Forall2 (λ h p, _extract h = Ok p)
            Sample.scenario_a Sample.scenario_a_pairs) as H
    by (repeat constructor).
  split; [exact sample_scores_convertible |].
  split; [simpl; lia |].
  split; [exact H |].
  apply (total_score_refines_reference Sample.globals sample_scores_convertible
           Sample.scenario_a Sample.scenario_a_pairs); [simpl; lia | exact H].
Defined.

(** ** Enrichment *)

Lemma enrich_hits_Forall2 (g : Globals) (at_ : option pydate)
    (hits : list RawHit) (enriched : list PatternHit.t) :
  enrich_hits g hits at_ = Ok enriched ↔
  Forall2 (λ raw p, enrich_hit g at_ raw = Ok p) hits enriched.
Proof.
  revert enriched. induction hits as [|raw hits IH]; intros enriched; simpl.
  - split.
    + intros [= <-]. constructor.
    + intros H. by inversion H.
  - split.
    + intros H. apply bind_Ok in H as (p & Hp & H).
      apply bind_Ok in H as (rest & Hrest & [= <-]).
      constructor; [exact Hp | by apply IH].
    + intros H. inversion H as [|? p ? rest Hp Hrest]; subst.
      apply IH in Hrest. rewrite Hp. simpl. rewrite Hrest. reflexivity.
Qed.

Lemma int_truediv_sign (a b : Z) (x : spec_float) :
  0 < a → 0 < b → Py.int_truediv a b = Ok x → sign_or_nan false x.
Proof.
  intros Ha Hb. unfold Py.int_truediv.
  destruct b as [|pb|pb]; [lia | | lia]. destruct a as [|pa|pa]; [lia | | lia].
  pose proof (div_finite_sign false false pa pb 0 0) as H. simpl in *.
  destruct (F64.div _ _); intros [= <-]; exact H.
Qed.

Lemma float_of_int_sign (z : Z) (x : spec_float) :
  Py.float_of_int z = Ok x →
  (z = 0 ∧ F64.is_zero x = true) ∨ (z ≠ 0 ∧ sign_or_nan (z <? 0) x).
Proof.
  unfold Py.float_of_int. destruct (decide (z = 0)) as [->|Hz].
  - intros [= <-]. left. done.
  - pose proof (of_Z_sign z Hz) as H.
    destruct (F64.of_Z z); intros [= <-]; right; done.
Qed.

Lemma enrich_hit_weighted (g : Globals) (at_ : option pydate) (raw : RawHit)
    (p : PatternHit.t) :
  enrich_hit g at_ raw = Ok p →
  let b := BiasEntry.score (_lookup_bias g (PatternHit.fn p) (PatternHit.value p)) in
  _extract (HitMap raw) = Ok (PatternHit.fn p, PatternHit.value p)
  ∧ PatternHit.base_score p = Some b
  ∧ (PatternHit.value p = 0 → PatternHit.weighted_score p = None)
  ∧ (b ≤ 0 → weighted_positive p = false)
  ∧ (0 ≤ b → weighted_negative p = false).
Proof.
  unfold enrich_hit. intros H.
  apply bind_Ok in H as ([fn value] & Hex & H).
  apply bind_Ok in H as (strength & Hs & H).
  apply bind_Ok in H as (weighted & Hw & [= <-]). simpl.
  split; [exact Hex |]. split; [reflexivity |].
  unfold weighted_positive, weighted_negative. simpl.
  destruct (Z.eqb_spec value 0) as [->|Hv].
  - injection Hs as <-. injection Hw as <-. done.
  - apply bind_Ok in Hs as (s & Hs & [= <-]).
    apply bind_Ok in Hw as (x & Hx & [= <-]).
    apply int_truediv_sign in Hs; [| lia | lia].
    unfold Py.int_mul_float in Hx.
    apply bind_Ok in Hx as (xb & Hb & [= <-]).
    split; [lia |].
    apply float_of_int_sign in Hb as [[Hb Hz]|[Hb Hsign]].
    + split; intros _; [apply not_positive | apply not_negative];
        right; by apply round2_zero, mul_zero_l.
    + pose proof (mul_sign _ _ _ _ Hsign Hs) as Hm.
      rewrite xorb_false_r in Hm. apply round2_sign in Hm.
      split; intros Hle.
      * apply not_positive. left.
        by replace (BiasEntry.score (_lookup_bias g fn value) <? 0) with true in Hm
          by (symmetry; apply Z.ltb_lt; lia).
      * apply not_negative. left.
        by replace (BiasEntry.score (_lookup_bias g fn value) <? 0) with false in Hm
          by (symmetry; apply Z.ltb_ge; lia).
Qed.

(** C3 (as specified): the hammer has a bullish entry only, which the
    lookup falls back to for a bearish hit; its positive score then gives
    the negative value a positive weighted score. *)
Lemma sign_corrected_fails :
  ¬ sign_corrected Sample.globals [Sample.raw "CDLHAMMER" (PyInt (-100))].
Proof.
  intros H.
  destruct (H _ _ eq_refl (list_elem_of_here _ _)) as [Hneg _].
  specialize (Hneg eq_refl). vm_compute in Hneg. discriminate Hneg.
Qed.

(** C3 (amended): the weighted score of an enriched hit has the sign of
    the score stored in the entry the lookup found, not that of the value:
    it is never positive when that score is at most 0 and never negative
    when it is at least 0, so a weighted score can oppose the value only
    when the stored score does; a hit of value 0 has no weighted score. *)
Theorem weighted_score_follows_bias_sign (g : Globals) (hits : list RawHit)
    (at_ : option pydate) (enriched : list PatternHit.t) (p : PatternHit.t) :
  enrich_hits g hits at_ = Ok enriched → p ∈ enriched →
  let b := BiasEntry.score (_lookup_bias g (PatternHit.fn p) (PatternHit.value p)) in
  PatternHit.base_score p = Some b
  ∧ (PatternHit.value p = 0 → PatternHit.weighted_score p = None)
  ∧ (b ≤ 0 → weighted_positive p = false)
  ∧ (0 ≤ b → weighted_negative p = false).
Proof.
  intros H Hp. apply enrich_hits_Forall2 in H.
  apply list_elem_of_lookup in Hp as [i Hi].
  destruct (Forall2_lookup_r _ _ _ _ _ H Hi) as (raw & _ & Hraw).
  apply enrich_hit_weighted in Hraw. cbv zeta in Hraw |- *. tauto.
Qed.

Lemma weighted_score_follows_bias_sign_witness :
  enrich_hits Sample.globals [Sample.hammer_down] None
  = Ok [Sample.hammer_down_enriched]
  ∧ Sample.hammer_down_enriched ∈ [Sample.hammer_down_enriched]
  ∧ (let b := BiasEntry.score
                (_lookup_bias Sample.globals
                   (PatternHit.fn Sample.hammer_down_enriched)
                   (PatternHit.value Sample.hammer_down_enriched)) in
     PatternHit.base_score Sample.hammer_down_enriched = Some b
     ∧ (PatternHit.value Sample.hammer_down_enriched = 0 →
        PatternHit.weighted_score Sample.hammer_down_enriched = None)
     ∧ (b ≤ 0 → weighted_positive Sample.hammer_down_enriched = false)
     ∧ (0 ≤ b → weighted_negative Sample.hammer_down_enriched = false)).
Proof.
  assert (enrich_hits Sample.globals [Sample.hammer_down] None
          = Ok [Sample.hammer_down_enriched]) as H by reflexivity.
  assert (Sample.hammer_down_enriched ∈ [Sample.hammer_down_enriched]) as Hin
    by apply list_elem_of_here.
  split; [exact H |]. split; [exact Hin |].
  exact (weighted_score_follows_bias_sign Sample.globals [Sample.hammer_down]
           None [Sample.hammer_down_enriched] Sample.hammer_down_enriched H Hin).
Defined.

(** ** Enrichment and the total score *)

Section Enrichment.

Context (g : Globals).

Lemma score_step_ext (score : spec_float) (h1 h2 : hit) :
  _extract h1 = _extract h2 → score_step g score h1 = score_step g score h2.
Proof. intros H. unfold score_step. by rewrite H. Qed.

Lemma score_loop_ext (hits1 hits2 : list hit) :
  Forall2 (λ h1 h2, _extract h1 = _extract h2) hits1 hits2 →
  ∀ score, score_loop g score hits1 = score_loop g score hits2.
Proof.
  induction 1 as [|h1 h2 hits1 hits2 Hh _ IH]; intros score; simpl.
  - reflexivity.
  - rewrite (score_step_ext score h1 h2 Hh).
    destruct (score_step g score h2); simpl; [apply IH | reflexivity].
Qed.

Lemma int_mul_float_raises (z : Z) (y : spec_float) :
  raises (Py.int_mul_float z y) ↔ raises (Py.float_of_int z).
Proof.
  unfold Py.int_mul_float. destruct (Py.float_of_int z) as [x|e]; simpl.
  - split; intros [e [=]].
  - split; intros _; by exists e.
Qed.

(** Whatever makes the enrichment of a hit raise makes its scoring
    raise. *)
Lemma enrich_hit_raises (at_ : option pydate) (raw : RawHit) (score : spec_float) :
  raises (enrich_hit g at_ raw) → raises (score_step g score (HitMap raw)).
Proof.
  unfold enrich_hit, score_step.
  destruct (_extract (HitMap raw)) as [[fn value]|e]; simpl; [| by exists e].
  intros H.
  assert (raises (Py.float_of_int (Z.abs value))
          ∨ raises (Py.float_of_int (BiasEntry.score (_lookup_bias g fn value))))
    as [Hv|Hb].
  { destruct (value =? 0) eqn:Hv; simpl in H.
    - destruct H as [e [=]].
    - apply Z.eqb_neq in Hv.
      destruct (Py.int_truediv (Z.abs value) 100) as [s|e] eqn:Hs; simpl in H.
      + right. destruct (Py.int_mul_float _ s) as [x|e] eqn:Hx; simpl in H.
        * destruct H as [e [=]].
        * apply (int_mul_float_raises _ s). rewrite Hx. by exists e.
      + left. apply int_truediv_overflow; [lia |]. rewrite Hs. by exists e. }
  - apply bind_raises. unfold Py.int_div_float. by apply bind_raises.
  - destruct (Py.int_div_float _ _) as [s|e]; simpl; [| by exists e].
    apply bind_raises, int_mul_float_raises, float_of_int_raises.
    apply float_of_int_raises in Hb. unfold _base_score.
    destruct (0 <? value).
    + by rewrite Z.mul_1_r, of_Z_finite_abs.
    + replace (Z.abs (BiasEntry.score (_lookup_bias g fn value)) * -1)
        with (- Z.abs (BiasEntry.score (_lookup_bias g fn value))) by lia.
      by rewrite of_Z_finite_opp, of_Z_finite_abs.
Qed.

Lemma enrich_hits_raises (at_ : option pydate) (hits : list RawHit) :
  raises (enrich_hits g hits at_) →
  ∀ score, raises (score_loop g score (HitMap <$> hits)).
Proof.
  induction hits as [|raw hits IH]; simpl; intros H score.
  - destruct H as [e [=]].
  - destruct (enrich_hit g at_ raw) as [p|e] eqn:Hp; simpl in H.
    + destruct (score_step g score (HitMap raw)) as [score'|e]; simpl; [| by exists e].
      apply IH. destruct (enrich_hits g hits at_) as [l|e]; [| by exists e].
      destruct H as [e [=]].
    + apply bind_raises, (enrich_hit_raises at_). rewrite Hp. by exists e.
Qed.

(** The enrichment of small hits returns. *)
Lemma enrich_hit_small (Hscores : scores_small g) (at_ : option pydate) (raw : RawHit) :
  small_hit (HitMap raw) → returns (enrich_hit g at_ raw).
Proof.
  intros (fn & value & Hex & Hv).
  destruct (returns_or_raises (enrich_hit g at_ raw)) as [H|H]; [exact H |].
  apply (enrich_hit_raises at_ raw F64.zero) in H.
  rewrite (score_step_term g _ _ _ _ Hex) in H.
  destruct (code_term_small g Hscores fn value Hv) as (term & Hterm & _).
  rewrite Hterm in H. by destruct H.
Qed.

Lemma enrich_hits_small (Hscores : scores_small g) (at_ : option pydate)
    (hits : list RawHit) :
  Forall (λ raw, small_hit (HitMap raw)) hits → returns (enrich_hits g hits at_).
Proof.
  induction 1 as [|raw hits Hraw _ [enriched IH]]; simpl.
  - by eexists.
  - destruct (enrich_hit_small Hscores at_ raw Hraw) as [p ->].
    rewrite IH. by eexists.
Qed.

(** C10: enrichment keeps the detector and the value of every hit, which
    is all the total score reads: when [enrich_hits] returns, the total
    of the enriched hits is the total of the raw hits, as a value or as
    the exception raised; when it raises, the total of the raw hits
    raises as well. *)
Theorem enrichment_keeps_total (hits : list RawHit) (at_ : option pydate) :
  match enrich_hits g hits at_ with
  | Ok enriched =>
      Forall2 (λ raw p, _extract (HitMap raw)
                        = Ok (PatternHit.fn p, PatternHit.value p)) hits enriched
      ∧ total_score_from_hits g (HitObj <$> enriched)
        = total_score_from_hits g (HitMap <$> hits)
  | Raise _ => raises (total_score_from_hits g (HitMap <$> hits))
  end.
Proof.
  destruct (enrich_hits g hits at_) as [enriched|e] eqn:H.
  - apply enrich_hits_Forall2 in H.
    assert (Forall2 (λ raw p, _extract (HitMap raw)
                        = Ok (PatternHit.fn p, PatternHit.value p)) hits enriched) as Hex.
    { eapply Forall2_impl; [exact H |]. intros raw p Hp.
      by apply enrich_hit_weighted in Hp as [Hp _]. }
    split; [exact Hex |].
    unfold total_score_from_hits. f_equal.
    apply score_loop_ext, Forall2_fmap, Forall2_flip.
    eapply Forall2_impl; [exact Hex |]. intros raw p ->. reflexivity.
  - unfold total_score_from_hits. apply bind_raises, (enrich_hits_raises at_).
    rewrite H. by exists e.
Qed.

End Enrichment.


(** ** Dictionaries and indexing *)

Lemma dict_get_set {V} (d : list (string * V)) (k k' : string) (v : V) :
  dict_get (dict_set d k v) k' = if String.eqb k k' then Some v else dict_get d k'.
Proof.
  induction d as [|[k0 v0] d IH]; simpl.
  - reflexivity.
  - destruct (String.eqb_spec k0 k) as [->|Hk]; simpl.
    + destruct (String.eqb k k'); reflexivity.
    + rewrite IH. destruct (String.eqb_spec k0 k') as [->|Hk'].
      * by rewrite (proj2 (String.eqb_neq _ _)) by auto.
      * reflexivity.
Qed.

Lemma dict_get_columns (key : string) (columns : list string)
    (d : list (string * string)) :
  dict_get (foldl (λ d c, dict_set d (Py.lower c) c) d columns) key = None ↔
  dict_get d key = None ∧ ∀ c, c ∈ columns → Py.lower c ≠ key.
Proof.
  revert d. induction columns as [|c columns IH]; intros d; simpl.
  - split; [intros H; split; [exact H | intros c Hc; by apply elem_of_nil in Hc] | tauto].
  - rewrite IH, dict_get_set. split.
    + intros [H1 H2]. destruct (String.eqb_spec (Py.lower c) key) as [E|E]; [done |].
      split; [exact H1 |]. intros c' [->|Hc']%elem_of_cons; auto.
    + intros [H1 H2].
      assert (Py.lower c ≠ key) as E by (apply H2; left).
      rewrite (proj2 (String.eqb_neq _ _)) by exact E.
      split; [exact H1 |]. intros c' Hc'. apply H2. by right.
Qed.

Lemma py_getitem_in_range {A} (l : list A) (i : Z) :
  0 ≤ i < Z.of_nat (length l) →
  ∃ x, py_getitem l i = Ok x ∧ l !! Z.to_nat i = Some x.
Proof.
  intros Hi. unfold py_getitem.
  rewrite (proj2 (Z.ltb_ge _ _)) by lia.
  rewrite (proj2 (Z.leb_le _ _)), (proj2 (Z.ltb_lt _ _)) by lia. simpl.
  destruct (lookup_lt_is_Some_2 l (Z.to_nat i)) as [x Hx]; [lia |].
  rewrite Hx. eauto.
Qed.




(** ** The history *)

Lemma hits_at_nonzero (series_map : list (string * list pyobj)) (idx : Z) :
  Forall (nonzero_output series_map idx) (hits_at series_map idx).
Proof.
  induction series_map as [|[fn series] rest IH]; simpl.
  - constructor.
  - assert (Forall (nonzero_output ((fn, series) :: rest) idx) (hits_at rest idx)) as IH'.
    { eapply Forall_impl; [exact IH |].
      intros h (fn' & series' & v & Hin & Hv & Hnz & ->).
      exists fn', series', v. split; [by right | done]. }
    destruct (py_getitem series idx ≫= Py.int) as [value|e] eqn:Hv; [| exact IH'].
    destruct (Z.eqb_spec value 0) as [->|Hnz]; [exact IH' |].
    constructor; [| exact IH'].
    exists fn, series, value. split; [by left | done].
Qed.



Section History.

Context {cell index : Type} (pd : pandas (cell:=cell) (index:=index)).
Context (ta : option (talib (cell:=cell))).

(** A column that the dictionary of the columns gives for a key is a
    column of the frame of that name. *)
Lemma cols_lookup_elem (columns : list string) (d : list (string * string))
    (key c : string) :
  dict_get (foldl (λ d c, dict_set d (Py.lower c) c) d columns) key = Some c →
  dict_get d key = Some c ∨ (c ∈ columns ∧ Py.lower c = key).
Proof.
  revert d. induction columns as [|c0 columns IH]; intros d; simpl; [by left |].
  intros H. apply IH in H as [H|[H1 H2]].
  - rewrite dict_get_set in H.
    destruct (String.eqb_spec (Py.lower c0) key) as [E|E]; [| by left].
    injection H as <-. right. split; [apply list_elem_of_here | done].
  - right. split; [by apply list_elem_of_further | done].
Qed.

Lemma _compute_pattern_series_missing (df : DataFrame) (patterns : option (list string))
    (key : string) :
  key ∈ ["open"; "high"; "low"; "close"]%string →
  (∀ c, c ∈ df_columns df → Py.lower c ≠ key) →
  _compute_pattern_series pd ta df patterns = Ok ([], []).
Proof.
  intros Hkey Hmiss. unfold _compute_pattern_series.
  assert (dict_get (foldl (λ d c, dict_set d (Py.lower c) c) [] (df_columns df)) key
          = None) as Hnone by (by apply dict_get_columns).
  repeat (apply elem_of_cons in Hkey as [-> | Hkey];
          [rewrite Hnone; by repeat case_match |]).
  by apply elem_of_nil in Hkey.
Qed.

(** When the dates of the frame convert, the series are computed. *)
Lemma _compute_pattern_series_returns (df : DataFrame) (patterns : option (list string)) :
  dates_convert pd df → returns (_compute_pattern_series pd ta df patterns).
Proof.
  intros [Hcols Hindex]. unfold _compute_pattern_series.
  destruct (dict_get _ "open") as [open_col|]; [| by eexists].
  destruct (dict_get _ "high") as [high_col|]; [| by eexists].
  destruct (dict_get _ "low") as [low_col|]; [| by eexists].
  destruct (dict_get _ "close") as [close_col|]; [| by eexists].
  assert (∀ key c, key = "date"%string ∨ key = "datetime"%string →
            dict_get (foldl (λ d c, dict_set d (Py.lower c) c) [] (df_columns df)) key
            = Some c →
            returns (to_datetime pd (df_getitem df c))) as Hconv.
  { intros key c Hkey Hc. apply cols_lookup_elem in Hc as [Hc|[Hc Hlow]]; [done |].
    apply Hcols; [done |]. rewrite Hlow. exact Hkey. }
  assert (returns (convert ← index_to_datetime pd (row_index <$> df_rows df);
                   Ok ((λ i, to_pydatetime (convert i)) <$> (row_index <$> df_rows df))))
    as [ds Hds] by (destruct Hindex as [f ->]; by eexists).
  destruct (dict_get _ "date") as [date_col|] eqn:Hd.
  - destruct date_col as [|a col]; [rewrite Hds; by eexists |].
    destruct (Hconv "date"%string _ (or_introl eq_refl) Hd) as [f ->]. by eexists.
  - destruct (dict_get _ "datetime") as [date_col|] eqn:Hdt;
      [| rewrite Hds; by eexists].
    destruct date_col as [|a col]; [rewrite Hds; by eexists |].
    destruct (Hconv "datetime"%string _ (or_intror eq_refl) Hdt) as [f ->]. by eexists.
Qed.

(** The dates are as many as the rows, unless no series is computed. *)
Lemma _compute_pattern_series_shape (df : DataFrame) (patterns : option (list string))
    (series_map : list (string * list pyobj)) (dates : list Timestamp) :
  _compute_pattern_series pd ta df patterns = Ok (series_map, dates) →
  (series_map = [] ∧ dates = []) ∨ length dates = length (df_rows df).
Proof.
  unfold _compute_pattern_series, df_getitem.
  destruct (dict_get _ "open") as [open_col|]; [| intros [= <- <-]; by left].
  destruct (dict_get _ "high") as [high_col|]; [| intros [= <- <-]; by left].
  destruct (dict_get _ "low") as [low_col|]; [| intros [= <- <-]; by left].
  destruct (dict_get _ "close") as [close_col|]; [| intros [= <- <-]; by left].
  intros H. apply bind_Ok in H as (ds & Hds & [= _ <-]). right.
  repeat case_match; apply bind_Ok in Hds as (f & _ & [= <-]);
    by rewrite !length_fmap.
Qed.

Lemma _compute_pattern_series_dates (df : DataFrame) (patterns : option (list string)) :
  (length (dates_of pd ta df patterns) ≤ length (df_rows df))%nat.
Proof.
  unfold dates_of.
  destruct (_compute_pattern_series pd ta df patterns) as [[sm ds]|e] eqn:H;
    [| simpl; lia].
  apply _compute_pattern_series_shape in H as [[_ ->] | ->]; simpl; lia.
Qed.

(** Without a pattern function no series is computed. *)
Lemma _compute_pattern_series_no_functions (df : DataFrame)
    (patterns : option (list string)) :
  available_pattern_functions ta = [] → series_of pd ta df patterns = [].
Proof.
  intros H. unfold series_of, _compute_pattern_series. rewrite H.
  destruct (dict_get _ "open") as [open_col|]; [| done].
  destruct (dict_get _ "high") as [high_col|]; [| done].
  destruct (dict_get _ "low") as [low_col|]; [| done].
  destruct (dict_get _ "close") as [close_col|]; [| done].
  assert (match patterns with
          | Some ps => filter (λ fn, Py.upper fn ∈ Py.upper <$> ps) []
          | None => []
          end = ([] : list string)) as -> by (by destruct patterns).
  simpl.
  match goal with
  | |- match ?r with _ => _ end = _ => destruct r as [[sm ds]|e] eqn:E; [| done]
  end.
  apply bind_Ok in E as (ds' & _ & E). by injection E as <- _.
Qed.

(** C9: without the backend, on a frame without rows, or on a frame in
    which one of the columns open, high, low and close is missing under
    every spelling of its letters' case, [detect_with_history] raises
    nothing and returns the pair of two empty lists; so it does when
    the backend lists no pattern function and the dates of the frame
    convert. *)
Theorem detect_with_history_degenerate (df : DataFrame) (lookback : Z)
    (patterns : option (list string)) :
  ta = None
  ∨ df_rows df = []
  ∨ (∃ key, key ∈ ["open"; "high"; "low"; "close"]%string
            ∧ ∀ c, c ∈ df_columns df → Py.lower c ≠ key)
  ∨ (available_pattern_functions ta = [] ∧ dates_convert pd df) →
  detect_with_history pd ta df lookback patterns = Ok ([], []).
Proof.
  intros H. unfold detect_with_history.
  destruct ta as [m|] eqn:Hta; [| reflexivity].
  destruct (df_empty df) eqn:Hempty; [reflexivity |].
  destruct H as [H | [H | [(key & Hkey & Hmiss) | [H Hdates]]]].
  - discriminate H.
  - unfold df_empty in Hempty. rewrite H in Hempty. by destruct (df_columns df).
  - rewrite <- Hta.
    by rewrite (_compute_pattern_series_missing df patterns key Hkey Hmiss).
  - rewrite <- Hta in *.
    pose proof (_compute_pattern_series_no_functions df patterns H) as Hnone.
    destruct (_compute_pattern_series_returns df patterns Hdates) as [[sm ds] Hr].
    unfold series_of in Hnone. rewrite Hr in Hnone |- *. simpl. by subst sm.
Qed.


End History.


Lemma detect_with_history_degenerate_witness :
  (Some Sample.backend = None
   ∨ df_rows Sample.frame_without_close = []
   ∨ (∃ key, key ∈ ["open"; "high"; "low"; "close"]%string
             ∧ ∀ c, c ∈ df_columns Sample.frame_without_close → Py.lower c ≠ key)
   ∨ (available_pattern_functions (Some Sample.backend) = []
      ∧ dates_convert Sample.pd Sample.frame_without_close))
  ∧ detect_with_history Sample.pd (Some Sample.backend) Sample.frame_without_close 20 None
    = Ok ([], []).
Proof.
  assert (∃ key, key ∈ ["open"; "high"; "low"; "close"]%string
             ∧ ∀ c, c ∈ df_columns Sample.frame_without_close → Py.lower c ≠ key)
    as H.
  { exists "close"%string. split; [by repeat constructor |].
    intros c Hc. simpl in Hc.
    repeat (apply elem_of_cons in Hc as [-> | Hc]; [discriminate |]).
    by apply elem_of_nil in Hc. }
  split; [right; right; left; exact H |].
  apply (detect_with_history_degenerate Sample.pd (Some Sample.backend)
           Sample.frame_without_close 20 None).
  right; right; left; exact H.
Defined.

(** * Further properties *)

(** ** The history, day by day *)

Section HistoryDays.

Context {cell index : Type} (pd : pandas (cell:=cell) (index:=index)).
Context (ta : option (talib (cell:=cell))).

Lemma history_loop_omap (series_map : list (string * list pyobj))
    (dates : list Timestamp) (idxs : list Z) :
  Forall (λ i, 0 ≤ i < Z.of_nat (length dates)) idxs →
  history_loop series_map dates idxs = Ok (omap (entry_at series_map dates) idxs).
Proof.
  induction 1 as [|idx idxs Hidx _ IH]; simpl; [reflexivity |].
  unfold entry_at at 1.
  destruct (hits_at series_map idx) as [|h day_hits]; [exact IH |].
  destruct (py_getitem_in_range dates idx Hidx) as (d & -> & ->).
  simpl. rewrite IH. reflexivity.
Qed.

Lemma window_range (n lookback idx : Z) :
  idx ∈ window n lookback ↔ Z.max 0 (n - lookback) ≤ idx < n.
Proof. unfold window. rewrite elem_of_seqZ. lia. Qed.

Lemma df_empty_false (df : DataFrame (cell:=cell) (index:=index)) :
  df_empty df = false → df_rows df ≠ [].
Proof. unfold df_empty. by destruct (df_columns df), (df_rows df). Qed.

(** On a frame without columns or without rows there are no series or
    no dates. *)
Lemma df_empty_true (df : DataFrame) (patterns : option (list string)) :
  df_empty df = true →
  series_of pd ta df patterns = [] ∨ dates_of pd ta df patterns = [].
Proof.
  unfold df_empty.
  destruct (df_columns df) as [|c cs] eqn:Hc.
  - intros _. left. unfold series_of, _compute_pattern_series. by rewrite Hc.
  - destruct (df_rows df) as [|r rs] eqn:Hr; [| done].
    intros _. right.
    pose proof (_compute_pattern_series_dates pd ta df patterns) as Hlen.
    rewrite Hr in Hlen.
    destruct (dates_of pd ta df patterns); [done | simpl in Hlen; lia].
Qed.

(** The three ways of a run, whatever the lookback: it is cut short with
    two empty lists; the computation of the series raises, and so does
    the run; or it reads the hits of the last day and the entries of the
    days of the window. *)
Lemma detect_with_history_run (df : DataFrame) (patterns : option (list string)) :
  let series_map := series_of pd ta df patterns in
  let dates := dates_of pd ta df patterns in
  let n := Z.of_nat (length dates) in
  ((series_map = [] ∨ dates = [])
   ∧ ∀ lookback, detect_with_history pd ta df lookback patterns = Ok ([], []))
  ∨ (∃ e, _compute_pattern_series pd ta df patterns = Raise e
          ∧ ∀ lookback, detect_with_history pd ta df lookback patterns = Raise e)
  ∨ (df_empty df = false ∧ series_map ≠ [] ∧ dates ≠ []
     ∧ ∀ lookback,
         detect_with_history pd ta df lookback patterns
         = Ok (hits_at series_map (n - 1),
               omap (entry_at series_map dates) (window n lookback))).
Proof.
  cbv zeta.
  assert (ta = None → series_of pd ta df patterns = []) as Hnone.
  { intros Hta. apply _compute_pattern_series_no_functions.
    unfold available_pattern_functions. by rewrite Hta. }
  pose proof (df_empty_true df patterns) as Hempty.
  pose proof (_compute_pattern_series_shape pd ta df patterns) as Hshape.
  unfold detect_with_history, series_of, dates_of in *.
  destruct ta as [m|]; [| left; split; [left; by apply Hnone | done]].
  destruct (df_empty df) eqn:He; [left; split; [by apply Hempty | done] |].
  destruct (_compute_pattern_series pd (Some m) df patterns) as [[sm ds]|e];
    [| right; left; by exists e].
  destruct sm as [|s0 sm]; [left; split; [by left | done] |].
  right. right. split; [reflexivity |]. split; [done |].
  assert (ds ≠ []) as Hds.
  { intros ->. destruct (Hshape _ _ eq_refl) as [[? _]|Hlen]; [done |].
    apply df_empty_false in He. by destruct (df_rows df). }
  split; [done |]. intros lookback. simpl.
  rewrite history_loop_omap by (apply Forall_seqZ; lia).
  simpl. unfold window. do 4 f_equal; lia.
Qed.

Lemma entry_at_hits (series_map : list (string * list pyobj))
    (dates : list Timestamp) (idx : Z) (e : HistoryEntry) :
  entry_at series_map dates idx = Some e → entry_hits e = hits_at series_map idx.
Proof.
  unfold entry_at. destruct (hits_at series_map idx) as [|h hs]; [done |].
  destruct (dates !! Z.to_nat idx); [| done]. by intros [= <-].
Qed.

Lemma entry_at_Some (series_map : list (string * list pyobj))
    (dates : list Timestamp) (idx : Z) (e : HistoryEntry) :
  entry_at series_map dates idx = Some e ↔
  dates !! Z.to_nat idx = Some (entry_date e)
  ∧ entry_hits e = hits_at series_map idx ∧ entry_hits e ≠ [].
Proof.
  unfold entry_at. destruct e as [d hs]. simpl.
  destruct (hits_at series_map idx) as [|h day_hits].
  - split; [done | intros (_ & E & Hne); by rewrite E in Hne].
  - destruct (dates !! Z.to_nat idx) as [d'|]; simpl.
    + split; [intros [= <- <-]; done | intros ([= <-] & -> & _); done].
    + split; [done | intros ([=] & _)].
Qed.

(** The hits of a run are hits of its series on one day. *)
Lemma detect_with_history_hits (df : DataFrame) (lookback : Z)
    (patterns : option (list string)) (hits_today : list RawHit)
    (history : list HistoryEntry) :
  detect_with_history pd ta df lookback patterns = Ok (hits_today, history) →
  let series_map := series_of pd ta df patterns in
  (hits_today = [] ∨ ∃ idx, hits_today = hits_at series_map idx)
  ∧ Forall (λ e, ∃ idx, entry_hits e = hits_at series_map idx) history.
Proof.
  intros Hrun. cbv zeta.
  destruct (detect_with_history_run df patterns)
    as [[_ H]|[(e & _ & H)|(_ & _ & _ & H)]];
    rewrite H in Hrun; [| done |]; injection Hrun as <- <-.
  - split; [by left | constructor].
  - split; [right; eauto |]. apply Forall_forall. intros e He'.
    apply list_elem_of_omap in He' as (idx & _ & He').
    exists idx. by eapply entry_at_hits.
Qed.

(** With a lookback of one day or more, a day of today with hits is the
    last entry of the history. *)
Lemma last_entry_of_today (df : DataFrame) (lookback : Z)
    (patterns : option (list string)) (hits_today : list RawHit)
    (history : list HistoryEntry) :
  1 ≤ lookback → hits_today ≠ [] →
  detect_with_history pd ta df lookback patterns = Ok (hits_today, history) →
  ∃ d, last (dates_of pd ta df patterns) = Some d
       ∧ last history = Some (mkEntry d hits_today).
Proof.
  intros Hlb Hne Hrun.
  destruct (detect_with_history_run df patterns)
    as [[_ H]|[(e & _ & H)|(_ & _ & Hds & H)]];
    rewrite H in Hrun; [| done |]; injection Hrun as <- <-; [done |].
  set (sm := series_of pd ta df patterns) in *.
  set (ds := dates_of pd ta df patterns) in *.
  destruct (last ds) as [d|] eqn:Hlast; [| by apply last_None in Hlast].
  exists d. split; [reflexivity |].
  set (n := Z.of_nat (length ds)) in *.
  assert (0 < n) as Hn by (subst n; destruct ds; simpl; [done | lia]).
  assert (window n lookback
          = seqZ (Z.max 0 (n - lookback)) (n - 1 - Z.max 0 (n - lookback)) ++ [n - 1])
    as ->.
  { unfold window.
    replace (n - Z.max 0 (n - lookback)) with (n - 1 - Z.max 0 (n - lookback) + 1) by lia.
    rewrite seqZ_app by lia. f_equal.
    rewrite seqZ_cons, seqZ_nil by lia. f_equal. lia. }
  rewrite omap_app. simpl.
  assert (entry_at sm ds (n - 1)
          = Some (mkEntry d (hits_at sm (n - 1)))) as ->.
  { unfold entry_at. destruct (hits_at sm (n - 1)) as [|h hs]; [done |].
    rewrite last_lookup in Hlast.
    replace (Z.to_nat (n - 1)) with (Nat.pred (length ds)) by (subst n; lia).
    by rewrite Hlast. }
  simpl. by rewrite last_snoc.
Qed.

(** X1: [detect_all] returns the hits of the last day that
    [detect_with_history] returns first, whatever the lookback: the hits
    of today do not depend on the length of the history. *)
Theorem detect_all_is_today (df : DataFrame) (lookback : Z)
    (patterns : option (list string)) :
  detect_all pd ta df patterns
  = r ← detect_with_history pd ta df lookback patterns; Ok r.1.
Proof.
  unfold detect_all.
  destruct (detect_with_history_run df patterns)
    as [[_ H]|[(e & _ & H)|(_ & _ & _ & H)]];
    by rewrite (H 1), (H lookback).
Qed.

(** X2: the history holds exactly the entries of the days of the window
    that have hits: an entry is in the history if and only if it is the
    entry of one of the last [lookback] days (of a day from 0 on) on which
    a detector gave a nonzero integer. *)
Theorem history_entries_exact (df : DataFrame) (lookback : Z)
    (patterns : option (list string)) (hits_today : list RawHit)
    (history : list HistoryEntry) (e : HistoryEntry) :
  detect_with_history pd ta df lookback patterns = Ok (hits_today, history) →
  let series_map := series_of pd ta df patterns in
  let dates := dates_of pd ta df patterns in
  let n := Z.of_nat (length dates) in
  e ∈ history ↔
  ∃ idx, Z.max 0 (n - lookback) ≤ idx < n
         ∧ dates !! Z.to_nat idx = Some (entry_date e)
         ∧ entry_hits e = hits_at series_map idx
         ∧ entry_hits e ≠ [].
Proof.
  intros Hrun. cbv zeta.
  destruct (detect_with_history_run df patterns)
    as [[Hd H]|[(e' & _ & H)|(_ & _ & _ & H)]];
    rewrite H in Hrun; [| done |]; injection Hrun as <- <-.
  - split; [intros Hin; by apply elem_of_nil in Hin |].
    intros (idx & Hidx & Hdate & Hhits & Hne). exfalso.
    destruct Hd as [Hd|Hd].
    + apply Hne. by rewrite Hhits, Hd.
    + rewrite Hd in Hidx. simpl in Hidx. lia.
  - rewrite list_elem_of_omap. setoid_rewrite window_range.
    setoid_rewrite entry_at_Some.
    split; intros (idx & ? & ? & ? & ?); exists idx; auto.
Qed.

(** X3: a longer lookback only adds older entries: the history for a
    lookback is the end of the history for any longer lookback. *)
Theorem history_suffix (df : DataFrame) (lookback lookback' : Z)
    (patterns : option (list string)) (hits hits' : list RawHit)
    (history history' : list HistoryEntry) :
  lookback ≤ lookback' →
  detect_with_history pd ta df lookback patterns = Ok (hits, history) →
  detect_with_history pd ta df lookback' patterns = Ok (hits', history') →
  hits = hits' ∧ history `suffix_of` history'.
Proof.
  intros Hle Hrun Hrun'.
  destruct (detect_with_history_run df patterns)
    as [[_ H]|[(e & _ & H)|(_ & _ & _ & H)]];
    rewrite H in Hrun, Hrun'; [| done |];
    injection Hrun as <- <-; injection Hrun' as <- <-.
  - split; [reflexivity | by exists []].
  - split; [reflexivity |].
    set (n := Z.of_nat (length (dates_of pd ta df patterns))).
    destruct (Z.le_gt_cases 0 lookback) as [Hpos|Hneg].
    + exists (omap (entry_at (series_of pd ta df patterns) (dates_of pd ta df patterns))
                (seqZ (Z.max 0 (n - lookback'))
                   (Z.max 0 (n - lookback) - Z.max 0 (n - lookback')))).
      rewrite <- omap_app. f_equal. unfold window. fold n.
      set (s := Z.max 0 (n - lookback)). set (s' := Z.max 0 (n - lookback')).
      replace (n - s') with (s - s' + (n - s)) by lia.
      rewrite seqZ_app by lia. do 2 f_equal. lia.
    + unfold window at 1. fold n. rewrite seqZ_nil by lia. apply suffix_nil.
Qed.

(** X4: with a lookback of one day or more, the last entry of the history
    is that of today exactly when today has hits. When it has, the last
    entry holds the hits returned for today under the last date of the
    frame; when it has none, every entry of the history is that of an
    earlier day. *)
Theorem today_is_last_entry (df : DataFrame) (lookback : Z)
    (patterns : option (list string)) (hits_today : list RawHit)
    (history : list HistoryEntry) :
  1 ≤ lookback →
  detect_with_history pd ta df lookback patterns = Ok (hits_today, history) →
  let series_map := series_of pd ta df patterns in
  let dates := dates_of pd ta df patterns in
  let n := Z.of_nat (length dates) in
  (hits_today ≠ [] →
   ∃ d, last dates = Some d ∧ last history = Some (mkEntry d hits_today))
  ∧ (hits_today = [] →
     ∀ e, e ∈ history →
          ∃ idx, 0 ≤ idx < n - 1
                 ∧ dates !! Z.to_nat idx = Some (entry_date e)
                 ∧ entry_hits e = hits_at series_map idx).
Proof.
  intros Hlb Hrun. cbv zeta. split.
  - intros Hne. by eapply last_entry_of_today.
  - intros -> e He.
    destruct (detect_with_history_run df patterns)
      as [[_ H]|[(e' & _ & H)|(_ & _ & _ & H)]];
      rewrite H in Hrun; [| done |].
    { injection Hrun as <-. by apply elem_of_nil in He. }
    injection Hrun as Ht <-.
    apply list_elem_of_omap in He as (idx & Hidx & He).
    apply window_range in Hidx.
    assert (idx ≠ Z.of_nat (length (dates_of pd ta df patterns)) - 1) as Hlast.
    { intros ->. unfold entry_at in He. by rewrite Ht in He. }
    exists idx. split; [lia |].
    apply entry_at_Some in He as (Hdate & Hhits & _). by split.
Qed.

End HistoryDays.

Lemma history_entries_exact_witness :
  detect_with_history Sample.pd (Some Week.backend) Week.frame 3 None
  = Ok (Week.today, Week.history3)
  ∧ (let series_map := series_of Sample.pd (Some Week.backend) Week.frame None in
     let dates := dates_of Sample.pd (Some Week.backend) Week.frame None in
     let n := Z.of_nat (length dates) in
     mkEntry 3 [Week.engulfing] ∈ Week.history3 ↔
     ∃ idx, Z.max 0 (n - 3) ≤ idx < n
            ∧ dates !! Z.to_nat idx = Some (entry_date (mkEntry 3 [Week.engulfing]))
            ∧ entry_hits (mkEntry 3 [Week.engulfing]) = hits_at series_map idx
            ∧ entry_hits (mkEntry 3 [Week.engulfing]) ≠ []).
Proof.
  split; [vm_compute; reflexivity |].
  apply (history_entries_exact Sample.pd (Some Week.backend) Week.frame 3 None
           Week.today Week.history3 (mkEntry 3 [Week.engulfing])).
  vm_compute; reflexivity.
Defined.

Lemma history_suffix_witness :
  3 ≤ 5
  ∧ detect_with_history Sample.pd (Some Week.backend) Week.frame 3 None
    = Ok (Week.today, Week.history3)
  ∧ detect_with_history Sample.pd (Some Week.backend) Week.frame 5 None
    = Ok (Week.today, Week.history5)
  ∧ Week.today = Week.today ∧ Week.history3 `suffix_of` Week.history5.
Proof.
  split; [lia |]. split; [vm_compute; reflexivity |].
  split; [vm_compute; reflexivity |].
  apply (history_suffix Sample.pd (Some Week.backend) Week.frame 3 5 None);
    [lia | vm_compute; reflexivity | vm_compute; reflexivity].
Defined.

Lemma today_is_last_entry_witness :
  1 ≤ 3
  ∧ detect_with_history Sample.pd (Some Week.backend) Week.frame 3 None
    = Ok (Week.today, Week.history3)
  ∧ (Week.today ≠ [] →
     ∃ d, last (dates_of Sample.pd (Some Week.backend) Week.frame None) = Some d
          ∧ last Week.history3 = Some (mkEntry d Week.today))
  ∧ (Week.today = [] →
     ∀ e, e ∈ Week.history3 →
          ∃ idx, 0 ≤ idx < Z.of_nat (length (dates_of Sample.pd (Some Week.backend)
                                               Week.frame None)) - 1
                 ∧ dates_of Sample.pd (Some Week.backend) Week.frame None
                   !! Z.to_nat idx = Some (entry_date e)
                 ∧ entry_hits e
                   = hits_at (series_of Sample.pd (Some Week.backend) Week.frame None)
                       idx).
Proof.
  split; [lia |]. split; [vm_compute; reflexivity |].
  apply (today_is_last_entry Sample.pd (Some Week.backend) Week.frame 3 None);
    [lia | vm_compute; reflexivity].
Defined.

(** ** Where the hits come from *)

Lemma dict_set_keys {V} (d : list (string * V)) (k : string) (v : V) :
  (dict_set d k v).*1 = d.*1 ∨ ((k ∉ d.*1) ∧ (dict_set d k v).*1 = (d.*1) ++ [k]).
Proof.
  induction d as [|[k' v'] d IH]; csimpl.
  - right. split; [apply not_elem_of_nil | reflexivity].
  - destruct (String.eqb_spec k' k) as [->|Hne]; csimpl; [by left |].
    destruct IH as [->|[Hk ->]]; [by left | right].
    split; [| reflexivity]. rewrite not_elem_of_cons. split; [congruence | done].
Qed.

Lemma dict_set_NoDup {V} (d : list (string * V)) (k : string) (v : V) :
  NoDup (d.*1) → NoDup ((dict_set d k v).*1).
Proof.
  intros Hd. destruct (dict_set_keys d k v) as [->|[Hk ->]]; [done |].
  apply NoDup_app. split; [done |]. split; [| apply NoDup_singleton].
  intros x Hx Hx'. apply list_elem_of_singleton in Hx'. by subst.
Qed.

Lemma fmap_omap_Some {A B} (f : A → option B) (l : list A) :
  Forall (λ x, is_Some (f x)) l → f <$> l = Some <$> omap f l.
Proof.
  induction 1 as [|x l [y Hy] _ IH]; csimpl; [done |].
  rewrite Hy. csimpl. by rewrite IH.
Qed.

(** The hits of a day: one for each series with a nonzero integer that
    day, in the order of the series. *)
Lemma hits_at_keys (series_map : list (string * list pyobj)) (idx : Z) :
  omap raw_fn (hits_at series_map idx) `sublist_of` series_map.*1
  ∧ Forall (λ h, ∃ fn value, h = mkRaw (Some fn) (Some (PyInt value))
                             ∧ value ≠ 0 ∧ fn ∈ series_map.*1)
      (hits_at series_map idx).
Proof.
  induction series_map as [|[fn series] sm [IHs IHf]]; simpl.
  - split; constructor.
  - assert (Forall (λ h, ∃ fn0 value, h = mkRaw (Some fn0) (Some (PyInt value))
                                      ∧ value ≠ 0 ∧ fn0 ∈ fn :: sm.*1)
              (hits_at sm idx)) as IHf'.
    { eapply Forall_impl; [exact IHf |]. simpl.
      intros h (fn0 & value & -> & Hv & Hin). exists fn0, value.
      split; [done |]. split; [done |]. by apply list_elem_of_further. }
    destruct (py_getitem series idx ≫= Py.int) as [value|e].
    + destruct (Z.eqb_spec value 0) as [->|Hv].
      * split; [by apply sublist_cons | done].
      * simpl. split; [by apply sublist_skip |].
        constructor; [| done]. exists fn, value.
        split; [done |]. split; [done |]. apply list_elem_of_here.
    + split; [by apply sublist_cons | done].
Qed.

Section HitOrigin.

Context {cell index : Type} (pd : pandas (cell:=cell) (index:=index)).
Context (ta : option (talib (cell:=cell))).

(** The keys of the dictionary the loop over the functions fills. *)
Lemma series_fold_keys (o h l c : list cell) (functions : list string)
    (acc : list (string * list pyobj)) :
  let series_map :=
    foldl (λ m fn,
             match ta_call ta fn o h l c with
             | TaSeries out => dict_set m fn out
             | TaRaises | TaOther => m
             end) acc functions in
  (NoDup (acc.*1) → NoDup (series_map.*1))
  ∧ ∃ added, series_map.*1 = acc.*1 ++ added ∧ added `sublist_of` functions.
Proof.
  cbv zeta. revert acc.
  induction functions as [|fn fs IH]; intros acc; simpl.
  - split; [done |]. exists []. split; [by rewrite app_nil_r | constructor].
  - destruct (ta_call ta fn o h l c) as [| |out].
    + destruct (IH acc) as [Hnd (added & E & Hsub)].
      split; [done |]. exists added. split; [done | by apply sublist_cons].
    + destruct (IH acc) as [Hnd (added & E & Hsub)].
      split; [done |]. exists added. split; [done | by apply sublist_cons].
    + destruct (IH (dict_set acc fn out)) as [Hnd (added & E & Hsub)].
      split; [intros Hacc; by apply Hnd, dict_set_NoDup |].
      rewrite E. destruct (dict_set_keys acc fn out) as [->|[_ ->]].
      * exists added. split; [done | by apply sublist_cons].
      * exists (fn :: added). split; [by rewrite <- app_assoc | by apply sublist_skip].
Qed.

(** The detectors with a series are distinct, and are enabled ones in the
    order of [dir(ta)]. *)
Lemma _compute_pattern_series_keys (df : DataFrame) (patterns : option (list string)) :
  let keys := (series_of pd ta df patterns).*1 in
  NoDup keys
  ∧ keys `sublist_of` available_pattern_functions ta
  ∧ ∀ ps, patterns = Some ps →
          Forall (λ fn, Py.upper fn ∈ Py.upper <$> ps) keys.
Proof.
  assert (∀ keys : list string, keys = [] →
            NoDup keys ∧ keys `sublist_of` available_pattern_functions ta
            ∧ ∀ ps, patterns = Some ps →
                    Forall (λ fn, Py.upper fn ∈ Py.upper <$> ps) keys) as Hnil.
  { intros keys ->.
    split; [constructor | split; [apply sublist_nil_l | intros; constructor]]. }
  cbv zeta. unfold series_of, _compute_pattern_series.
  destruct (dict_get _ "open") as [open_col|]; [| by apply Hnil].
  destruct (dict_get _ "high") as [high_col|]; [| by apply Hnil].
  destruct (dict_get _ "low") as [low_col|]; [| by apply Hnil].
  destruct (dict_get _ "close") as [close_col|]; [| by apply Hnil].
  match goal with
  | |- context [mbind _ ?dates] => destruct dates as [ds|e]; [| by apply Hnil]
  end.
  simpl. clear Hnil.
  match goal with
  | |- context [foldl _ [] ?fs] =>
      destruct (series_fold_keys (df_getitem df open_col) (df_getitem df high_col)
                  (df_getitem df low_col) (df_getitem df close_col) fs [])
        as [Hnd (added & E & Hsub)]
  end.
  cbv zeta in E, Hnd. csimpl in E.
  split; [apply Hnd; constructor |]. rewrite E.
  destruct patterns as [ps|].
  - split; [etrans; [exact Hsub | apply sublist_filter] |].
    intros ps' [= <-]. apply Forall_forall. intros fn Hfn.
    eapply elem_of_sublist in Hfn; [| exact Hsub].
    by apply list_elem_of_filter in Hfn as [Hfn _].
  - split; [done | intros ps [=]].
Qed.



(** X6: on one day a detector is reported at most once, and the hits of
    the day follow the order of [dir(ta)]: the detectors of the hits of
    today, and of each entry of the history, are distinct and form a
    sublist of the pattern functions. *)
Theorem one_hit_per_detector (df : DataFrame) (lookback : Z)
    (patterns : option (list string)) (hits_today : list RawHit)
    (history : list HistoryEntry) (hits : list RawHit) :
  detect_with_history pd ta df lookback patterns = Ok (hits_today, history) →
  hits ∈ hit_lists hits_today history →
  NoDup (raw_fn <$> hits)
  ∧ omap raw_fn hits `sublist_of` available_pattern_functions ta.
Proof.
  intros Hrun Hhits.
  destruct (detect_with_history_hits pd ta df lookback patterns _ _ Hrun)
    as [Htoday Hhist].
  assert (hits = [] ∨ ∃ idx,
            hits = hits_at (series_of pd ta df patterns) idx)
    as [->|[idx ->]].
  { unfold hit_lists in Hhits. apply elem_of_cons in Hhits as [->|Hhits]; [done |].
    apply list_elem_of_fmap in Hhits as (e & -> & He).
    rewrite Forall_forall in Hhist. right. by apply Hhist. }
  { split; [constructor | apply sublist_nil_l]. }
  destruct (hits_at_keys (series_of pd ta df patterns) idx)
    as [Hsub Hf].
  destruct (_compute_pattern_series_keys df patterns) as (Hnd & Hsub' & _).
  split; [| by etrans].
  assert (raw_fn <$> hits_at (series_of pd ta df patterns) idx
          = Some <$> omap raw_fn
                       (hits_at (series_of pd ta df patterns) idx))
    as ->.
  { apply fmap_omap_Some. eapply Forall_impl; [exact Hf |]. simpl.
    intros h (fn & value & -> & _). by eexists. }
  apply (NoDup_fmap_2 _). by eapply sublist_NoDup.
Qed.

(** X7: with a lookback of zero or less the history is empty, whatever
    the hits of today. *)
Theorem history_without_lookback (df : DataFrame) (lookback : Z)
    (patterns : option (list string)) (hits_today : list RawHit)
    (history : list HistoryEntry) :
  lookback ≤ 0 →
  detect_with_history pd ta df lookback patterns = Ok (hits_today, history) →
  history = [].
Proof.
  intros Hlb Hrun.
  destruct (detect_with_history_run pd ta df patterns)
    as [[_ H]|[(e & _ & H)|(_ & _ & _ & H)]];
    rewrite H in Hrun; [| done |]; injection Hrun as <- <-; [done |].
  unfold window. by rewrite seqZ_nil by lia.
Qed.

End HitOrigin.


Lemma one_hit_per_detector_witness :
  detect_with_history Sample.pd (Some Week.backend) Week.frame 3 None
  = Ok (Week.today, Week.history3)
  ∧ Week.today ∈ hit_lists Week.today Week.history3
  ∧ NoDup (raw_fn <$> Week.today)
  ∧ omap raw_fn Week.today `sublist_of` available_pattern_functions (Some Week.backend).
Proof.
  split; [vm_compute; reflexivity |]. split; [apply list_elem_of_here |].
  apply (one_hit_per_detector Sample.pd (Some Week.backend) Week.frame 3 None
           Week.today Week.history3);
    [vm_compute; reflexivity | apply list_elem_of_here].
Defined.

Lemma history_without_lookback_witness :
  0 ≤ 0
  ∧ detect_with_history Sample.pd (Some Week.backend) Week.frame 0 None
    = Ok (Week.today, [])
  ∧ ([] : list HistoryEntry) = [].
Proof.
  split; [lia |]. split; [vm_compute; reflexivity |].
  apply (history_without_lookback Sample.pd (Some Week.backend) Week.frame 0 None
           Week.today); [lia | vm_compute; reflexivity].
Defined.

(** ** Arithmetic without rounding

    Integers below [2^53] in magnitude are floats, and the sums, products
    and quotients by 100 of such floats that are again such integers are
    computed without rounding. *)

Section Exact.

Local Abbreviation prec := F64.prec.
Local Abbreviation emax := F64.emax.
Local Abbreviation fexp := (SpecFloat.fexp prec emax).

Lemma Zdigits2_unique (m n : Z) : 2 ^ (n - 1) ≤ m < 2 ^ n → 0 < n → Zdigits2 m = n.
Proof.
  intros Hm Hn.
  assert (0 < m) as Hpos by (pose proof (pow2_pos (n - 1)); lia).
  pose proof (Zdigits2_bounds m Hpos) as Hd.
  pose proof (Zdigits2_nonneg m) as Hd0.
  assert (Zdigits2 m ≤ n) by (apply Zdigits2_le; lia).
  destruct (Z.lt_ge_cases (Zdigits2 m) n) as [Hlt|]; [| lia].
  exfalso. assert (2 ^ Zdigits2 m ≤ 2 ^ (n - 1)) by (apply Z.pow_le_mono_r; lia). lia.
Qed.

Lemma Zdigits2_pos (a : Z) : 0 < a → 0 < Zdigits2 a.
Proof. destruct a as [|p|p]; [lia | | lia]. intros _. simpl. lia. Qed.

Lemma Zdigits2_shift (a k : Z) :
  0 < a → 0 ≤ k → Zdigits2 (a * 2 ^ k) = Zdigits2 a + k.
Proof.
  intros Ha Hk. pose proof (Zdigits2_bounds a Ha) as Hd.
  pose proof (Zdigits2_pos a Ha) as Hd0.
  apply Zdigits2_unique; [| lia].
  replace (Zdigits2 a + k - 1) with (Zdigits2 a - 1 + k) by lia.
  rewrite !Z.pow_add_r by lia.
  pose proof (pow2_pos k Hk). nia.
Qed.

Lemma Zdigits2_53 (a : Z) : 0 < a < 2 ^ 53 → 0 < Zdigits2 a ≤ 53.
Proof.
  intros Ha. split; [apply Zdigits2_pos; lia | apply Zdigits2_le; lia].
Qed.

(** A mantissa that needs no shift is kept. *)
Lemma binary_round_aux_fits (s : bool) (m e : Z) :
  fexp (Zdigits2 m + e) ≤ e →
  binary_round_aux prec emax s m e loc_Exact
  = match m with
    | Z0 => S754_zero s
    | Zpos p => if e <=? emax - prec then S754_finite s p e else S754_infinity s
    | Zneg _ => S754_nan
    end.
Proof.
  intros He. unfold binary_round_aux.
  assert (shr_fexp prec emax m e loc_Exact
          = ({| shr_m := m; shr_r := false; shr_s := false |}, e)) as E.
  { unfold shr_fexp, shr. simpl shr_record_of_loc.
    destruct (SpecFloat.fexp prec emax (Zdigits2 m + e) - e) eqn:Hn; try reflexivity. lia. }
  rewrite E. simpl. rewrite E. reflexivity.
Qed.

(** A mantissa [a * 2^-e] is rounded to the float of [a]. *)
Lemma binary_round_aux_exact (s : bool) (m e a : Z) :
  0 < a < 2 ^ 53 → e ≤ Zdigits2 a - 53 → m = a * 2 ^ (- e) →
  binary_round_aux prec emax s m e loc_Exact = exact_float s a.
Proof.
  intros Ha He ->. pose proof (Zdigits2_53 a Ha) as Hd.
  set (d := Zdigits2 a) in *.
  assert (Zdigits2 (a * 2 ^ (- e)) + e = d) as Hdm
    by (rewrite Zdigits2_shift by lia; fold d; lia).
  assert (fexp d = d - 53) as Hf by (rewrite fexp_eq; lia).
  assert (0 < a * 2 ^ (53 - d)) as Hpos
    by (pose proof (pow2_pos (53 - d)); nia).
  unfold exact_float. fold d.
  destruct (Z.eq_dec e (d - 53)) as [->|Hne].
  - rewrite binary_round_aux_fits by (rewrite Hdm, Hf; lia).
    replace (- (d - 53)) with (53 - d) by lia.
    destruct (a * 2 ^ (53 - d)) as [|p|p] eqn:Hp; try lia.
    simpl Z.to_pos.
    destruct (Z.leb_spec (d - 53) (emax - prec)) as [_|Hb];
      [reflexivity | unfold F64.emax, F64.prec in Hb; lia].
  - pose proof (binary_round_aux_truncates s (a * 2 ^ (- e)) e) as H.
    cbv zeta in H. rewrite Hdm, Hf in H.
    assert (a * 2 ^ (- e) = a * 2 ^ (53 - d) * 2 ^ (d - 53 - e)) as Hsplit.
    { rewrite <- Z.mul_assoc, <- Z.pow_add_r by lia. do 2 f_equal. lia. }
    assert (a * 2 ^ (- e) / 2 ^ (d - 53 - e) = a * 2 ^ (53 - d)) as Hq.
    { rewrite Hsplit. apply Z.div_mul. pose proof (pow2_pos (d - 53 - e)). lia. }
    rewrite Hq in H.
    assert (Zdigits2 (a * 2 ^ (53 - d)) = 53) as Hd2
      by (rewrite Zdigits2_shift by lia; fold d; lia).
    rewrite Hd2 in H.
    replace (SpecFloat.fexp prec emax (53 + (d - 53))) with (d - 53) in H
      by (rewrite fexp_eq; lia).
    rewrite Z.max_id, Z.sub_diag, Z.div_1_r in H.
    rewrite H.
    + destruct (a * 2 ^ (53 - d)) as [|p|p] eqn:Hp; try lia.
      simpl Z.to_pos.
      destruct (Z.leb_spec (d - 53) (emax - prec)) as [_|Hb];
        [reflexivity | unfold F64.emax, F64.prec in Hb; lia].
    + pose proof (pow2_pos (- e)); nia.
    + lia.
    + assert (a * 2 ^ (- e) = a * 2 ^ (53 - d + 1) * 2 ^ (d - 53 - e - 1)) as ->.
      { rewrite <- Z.mul_assoc, <- Z.pow_add_r by lia. do 2 f_equal. lia. }
      rewrite Z.div_mul by (pose proof (pow2_pos (d - 53 - e - 1)); lia).
      rewrite Z.pow_add_r by lia. change (2 ^ 1) with 2.
      rewrite Z.mul_assoc, Z.odd_mul. apply andb_false_r.
Qed.

Lemma binary_round_exact (s : bool) (m : positive) (e a : Z) :
  0 < a < 2 ^ 53 → e ≤ 0 → Z.pos m = a * 2 ^ (- e) →
  binary_round prec emax s m e = exact_float s a.
Proof.
  intros Ha He Hm. pose proof (Zdigits2_53 a Ha) as Hd.
  unfold binary_round.
  pose proof (shl_align_spec m e (fexp (Z.pos (digits2_pos m) + e))) as H.
  destruct (shl_align _ _ _) as [mz ez]. destruct H as [Hez Hmz].
  assert (Z.pos (digits2_pos m) + e = Zdigits2 a) as Hdm.
  { change (Z.pos (digits2_pos m)) with (Zdigits2 (Z.pos m)).
    rewrite Hm, Zdigits2_shift by lia. lia. }
  rewrite Hdm, fexp_eq in Hez.
  apply binary_round_aux_exact; [done | lia |].
  rewrite Hmz, Hm, <- Z.mul_assoc, <- Z.pow_add_r by lia. do 2 f_equal. lia.
Qed.

Lemma of_Z_exact (a : Z) :
  0 < a < 2 ^ 53 →
  F64.of_Z a = exact_float false a ∧ F64.of_Z (- a) = exact_float true a.
Proof.
  intros Ha. unfold F64.of_Z, binary_normalize.
  destruct a as [|p|p]; try lia. simpl Z.opp.
  split; apply binary_round_exact; try lia.
Qed.

Lemma of_Z_exact_sign (z : Z) :
  z ≠ 0 → Z.abs z < 2 ^ 53 → F64.of_Z z = exact_float (z <? 0) (Z.abs z).
Proof.
  intros Hz Hb. destruct (of_Z_exact (Z.abs z)) as [Hp Hn]; [lia |].
  destruct (Z.ltb_spec z 0).
  - rewrite <- Hn. f_equal. lia.
  - rewrite <- Hp. f_equal. lia.
Qed.

(** The float of a mantissa that stands for the integer [z]. *)
Lemma binary_normalize_exact (m e z : Z) :
  Z.abs z < 2 ^ 53 → e ≤ 0 → m = z * 2 ^ (- e) →
  binary_normalize prec emax m e false = F64.of_Z z.
Proof.
  intros Hz He ->. pose proof (pow2_pos (- e)) as Hp.
  destruct (Z.eq_dec z 0) as [->|Hne]; [reflexivity |].
  rewrite of_Z_exact_sign by done.
  unfold binary_normalize.
  destruct (z * 2 ^ (- e)) as [|p|p] eqn:E; [nia | |].
  - replace (z <? 0) with false by (symmetry; apply Z.ltb_ge; nia).
    apply binary_round_exact; [lia | lia | nia].
  - replace (z <? 0) with true by (symmetry; apply Z.ltb_lt; nia).
    apply binary_round_exact; [lia | lia | nia].
Qed.

Lemma cond_Zopp_abs (z : Z) : cond_Zopp (z <? 0) (Z.abs z) = z.
Proof. destruct (Z.ltb_spec z 0); simpl; lia. Qed.

Lemma add_exact (a b : Z) :
  Z.abs a < 2 ^ 53 → Z.abs b < 2 ^ 53 → Z.abs (a + b) < 2 ^ 53 →
  F64.add (F64.of_Z a) (F64.of_Z b) = F64.of_Z (a + b).
Proof.
  intros Ha Hb Hab.
  destruct (Z.eq_dec a 0) as [->|Ha0].
  { destruct (Z.eq_dec b 0) as [->|Hb0]; [reflexivity |].
    rewrite Z.add_0_l, (of_Z_exact_sign b) by done. reflexivity. }
  destruct (Z.eq_dec b 0) as [->|Hb0].
  { rewrite Z.add_0_r, (of_Z_exact_sign a) by done. reflexivity. }
  rewrite (of_Z_exact_sign a), (of_Z_exact_sign b) by done.
  pose proof (Zdigits2_53 (Z.abs a) ltac:(lia)) as Hda.
  pose proof (Zdigits2_53 (Z.abs b) ltac:(lia)) as Hdb.
  unfold exact_float, F64.add, SFadd.
  set (da := Zdigits2 (Z.abs a)) in *. set (db := Zdigits2 (Z.abs b)) in *.
  set (ma := Z.to_pos (Z.abs a * 2 ^ (53 - da))).
  set (mb := Z.to_pos (Z.abs b * 2 ^ (53 - db))).
  assert (Z.pos ma = Z.abs a * 2 ^ (53 - da)) as Hma
    by (subst ma; rewrite Z2Pos.id; [done | pose proof (pow2_pos (53 - da)); nia]).
  assert (Z.pos mb = Z.abs b * 2 ^ (53 - db)) as Hmb
    by (subst mb; rewrite Z2Pos.id; [done | pose proof (pow2_pos (53 - db)); nia]).
  pose proof (shl_align_spec ma (da - 53) (Z.min (da - 53) (db - 53))) as Hxa.
  pose proof (shl_align_spec mb (db - 53) (Z.min (da - 53) (db - 53))) as Hxb.
  destruct (shl_align ma _ _) as [ma' ea'], (shl_align mb _ _) as [mb' eb'].
  destruct Hxa as [Hea Hma'], Hxb as [Heb Hmb']. simpl fst.
  set (ez := Z.min (da - 53) (db - 53)) in *.
  apply binary_normalize_exact; [done | lia |].
  rewrite Hma', Hmb', Hma, Hmb.
  replace ea' with ez by lia. replace eb' with ez by lia.
  rewrite <- !Z.mul_assoc, <- !Z.pow_add_r by lia.
  replace (53 - da + (da - 53 - ez)) with (- ez) by lia.
  replace (53 - db + (db - 53 - ez)) with (- ez) by lia.
  rewrite <- (cond_Zopp_abs a) at 3. rewrite <- (cond_Zopp_abs b) at 3.
  destruct (a <? 0), (b <? 0); simpl; lia.
Qed.

Lemma mul_exact (a b : Z) :
  a ≠ 0 → b ≠ 0 → Z.abs (a * b) < 2 ^ 53 →
  F64.mul (F64.of_Z a) (F64.of_Z b) = F64.of_Z (a * b).
Proof.
  intros Ha0 Hb0 Hab.
  assert (Z.abs a < 2 ^ 53 ∧ Z.abs b < 2 ^ 53) as [Ha Hb] by nia.
  rewrite (of_Z_exact_sign a), (of_Z_exact_sign b), (of_Z_exact_sign (a * b))
    by (done || nia).
  pose proof (Zdigits2_53 (Z.abs a) ltac:(lia)) as Hda.
  pose proof (Zdigits2_53 (Z.abs b) ltac:(lia)) as Hdb.
  pose proof (Zdigits2_53 (Z.abs (a * b)) ltac:(nia)) as Hdab.
  pose proof (Zdigits2_bounds (Z.abs a) ltac:(lia)) as Hba.
  pose proof (Zdigits2_bounds (Z.abs b) ltac:(lia)) as Hbb.
  pose proof (Zdigits2_bounds (Z.abs (a * b)) ltac:(nia)) as Hbab.
  unfold exact_float at 1 2. unfold F64.mul, SFmul.
  set (da := Zdigits2 (Z.abs a)) in *. set (db := Zdigits2 (Z.abs b)) in *.
  set (dab := Zdigits2 (Z.abs (a * b))) in *.
  assert (da + db - 1 ≤ dab) as Hd.
  { destruct (Z.lt_ge_cases dab (da + db - 1)) as [Hlt|]; [| lia]. exfalso.
    assert (2 ^ dab ≤ 2 ^ (da - 1 + (db - 1))) as Hp
      by (apply Z.pow_le_mono_r; lia).
    rewrite Z.pow_add_r in Hp by lia.
    rewrite Z.abs_mul in Hbab.
    pose proof (pow2_pos (da - 1) ltac:(lia)). pose proof (pow2_pos (db - 1) ltac:(lia)).
    nia. }
  replace (xorb (a <? 0) (b <? 0)) with (a * b <? 0)
    by (destruct (Z.ltb_spec a 0), (Z.ltb_spec b 0), (Z.ltb_spec (a * b) 0);
        try reflexivity; nia).
  apply binary_round_aux_exact; [nia | fold dab; lia |].
  rewrite Pos2Z.inj_mul, !Z2Pos.id
    by (pose proof (pow2_pos (53 - da)); pose proof (pow2_pos (53 - db)); nia).
  rewrite Z.abs_mul.
  replace (- (da - 53 + (db - 53))) with (53 - da + (53 - db)) by lia.
  rewrite Z.pow_add_r by lia. ring.
Qed.

(** The quotient by 100 of a float that stands for [100 * k]. *)
Lemma div_exact (s : bool) (m1 m2 : positive) (e1 e2 k : Z) :
  0 < k → 100 * k < 2 ^ 53 → e1 ≤ 0 → e2 ≤ 0 →
  Z.pos m1 = 100 * k * 2 ^ (- e1) → Z.pos m2 = 100 * 2 ^ (- e2) →
  F64.div (S754_finite s m1 e1) (S754_finite false m2 e2) = exact_float s k.
Proof.
  intros Hk Hk' He1 He2 Hm1 Hm2.
  pose proof (Zdigits2_53 k ltac:(lia)) as Hdk.
  pose proof (Zdigits2_53 (100 * k) ltac:(lia)) as HD.
  pose proof (Zdigits2_bounds k Hk) as Hbk.
  pose proof (Zdigits2_bounds (100 * k) ltac:(lia)) as HbD.
  set (dk := Zdigits2 k) in *. set (D := Zdigits2 (100 * k)) in *.
  assert (7 ≤ D ≤ dk + 7) as HDk.
  { split.
    - destruct (Z.lt_ge_cases D 7) as [Hlt|]; [| lia]. exfalso.
      assert (2 ^ D ≤ 2 ^ 6) by (apply Z.pow_le_mono_r; lia). lia.
    - destruct (Z.lt_ge_cases (dk + 7) D) as [Hlt|]; [| lia]. exfalso.
      assert (2 ^ (dk + 7) ≤ 2 ^ (D - 1)) as Hp by (apply Z.pow_le_mono_r; lia).
      rewrite Z.pow_add_r in Hp by lia. lia. }
  unfold F64.div, SFdiv, SFdiv_core_binary.
  assert (Zdigits2 (Z.pos m1) = D - e1) as ->
    by (rewrite Hm1, Zdigits2_shift by lia; fold D; lia).
  assert (Zdigits2 (Z.pos m2) = 7 - e2) as ->
    by (rewrite Hm2, Zdigits2_shift by lia; reflexivity).
  replace (D - e1 + e1 - (7 - e2 + e2)) with (D - 7) by lia.
  rewrite fexp_eq. replace (Z.max (D - 7 - 53) (-1074)) with (D - 60) by lia.
  set (e' := Z.min (D - 60) (e1 - e2)).
  assert (e' ≤ D - 60 ∧ e' ≤ e1 - e2) as [He' He''] by (subst e'; lia).
  set (m' := match e1 - e2 - e' with
             | 0 => Z.pos m1
             | Z.pos _ => Z.shiftl (Z.pos m1) (e1 - e2 - e')
             | Z.neg _ => 0
             end).
  assert (m' = Z.pos m2 * (k * 2 ^ (- e'))) as Hm'.
  { assert (m' = Z.pos m1 * 2 ^ (e1 - e2 - e')) as ->.
    { subst m'. destruct (e1 - e2 - e') as [|p|p] eqn:Hs; [lia | | lia].
      by rewrite Z.shiftl_mul_pow2. }
    rewrite Hm1, Hm2.
    transitivity (100 * k * 2 ^ (- e1 + (e1 - e2 - e')));
      [rewrite Z.pow_add_r by lia; ring |].
    replace (- e1 + (e1 - e2 - e')) with (- e2 + - e') by lia.
    rewrite Z.pow_add_r by lia. ring. }
  fold m'. rewrite Hm'.
  assert (0 < Z.pos m2) as Hm2pos by lia.
  assert (Z.div_eucl (Z.pos m2 * (k * 2 ^ (- e'))) (Z.pos m2) = (k * 2 ^ (- e'), 0)) as ->.
  { pose proof (Z_div_mod_full (Z.pos m2 * (k * 2 ^ (- e'))) (Z.pos m2) ltac:(lia)) as H.
    destruct (Z.div_eucl _ _) as [q r]. destruct H as [Hq Hr].
    destruct Hr as [Hr|Hr]; [| lia].
    assert (q = k * 2 ^ (- e')) by nia. subst q. f_equal. lia. }
  assert (new_location (Z.pos m2) 0 = loc_Exact) as ->
    by (unfold new_location; destruct (Z.even _); reflexivity).
  rewrite xorb_false_r.
  apply binary_round_aux_exact; [lia | fold dk; lia | reflexivity].
Qed.

(** [round()] of the float of an integer is the integer. *)
Lemma round_exact (z : Z) : Z.abs z < 2 ^ 53 → Py.round (F64.of_Z z) = Ok z.
Proof.
  intros Hz. destruct (Z.eq_dec z 0) as [->|Hne]; [reflexivity |].
  rewrite of_Z_exact_sign by done.
  pose proof (Zdigits2_53 (Z.abs z) ltac:(lia)) as Hd.
  unfold exact_float. simpl Py.round. f_equal.
  set (d := Zdigits2 (Z.abs z)) in *.
  assert (0 < Z.abs z * 2 ^ (53 - d)) as Hpos by (pose proof (pow2_pos (53 - d)); nia).
  assert (F64.nearest_int (Z.to_pos (Z.abs z * 2 ^ (53 - d))) (d - 53) = Z.abs z) as ->.
  { unfold F64.nearest_int. destruct (d - 53) as [|p|p] eqn:Hp; try lia.
    - rewrite Z2Pos.id by done. replace (53 - d) with 0 by lia. lia.
    - rewrite Z2Pos.id by done. replace (53 - d) with (Z.pos p) by lia.
      unfold F64.round_half_even.
      rewrite Z.div_mul, Z.mod_mul by lia.
      pose proof (pow2_pos (Z.pos p)).
      destruct (Z.compare_spec (2 * 0) (2 ^ Z.pos p)) as [H'|H'|H']; lia. }
  unfold F64.with_sign. destruct (Z.ltb_spec z 0); lia.
Qed.

End Exact.

(** ** Hits that do not count, and the sign of the total *)

Lemma add_zero_false (x : spec_float) :
  not_neg_zero x → F64.add x (S754_zero false) = x.
Proof. unfold not_neg_zero. by destruct x as [[]| | |]. Qed.

Lemma add_any_zero (x : spec_float) (s : bool) :
  not_neg_zero x → F64.add x (S754_zero s) = x.
Proof. intros Hx. rewrite add_zero_r by done. by apply add_zero_false. Qed.

Lemma score_loop_app (g : Globals) (hits1 hits2 : list hit) (score : spec_float) :
  score_loop g score (hits1 ++ hits2)
  = score' ← score_loop g score hits1; score_loop g score' hits2.
Proof.
  revert score. induction hits1 as [|h hits1 IH]; intros score; simpl; [done |].
  destruct (score_step g score h) as [score'|e]; simpl; [apply IH | done].
Qed.

Lemma score_step_inv (g : Globals) (score score' : spec_float) (h : hit) :
  score_step g score h = Ok score' →
  ∃ fn value term,
    _extract h = Ok (fn, value) ∧ code_term g fn value = Ok term
    ∧ score' = F64.add score term.
Proof.
  intros H. destruct (_extract h) as [[fn value]|e] eqn:He.
  - rewrite (score_step_term g score h fn value He) in H.
    destruct (code_term g fn value) as [term|e] eqn:Ht; [| done].
    injection H as <-. by exists fn, value, term.
  - unfold score_step in H. by rewrite He in H.
Qed.

(** The running total is never a negative zero. *)
Lemma score_loop_good (g : Globals) (hits : list hit) (score score' : spec_float) :
  not_neg_zero score → canonical_exp score →
  score_loop g score hits = Ok score' →
  not_neg_zero score' ∧ canonical_exp score'.
Proof.
  revert score. induction hits as [|h hits IH]; intros score Hz Hc; simpl.
  - by intros [= <-].
  - destruct (score_step g score h) as [score1|e] eqn:Hs; [| done]. simpl.
    apply score_step_inv in Hs as (fn & value & term & _ & Ht & ->).
    apply IH; apply add_good; try done; by eapply code_term_canonical.
Qed.

(** The term of a hit of value 0, or of a detector of score 0, is a
    zero. *)
Lemma code_term_neutral (g : Globals) (fn : string) (value : Z) :
  scores_small g → small value →
  value = 0 ∨ _base_score g fn value = 0 →
  ∃ s, code_term g fn value = Ok (S754_zero s).
Proof.
  intros Hg Hv Hzero. unfold code_term.
  destruct (float_of_int_small (Z.abs value)) as (x & Hx & Hxb);
    [unfold small in *; lia |].
  pose proof (div_hundred_le_pow2 31 x Hxb ltac:(lia)) as Hsb.
  unfold Py.int_div_float. rewrite Hx. simpl.
  unfold Py.float_truediv. change (F64.is_zero F64.hundred) with false. simpl.
  set (base := Z.abs (_base_score g fn value) * _).
  destruct (float_of_int_small base) as (y & Hy & Hyb).
  { subst base. pose proof (_lookup_bias_small g Hg fn value) as Hs.
    unfold small, _base_score in *. destruct (0 <? value); lia. }
  unfold Py.int_mul_float. rewrite Hy. simpl.
  destruct Hzero as [->|Hb].
  - change (Z.abs 0) with 0 in Hx. injection Hx as <-.
    change (F64.div (F64.of_Z 0) F64.hundred) with (S754_zero false).
    destruct y as [sy| | |sy my ey]; try done; eexists; reflexivity.
  - subst base. rewrite Hb in Hy. change (Z.abs 0 * _) with 0 in Hy.
    assert (y = S754_zero false) as -> by (destruct (0 <? value); by injection Hy).
    destruct (F64.div x F64.hundred) as [ss| | |ss ms es]; try done;
      eexists; reflexivity.
Qed.

(** X8: a hit of value 0, or of a detector whose score is 0 (a detector
    unknown to the table among them), does not change the total,
    wherever it stands in the list. *)
Theorem neutral_hit_keeps_total (g : Globals) (hits1 hits2 : list hit) (h : hit)
    (fn : string) (value : Z) :
  scores_small g → _extract h = Ok (fn, value) → small value →
  value = 0 ∨ _base_score g fn value = 0 →
  total_score_from_hits g (hits1 ++ h :: hits2)
  = total_score_from_hits g (hits1 ++ hits2).
Proof.
  intros Hg He Hv Hzero. unfold total_score_from_hits.
  rewrite !score_loop_app.
  destruct (score_loop g F64.zero hits1) as [score|e] eqn:H1; [| reflexivity].
  simpl. apply score_loop_good in H1 as [Hz Hc]; [| done | done].
  rewrite (score_step_term g score h fn value He).
  destruct (code_term_neutral g fn value Hg Hv Hzero) as [s ->]. simpl.
  by rewrite add_any_zero.
Qed.

Lemma neutral_hit_keeps_total_witness :
  scores_small Sample.globals
  ∧ _extract (HitMap (Sample.raw "CDLMARUBOZU" (PyInt 100))) = Ok ("CDLMARUBOZU"%string, 100)
  ∧ small 100
  ∧ (100 = 0 ∨ _base_score Sample.globals "CDLMARUBOZU" 100 = 0)
  ∧ total_score_from_hits Sample.globals
      ([HitMap (Sample.raw "CDLENGULFING" (PyInt 100))]
       ++ HitMap (Sample.raw "CDLMARUBOZU" (PyInt 100))
          :: [HitMap (Sample.raw "CDLHAMMER" (PyInt (-100)))])
    = total_score_from_hits Sample.globals
        ([HitMap (Sample.raw "CDLENGULFING" (PyInt 100))]
         ++ [HitMap (Sample.raw "CDLHAMMER" (PyInt (-100)))]).
Proof.
  split; [exact sample_scores_small |]. split; [reflexivity |].
  split; [unfold small; simpl; lia |]. split; [right; reflexivity |].
  apply (neutral_hit_keeps_total Sample.globals
           [HitMap (Sample.raw "CDLENGULFING" (PyInt 100))]
           [HitMap (Sample.raw "CDLHAMMER" (PyInt (-100)))]
           (HitMap (Sample.raw "CDLMARUBOZU" (PyInt 100))) "CDLMARUBOZU" 100);
    [exact sample_scores_small | reflexivity | unfold small; simpl; lia
    | right; reflexivity].
Defined.

Lemma sign_or_nan_zero (s : bool) (x : spec_float) :
  sign_or_nan s x ∨ zero_or_nan x → sign_or_zero s x.
Proof. destruct x; simpl; tauto. Qed.

Lemma add_sign_or_zero (s : bool) (x y : spec_float) :
  sign_or_zero s x → sign_or_zero s y → sign_or_zero s (F64.add x y).
Proof.
  destruct x as [sx|sx| |sx mx ex], y as [sy|sy| |sy my ey]; simpl;
    try done; try (intros _ ->; reflexivity); try (intros -> _; reflexivity).
  - intros _ _. unfold F64.add. by destruct sx, sy.
  - intros -> ->. unfold F64.add. by destruct s.
  - intros -> ->. unfold F64.add, SFadd.
    destruct (shl_align mx ex _) as [mx' ex'], (shl_align my ey _) as [my' ey'].
    simpl fst. apply sign_or_nan_zero. left.
    destruct s; simpl; unfold binary_normalize, binary_round;
      destruct (shl_align _ _ _); apply binary_round_aux_sign.
Qed.

(** The term of a hit has the direction of its value. *)
Lemma code_term_sign (g : Globals) (fn : string) (value : Z) (term : spec_float) :
  code_term g fn value = Ok term → sign_or_zero (negb (0 <? value)) term.
Proof.
  unfold code_term, Py.int_div_float, Py.int_mul_float, Py.float_truediv.
  change (F64.is_zero F64.hundred) with false.
  set (base := Z.abs (_base_score g fn value) * _).
  destruct (Py.float_of_int (Z.abs value)) as [x|e] eqn:Hx; [| done]. simpl.
  destruct (Py.float_of_int base) as [y|e] eqn:Hy; [| done]. simpl.
  intros [= <-].
  assert (sign_or_nan false (F64.div x F64.hundred)) as Hs.
  { destruct (float_of_int_sign _ _ Hx) as [[H0 Hz]|[Hne Hsx]].
    - rewrite H0 in Hx. injection Hx as <-. reflexivity.
    - replace (Z.abs value <? 0) with false in Hsx by (symmetry; apply Z.ltb_ge; lia).
      destruct x as [sx|sx| |sx mx ex]; simpl in Hsx; subst.
      + reflexivity.
      + unfold Py.float_of_int in Hx. by destruct (F64.of_Z (Z.abs value)).
      + exact I.
      + apply (div_finite_sign false false). }
  destruct (float_of_int_sign _ _ Hy) as [[_ Hz]|[Hne Hsy]].
  - apply sign_or_nan_zero. right. by apply mul_zero_l.
  - apply sign_or_nan_zero. left.
    replace (negb (0 <? value)) with (xorb (base <? 0) false).
    + by apply mul_sign.
    + rewrite xorb_false_r. subst base.
      destruct (Z.ltb_spec 0 value), (Z.ltb_spec (Z.abs (_base_score g fn value) * 1) 0),
        (Z.ltb_spec (Z.abs (_base_score g fn value) * -1) 0); simpl; try reflexivity; lia.
Qed.

Lemma score_loop_sign (g : Globals) (s : bool) (hits : list hit)
    (score score' : spec_float) :
  (∀ h fn value, h ∈ hits → _extract h = Ok (fn, value) → negb (0 <? value) = s) →
  sign_or_zero s score →
  score_loop g score hits = Ok score' → sign_or_zero s score'.
Proof.
  revert score. induction hits as [|h hits IH]; intros score Hall Hs; simpl.
  - by intros [= <-].
  - destruct (score_step g score h) as [score1|e] eqn:H1; [| done]. simpl.
    apply score_step_inv in H1 as (fn & value & term & He & Ht & ->).
    apply IH.
    + intros h' fn' value' Hin. apply Hall. by apply list_elem_of_further.
    + apply add_sign_or_zero; [done |].
      rewrite <- (Hall h fn value (list_elem_of_here _ _) He).
      by eapply code_term_sign.
Qed.

Lemma nearest_int_nonneg (m : positive) (e : Z) : 0 ≤ F64.nearest_int m e.
Proof.
  unfold F64.nearest_int. destruct e as [|p|p]; try lia.
  unfold F64.round_half_even.
  assert (0 ≤ Z.pos m / 2 ^ Z.pos p) by (apply Z.div_pos; lia).
  destruct (_ ?= _); [destruct (Z.even _) | |]; lia.
Qed.

Lemma round_sign (s : bool) (x : spec_float) (r : Z) :
  sign_or_zero s x → Py.round x = Ok r → if s then r ≤ 0 else 0 ≤ r.
Proof.
  destruct x as [sx|sx| |sx mx ex]; simpl; try done.
  - intros _ [= <-]. by destruct s.
  - intros -> [= <-]. pose proof (nearest_int_nonneg mx ex).
    unfold F64.with_sign. destruct s; lia.
Qed.

(** X9: when every hit has a positive value the total is 0 or more, and
    when every hit has a value of 0 or less the total is 0 or less (for a
    clip range that holds 0): hits of one direction never give a total
    of the other direction. *)
Theorem total_score_sign (g : Globals) (hits : list hit) (total : Z) :
  CLIP_MIN g ≤ 0 ≤ CLIP_MAX g →
  total_score_from_hits g hits = Ok total →
  ((∀ h fn value, h ∈ hits → _extract h = Ok (fn, value) → 0 < value) → 0 ≤ total)
  ∧ ((∀ h fn value, h ∈ hits → _extract h = Ok (fn, value) → value ≤ 0) → total ≤ 0).
Proof.
  intros Hclip. unfold total_score_from_hits.
  destruct (score_loop g F64.zero hits) as [score|e] eqn:Hloop; [| done]. simpl.
  destruct (Py.round score) as [r|e] eqn:Hr; [| done]. simpl. intros [= <-].
  split; intros Hall.
  - assert (sign_or_zero false score) as Hs.
    { eapply (score_loop_sign g false); [| | exact Hloop]; [| done].
      intros h fn value Hin He. specialize (Hall h fn value Hin He).
      by destruct (Z.ltb_spec 0 value); [| lia]. }
    pose proof (round_sign false score r Hs Hr) as H. simpl in H. lia.
  - assert (sign_or_zero true score) as Hs.
    { eapply (score_loop_sign g true); [| | exact Hloop]; [| done].
      intros h fn value Hin He. specialize (Hall h fn value Hin He).
      by destruct (Z.ltb_spec 0 value); [lia |]. }
    pose proof (round_sign true score r Hs Hr) as H. simpl in H. lia.
Qed.

Lemma total_score_sign_witness :
  CLIP_MIN Sample.globals ≤ 0 ≤ CLIP_MAX Sample.globals
  ∧ total_score_from_hits Sample.globals
      [HitMap (Sample.raw "CDLHAMMER" (PyInt 100));
       HitMap (Sample.raw "CDLENGULFING" (PyInt 200))] = Ok 5
  ∧ (∀ h fn value,
       h ∈ [HitMap (Sample.raw "CDLHAMMER" (PyInt 100));
            HitMap (Sample.raw "CDLENGULFING" (PyInt 200))] →
       _extract h = Ok (fn, value) → 0 < value)
  ∧ 0 ≤ 5.
Proof.
  assert (∀ h fn value,
            h ∈ [HitMap (Sample.raw "CDLHAMMER" (PyInt 100));
                 HitMap (Sample.raw "CDLENGULFING" (PyInt 200))] →
            _extract h = Ok (fn, value) → 0 < value) as Hall.
  { intros h fn value Hin He.
    apply elem_of_cons in Hin as [->|Hin];
      [| apply list_elem_of_singleton in Hin as ->];
      injection He as _ <-; lia. }
  split; [simpl; lia |]. split; [vm_compute; reflexivity |]. split; [exact Hall |].
  apply (total_score_sign Sample.globals
           [HitMap (Sample.raw "CDLHAMMER" (PyInt 100));
            HitMap (Sample.raw "CDLENGULFING" (PyInt 200))] 5);
    [simpl; lia | vm_compute; reflexivity | exact Hall].
Defined.

(** ** Totals of multiples of 100 *)

Lemma of_Z_53_finite (z : Z) : Z.abs z < 2 ^ 53 → F64.is_finite (F64.of_Z z) = true.
Proof. intros Hz. eapply le_pow2_finite, (of_Z_le_pow2 z 53); lia. Qed.

Lemma float_of_int_53 (z : Z) :
  Z.abs z < 2 ^ 53 → Py.float_of_int z = Ok (F64.of_Z z).
Proof. intros Hz. by apply float_of_int_finite, of_Z_53_finite. Qed.

Lemma of_Z_not_neg_zero (z : Z) : not_neg_zero (F64.of_Z z).
Proof.
  destruct (Z.eq_dec z 0) as [->|Hz]; [done |].
  pose proof (of_Z_number z Hz) as H. intros E. by rewrite E in H.
Qed.

Lemma hundred_eq : F64.hundred = S754_finite false 7036874417766400 (-46).
Proof. reflexivity. Qed.

(** [float(100 * k) / 100.0] is the float of [k]. *)
Lemma div_hundred_exact (k : Z) :
  0 ≤ k → 100 * k < 2 ^ 53 →
  F64.div (F64.of_Z (100 * k)) F64.hundred = F64.of_Z k.
Proof.
  intros Hk Hb. destruct (Z.eq_dec k 0) as [->|Hk0]; [reflexivity |].
  destruct (of_Z_exact (100 * k)) as [-> _]; [lia |].
  destruct (of_Z_exact k) as [-> _]; [lia |].
  pose proof (Zdigits2_53 (100 * k) ltac:(lia)) as Hd.
  rewrite hundred_eq. unfold exact_float at 1.
  pose proof (pow2_pos (53 - Zdigits2 (100 * k)) ltac:(lia)) as Hp.
  apply div_exact; try lia.
  rewrite Z2Pos.id by nia. do 2 f_equal. lia.
Qed.

Section ExactTotal.

Context (g : Globals).

(** The term of a hit whose value is a multiple of 100 is added to an
    integer total without rounding. *)
Lemma code_term_exact (fn : string) (value : Z) :
  scores_convertible g →
  (100 | value) → Z.abs value < 2 ^ 53 → Z.abs (int_term g fn value) < 2 ^ 53 →
  ∃ term, code_term g fn value = Ok term
    ∧ ∀ s, Z.abs s < 2 ^ 53 → Z.abs (s + int_term g fn value) < 2 ^ 53 →
           F64.add (F64.of_Z s) term = F64.of_Z (s + int_term g fn value).
Proof.
  intros Hg [q Hq] Hv. unfold int_term, code_term.
  set (base := Z.abs (_base_score g fn value) * (if 0 <? value then 1 else -1)).
  assert (Z.abs value / 100 = Z.abs q) as Hk
    by (rewrite Hq, Z.abs_mul; apply Z.div_mul; lia).
  rewrite Hk. intros Hterm.
  assert (Z.abs value = 100 * Z.abs q) as Habs by lia.
  unfold Py.int_div_float, Py.float_truediv.
  rewrite float_of_int_53 by lia. simpl.
  change (F64.is_zero F64.hundred) with false. simpl.
  rewrite Habs, div_hundred_exact by lia.
  unfold Py.int_mul_float.
  assert (F64.is_finite (F64.of_Z base) = true) as Hfin.
  { subst base. unfold _base_score.
    pose proof (_lookup_bias_convertible g fn value Hg) as H.
    destruct (0 <? value).
    - by rewrite Z.mul_1_r, of_Z_finite_abs.
    - replace (Z.abs (BiasEntry.score (_lookup_bias g fn value)) * -1)
        with (- Z.abs (BiasEntry.score (_lookup_bias g fn value))) by lia.
      by rewrite of_Z_finite_opp, of_Z_finite_abs. }
  rewrite (float_of_int_finite base Hfin). simpl.
  eexists. split; [reflexivity |]. intros s Hs Hsum.
  destruct (Z.eq_dec (Z.abs q) 0) as [Hq0|Hq0].
  - rewrite Hq0, Z.mul_0_r, Z.add_0_r.
    change (F64.of_Z 0) with (S754_zero false).
    assert (∃ sg, F64.mul (F64.of_Z base) (S754_zero false) = S754_zero sg) as [sg ->].
    { destruct (F64.of_Z base); try done; eexists; reflexivity. }
    apply add_any_zero, of_Z_not_neg_zero.
  - destruct (Z.eq_dec base 0) as [Hb0|Hb0].
    + rewrite Hb0, Z.mul_0_l, Z.add_0_r.
      destruct (of_Z_exact (Z.abs q)) as [-> _]; [nia |].
      change (F64.mul (F64.of_Z 0) _) with (S754_zero false).
      apply add_any_zero, of_Z_not_neg_zero.
    + rewrite mul_exact by (done || lia). by apply add_exact.
Qed.

Lemma score_loop_exact (hits : list hit) (pairs : list (string * Z)) :
  scores_convertible g →
  Forall2 (λ h p, _extract h = Ok p) hits pairs →
  Forall (λ p : string * Z, (100 | p.2) ∧ Z.abs p.2 < 2 ^ 53) pairs →
  ∀ s, Z.abs s + int_mass g pairs < 2 ^ 53 →
       score_loop g (F64.of_Z s) hits = Ok (F64.of_Z (s + int_sum g pairs)).
Proof.
  intros Hg Hext. induction Hext as [|h [fn value] hits pairs He _ IH];
    intros Hall s Hmass; simpl.
  - by rewrite Z.add_0_r.
  - apply Forall_cons in Hall as [[Hdiv Hv] Hall]. simpl in *.
    rewrite (score_step_term g (F64.of_Z s) h fn value He).
    assert (0 ≤ int_mass g pairs) as Hnn.
    { clear. induction pairs as [|p ps IHp]; simpl; lia. }
    destruct (code_term_exact fn value Hg Hdiv Hv ltac:(lia)) as (term & -> & Hadd).
    simpl. rewrite Hadd by lia. rewrite IH by (done || lia).
    do 2 f_equal. lia.
Qed.

(** X10: when every value is a multiple of 100, as the outputs of the
    backend are, and the magnitudes of the terms add up to less than
    2^53, no float rounds: the total is the clamped integer sum of
    |score| * (±1) * |value| / 100 over the hits. *)
Theorem total_score_exact (hits : list hit) (pairs : list (string * Z)) :
  scores_convertible g →
  Forall2 (λ h p, _extract h = Ok p) hits pairs →
  Forall (λ p : string * Z, (100 | p.2) ∧ Z.abs p.2 < 2 ^ 53) pairs →
  int_mass g pairs < 2 ^ 53 →
  total_score_from_hits g hits
  = Ok (Z.max (CLIP_MIN g) (Z.min (CLIP_MAX g) (int_sum g pairs))).
Proof.
  intros Hg Hext Hall Hmass. unfold total_score_from_hits.
  change F64.zero with (F64.of_Z 0).
  rewrite (score_loop_exact hits pairs Hg Hext Hall 0) by (simpl; lia).
  simpl. rewrite round_exact; [reflexivity |].
  clear -Hmass. revert Hmass.
  assert (Z.abs (int_sum g pairs) ≤ int_mass g pairs); [| lia].
  induction pairs as [|p ps IH]; simpl; lia.
Qed.

End ExactTotal.

Lemma total_score_exact_witness :
  scores_convertible Sample.globals
  ∧ Forall2 (λ h p, _extract h = Ok p) Sample.scenario_a Sample.scenario_a_pairs
  ∧ Forall (λ p : string * Z, (100 | p.2) ∧ Z.abs p.2 < 2 ^ 53) Sample.scenario_a_pairs
  ∧ int_mass Sample.globals Sample.scenario_a_pairs < 2 ^ 53
  ∧ total_score_from_hits Sample.globals Sample.scenario_a
    = Ok (Z.max (CLIP_MIN Sample.globals)
            (Z.min (CLIP_MAX Sample.globals)
               (int_sum Sample.globals Sample.scenario_a_pairs))).
Proof.
  assert (Forall (λ p : string * Z, (100 | p.2) ∧ Z.abs p.2 < 2 ^ 53)
            Sample.scenario_a_pairs) as Hall.
  { repeat constructor; simpl; try lia;
      [exists 1 | exists (-1) | exists 2]; reflexivity. }
  assert (Forall2 (λ h p, _extract h = Ok p) Sample.scenario_a Sample.scenario_a_pairs)
    as Hext by (repeat constructor).
  split; [exact sample_scores_convertible |]. split; [exact Hext |].
  split; [exact Hall |]. split; [vm_compute; reflexivity |].
  apply (total_score_exact Sample.globals Sample.scenario_a Sample.scenario_a_pairs);
    [exact sample_scores_convertible | exact Hext | exact Hall | vm_compute; reflexivity].
Defined.

(** ** Enriched hits of multiples of 100 *)

(** [round(x, 2)] keeps an integer. *)
Lemma round2_exact (z : Z) :
  100 * Z.abs z < 2 ^ 53 → Py.round2 (F64.of_Z z) = F64.of_Z z.
Proof.
  intros Hz. destruct (Z.eq_dec z 0) as [->|Hne]; [reflexivity |].
  rewrite of_Z_exact_sign by (done || lia).
  pose proof (Zdigits2_53 (Z.abs z) ltac:(lia)) as Hd.
  unfold exact_float at 1. unfold Py.round2.
  set (d := Zdigits2 (Z.abs z)) in *.
  pose proof (pow2_pos (53 - d) ltac:(lia)) as Hp.
  assert (F64.nearest_int (100 * Z.to_pos (Z.abs z * 2 ^ (53 - d))) (d - 53)
          = 100 * Z.abs z) as ->.
  { unfold F64.nearest_int. rewrite Pos2Z.inj_mul, Z2Pos.id by nia.
    destruct (d - 53) as [|p|p] eqn:Hdp; try lia.
    - replace (53 - d) with 0 by lia. lia.
    - replace (53 - d) with (Z.pos p) by lia.
      unfold F64.round_half_even.
      rewrite Z.mul_assoc, Z.div_mul, Z.mod_mul by lia.
      destruct (Z.compare_spec (2 * 0) (2 ^ Z.pos p)) as [H'|H'|H']; lia. }
  destruct (100 * Z.abs z) as [|q|q] eqn:Hq; try lia.
  rewrite hundred_eq. apply div_exact; lia.
Qed.

(** [100 * k / 100], an int by an int, is the float of [k]. *)
Lemma int_truediv_exact (k : Z) :
  0 < k → 100 * k < 2 ^ 53 → Py.int_truediv (100 * k) 100 = Ok (F64.of_Z k).
Proof.
  intros Hk Hb. unfold Py.int_truediv.
  destruct (100 * k) as [|a|a] eqn:Ha; try lia.
  change (Z.pos a <? 0) with false. change (100 <? 0) with false.
  change (Z.to_pos (Z.abs (Z.pos a))) with a.
  change (Z.to_pos (Z.abs 100)) with 100%positive.
  rewrite (div_exact false a 100 0 0 k) by (reflexivity || lia).
  destruct (of_Z_exact k) as [-> _]; [lia |]. reflexivity.
Qed.

Lemma enrich_hit_exact (g : Globals) (at_ : option pydate) (raw : RawHit)
    (fn : string) (value : Z) :
  let info := _lookup_bias g fn value in
  let b := BiasEntry.score info in
  let k := Z.abs value / 100 in
  _extract (HitMap raw) = Ok (fn, value) →
  (100 | value) → value ≠ 0 → 100 * k * Z.max 1 (Z.abs b) < 2 ^ 53 →
  enrich_hit g at_ raw
  = Ok (PatternHit.mk fn value (Some (F64.of_Z k)) (Some b) (Some (F64.of_Z (b * k)))
          (BiasEntry.variant info) (BiasEntry.english info)
          (BiasEntry.japanese info) (BiasEntry.typical info)
          (BiasEntry.next_move info) (BiasEntry.description info) at_).
Proof.
  cbv zeta. intros He [q Hq] Hv Hb. unfold enrich_hit. rewrite He. simpl.
  assert (Z.abs value / 100 = Z.abs q) as Hk
    by (rewrite Hq, Z.abs_mul; apply Z.div_mul; lia).
  rewrite Hk in *.
  destruct (Z.eqb_spec value 0) as [|_]; [done |].
  replace (Z.abs value) with (100 * Z.abs q) by lia.
  rewrite int_truediv_exact by lia. simpl.
  set (b := BiasEntry.score (_lookup_bias g fn value)) in *.
  unfold Py.int_mul_float. rewrite float_of_int_53 by nia. simpl.
  do 3 f_equal.
  destruct (Z.eq_dec b 0) as [->|Hb0].
  - destruct (of_Z_exact (Z.abs q)) as [-> _]; [lia |]. reflexivity.
  - rewrite mul_exact by (done || nia). apply round2_exact.
    rewrite Z.abs_mul. nia.
Qed.

(** X11: for a hit whose value is a multiple of 100 other than 0, the
    strength is the integer |value| / 100 and the weighted score the
    integer score * |value| / 100, as floats without rounding error (the
    magnitudes being below 2^53). The weighted score has the sign of the
    score of the table: the direction of the value is not applied. *)
Theorem enrich_hits_exact (g : Globals) (hits : list RawHit) (at_ : option pydate)
    (enriched : list PatternHit.t) (p : PatternHit.t) :
  enrich_hits g hits at_ = Ok enriched → p ∈ enriched →
  let b := BiasEntry.score (_lookup_bias g (PatternHit.fn p) (PatternHit.value p)) in
  let k := Z.abs (PatternHit.value p) / 100 in
  (100 | PatternHit.value p) → PatternHit.value p ≠ 0 →
  100 * k * Z.max 1 (Z.abs b) < 2 ^ 53 →
  PatternHit.strength p = Some (F64.of_Z k)
  ∧ PatternHit.base_score p = Some b
  ∧ PatternHit.weighted_score p = Some (F64.of_Z (b * k))
  ∧ PatternHit.date p = at_.
Proof.
  intros Hen Hin. cbv zeta. intros Hdiv Hv Hb.
  apply enrich_hits_Forall2 in Hen.
  assert (∃ raw, enrich_hit g at_ raw = Ok p) as [raw Hp].
  { clear -Hen Hin. induction Hen as [|raw p' hits enriched Hp _ IH].
    - by apply elem_of_nil in Hin.
    - apply elem_of_cons in Hin as [->|Hin]; [by exists raw | by apply IH]. }
  destruct (enrich_hit_weighted g at_ raw p Hp) as (He & _).
  rewrite (enrich_hit_exact g at_ raw _ _ He Hdiv Hv Hb) in Hp.
  injection Hp as <-. by simpl.
Qed.

Lemma enrich_hits_exact_witness :
  enrich_hits Sample.globals [Sample.hammer_down] None = Ok [Sample.hammer_down_enriched]
  ∧ Sample.hammer_down_enriched ∈ [Sample.hammer_down_enriched]
  ∧ (100 | PatternHit.value Sample.hammer_down_enriched)
  ∧ PatternHit.value Sample.hammer_down_enriched ≠ 0
  ∧ 100 * (Z.abs (PatternHit.value Sample.hammer_down_enriched) / 100)
    * Z.max 1 (Z.abs (BiasEntry.score
                        (_lookup_bias Sample.globals
                           (PatternHit.fn Sample.hammer_down_enriched)
                           (PatternHit.value Sample.hammer_down_enriched)))) < 2 ^ 53
  ∧ PatternHit.strength Sample.hammer_down_enriched = Some (F64.of_Z 1)
  ∧ PatternHit.base_score Sample.hammer_down_enriched = Some 2
  ∧ PatternHit.weighted_score Sample.hammer_down_enriched = Some (F64.of_Z 2)
  ∧ PatternHit.date Sample.hammer_down_enriched = None.
Proof.
  split; [vm_compute; reflexivity |]. split; [apply list_elem_of_here |].
  split; [exists (-1); reflexivity |]. split; [discriminate |].
  split; [vm_compute; reflexivity |].
  apply (enrich_hits_exact Sample.globals [Sample.hammer_down] None
           [Sample.hammer_down_enriched] Sample.hammer_down_enriched);
    [vm_compute; reflexivity | apply list_elem_of_here | exists (-1); reflexivity
    | discriminate | vm_compute; reflexivity].
Defined.

(** ** The scoring of a detection *)

Lemma dict_set_elem {V} (d : list (string * V)) (k : string) (v : V) (kv : string * V) :
  kv ∈ dict_set d k v → kv ∈ d ∨ kv = (k, v).
Proof.
  induction d as [|[k' v'] d IH]; simpl.
  - intros H. apply list_elem_of_singleton in H. by right.
  - destruct (String.eqb_spec k' k) as [->|Hne]; intros H;
      apply elem_of_cons in H as [->|H].
    + by right.
    + left. by apply list_elem_of_further.
    + left. apply list_elem_of_here.
    + destruct (IH H) as [H'|H']; [left; by apply list_elem_of_further | by right].
Qed.

Lemma py_getitem_elem {A} (l : list A) (i : Z) (x : A) :
  py_getitem l i = Ok x → x ∈ l.
Proof.
  unfold py_getitem. destruct (_ && _); [| done].
  destruct (l !! _) as [y|] eqn:E; [| done].
  intros [= <-]. by eapply list_elem_of_lookup_2.
Qed.

Lemma clamp_range (lo hi x : Z) : lo ≤ hi → lo ≤ Z.max lo (Z.min hi x) ≤ hi.
Proof. lia. Qed.

Section Detection.

Context {cell index : Type} (pd : pandas (cell:=cell) (index:=index)).
Context (ta : option (talib (cell:=cell))).

(** Every series of the dictionary is the output of a call of the
    backend. *)
Lemma series_fold_outputs (o h l c : list cell) (functions : list string)
    (acc : list (string * list pyobj)) (fn : string) (out : list pyobj) :
  (fn, out) ∈ foldl (λ m fn,
                       match ta_call ta fn o h l c with
                       | TaSeries out => dict_set m fn out
                       | TaRaises | TaOther => m
                       end) acc functions →
  (fn, out) ∈ acc ∨ ta_call ta fn o h l c = TaSeries out.
Proof.
  revert acc. induction functions as [|fn' fs IH]; intros acc; simpl; [by left |].
  intros H. apply IH in H as [H|H]; [| by right].
  destruct (ta_call ta fn' o h l c) as [| |out'] eqn:E; [by left | by left |].
  apply dict_set_elem in H as [H|[= -> ->]]; [by left | by right].
Qed.

Lemma _compute_pattern_series_outputs (df : DataFrame) (patterns : option (list string))
    (fn : string) (out : list pyobj) :
  (fn, out) ∈ series_of pd ta df patterns →
  ∃ o h l c, ta_call ta fn o h l c = TaSeries out.
Proof.
  unfold series_of, _compute_pattern_series.
  destruct (dict_get _ "open") as [open_col|]; [| by intros H; apply elem_of_nil in H].
  destruct (dict_get _ "high") as [high_col|]; [| by intros H; apply elem_of_nil in H].
  destruct (dict_get _ "low") as [low_col|]; [| by intros H; apply elem_of_nil in H].
  destruct (dict_get _ "close") as [close_col|]; [| by intros H; apply elem_of_nil in H].
  match goal with
  | |- context [mbind _ ?dates] =>
      destruct dates as [ds|e]; [| by intros H; apply elem_of_nil in H]
  end.
  simpl. intros H. apply series_fold_outputs in H as [H|H].
  - by apply elem_of_nil in H.
  - eauto.
Qed.

(** The hits of a backend with small outputs are small. *)
Lemma detect_with_history_small (df : DataFrame) (lookback : Z)
    (patterns : option (list string)) (hits_today : list RawHit)
    (history : list HistoryEntry) :
  small_outputs ta →
  detect_with_history pd ta df lookback patterns = Ok (hits_today, history) →
  Forall (Forall (λ raw, small_hit (HitMap raw))) (hit_lists hits_today history).
Proof.
  intros Hsmall Hrun.
  destruct (detect_with_history_hits pd ta df lookback patterns _ _ Hrun)
    as [Htoday Hhist].
  assert (∀ idx, Forall (λ raw, small_hit (HitMap raw))
                   (hits_at (series_of pd ta df patterns) idx))
    as Hat.
  { intros idx. eapply Forall_impl; [apply hits_at_nonzero |]. simpl.
    intros raw (fn & series & value & Hin & Hget & _ & ->).
    exists fn, value. split; [reflexivity |].
    apply _compute_pattern_series_outputs in Hin as (o & h & l & c & Hcall).
    apply bind_Ok in Hget as (x & Hx & Hint).
    eapply Hsmall; [exact Hcall | by eapply py_getitem_elem | exact Hint]. }
  unfold hit_lists. constructor.
  - destruct Htoday as [->|[idx ->]]; [constructor | apply Hat].
  - apply Forall_fmap. eapply Forall_impl; [exact Hhist |]. simpl.
    intros e [idx ->]. apply Hat.
Qed.

End Detection.

Section Summary.

Context (g : Globals) (date_of : Timestamp → pydate).

(** The total of enriched hits is that of the raw hits. *)
Lemma enriched_total (hits : list RawHit) (at_ : option pydate)
    (enriched : list PatternHit.t) :
  enrich_hits g hits at_ = Ok enriched →
  total_score_from_hits g (HitObj <$> enriched)
  = total_score_from_hits g (HitMap <$> hits).
Proof.
  intros H. apply enrich_hits_Forall2 in H.
  unfold total_score_from_hits. f_equal. apply score_loop_ext.
  induction H as [|raw p hits enriched Hp _ IH]; csimpl; constructor; [| exact IH].
  destruct (enrich_hit_weighted g at_ raw p Hp) as [He _]. by rewrite He.
Qed.

Lemma total_small (hits : list hit) :
  scores_small g → Forall small_hit hits →
  ∃ total, total_score_from_hits g hits = Ok total
           ∧ Z.max (CLIP_MIN g) (Z.min (CLIP_MAX g) total) = total.
Proof.
  intros Hg Hhits. unfold total_score_from_hits.
  destruct (score_loop_small g Hg hits Hhits F64.zero) as (x & -> & Hx); [done |].
  simpl. apply le_pow2_finite, round_returns in Hx as [r ->]. simpl.
  eexists. split; [reflexivity |]. lia.
Qed.

(** The enrichment and the total of small hits. *)
Lemma enrich_and_total_small (hits : list RawHit) (at_ : option pydate) :
  scores_small g → Forall (λ raw, small_hit (HitMap raw)) hits →
  ∃ enriched total,
    enrich_hits g hits at_ = Ok enriched
    ∧ length enriched = length hits
    ∧ total_score_from_hits g (HitObj <$> enriched) = Ok total
    ∧ total_score_from_hits g (HitMap <$> hits) = Ok total
    ∧ Z.max (CLIP_MIN g) (Z.min (CLIP_MAX g) total) = total.
Proof.
  intros Hg Hhits.
  destruct (enrich_hits_small g Hg at_ hits Hhits) as [enriched Hen].
  destruct (total_small (HitMap <$> hits) Hg) as (total & Ht & Hc);
    [by apply Forall_fmap |].
  exists enriched, total. split; [done |].
  split; [symmetry; eapply Forall2_length; by apply enrich_hits_Forall2 |].
  by rewrite (enriched_total hits at_ enriched Hen).
Qed.

Lemma history_entries_scored (history_raw : list HistoryEntry)
    (history : list HitTimelineEntry.t) :
  history_entries g date_of history_raw = Ok history →
  Forall2 (entry_scored g date_of) history_raw history.
Proof.
  revert history. induction history_raw as [|raw rest IH]; intros history; simpl.
  - intros [= <-]. constructor.
  - destruct (enrich_hits g _ _) as [hits_list|e] eqn:Hen; [| done]. simpl.
    destruct (total_score_from_hits g _) as [total|e] eqn:Ht; [| done]. simpl.
    destruct (history_entries g date_of rest) as [entries|e]; [| done]. simpl.
    intros [= <-]. constructor; [| by apply IH].
    split; [done |]. split; [done |]. simpl.
    by rewrite <- (enriched_total _ _ _ Hen).
Qed.

Lemma history_entries_small (history_raw : list HistoryEntry) :
  scores_small g →
  Forall (λ raw, Forall (λ h, small_hit (HitMap h)) (entry_hits raw)) history_raw →
  returns (history_entries g date_of history_raw).
Proof.
  intros Hg. induction 1 as [|raw rest Hraw _ IH]; simpl; [by eexists |].
  destruct (enrich_and_total_small (entry_hits raw) (Some (date_of (entry_date raw)))
              Hg Hraw) as (enriched & total & Hen & _ & Ht & _).
  rewrite Hen. simpl. rewrite Ht. simpl. destruct IH as [entries ->]. by eexists.
Qed.

End Summary.

Section Pipeline.

Context {cell index : Type} (pd : pandas (cell:=cell) (index:=index)).
Context (ta : option (talib (cell:=cell))).
Context (g : Globals) (date_of : Timestamp → pydate).

(** X12: the scoring of a detection does not fail. For a table with
    scores that fit 32 bits and a backend whose series hold integers that
    fit 32 bits, whenever [detect_with_history] returns, the enrichment
    and the totals that [analyze_symbol] computes from its result return:
    the score is the total of the raw hits of today, every entry of the
    history is the enrichment of the hits of its day at its date with the
    total of these hits, and every total is in the clip range. *)
Theorem detection_is_scored (df : DataFrame) (lookback : Z)
    (patterns : option (list string)) (hits_raw : list RawHit)
    (history_raw : list HistoryEntry) :
  scores_small g → small_outputs ta → CLIP_MIN g ≤ CLIP_MAX g →
  detect_with_history pd ta df lookback patterns = Ok (hits_raw, history_raw) →
  ∃ hits score history,
    score_detection g date_of hits_raw history_raw = Ok (hits, score, history)
    ∧ total_score_from_hits g (HitMap <$> hits_raw) = Ok score
    ∧ CLIP_MIN g ≤ score ≤ CLIP_MAX g
    ∧ Forall2 (entry_scored g date_of) history_raw history
    ∧ Forall (λ e, CLIP_MIN g ≤ HitTimelineEntry.total_score e ≤ CLIP_MAX g) history.
Proof.
  intros Hg Hsmall Hclip Hrun.
  pose proof (detect_with_history_small pd ta df lookback patterns _ _
                Hsmall Hrun) as Hall.
  unfold hit_lists in Hall. apply Forall_cons in Hall as [Htoday Hhist].
  rewrite Forall_fmap in Hhist.
  destruct (enrich_and_total_small g hits_raw None Hg Htoday)
    as (hits & score & Hen & _ & Ht & Ht' & Hc).
  destruct (history_entries_small g date_of history_raw Hg Hhist) as [history Hh].
  exists hits, score, history.
  split; [unfold score_detection; rewrite Hen; simpl; rewrite Ht; simpl;
          by rewrite Hh |].
  split; [done |].
  split; [rewrite <- Hc; by apply clamp_range |].
  pose proof (history_entries_scored g date_of _ _ Hh) as Hsc.
  split; [done |].
  clear Hh Hrun. revert Hhist.
  induction Hsc as [|raw e raws es (Hd & He & Hte) _ IH]; intros Hhist; constructor.
  - apply Forall_cons in Hhist as [Hraw _].
    destruct (total_small g (HitMap <$> entry_hits raw) Hg) as (t & Ht2 & Hc2);
      [by apply Forall_fmap |].
    rewrite Ht2 in Hte. injection Hte as <-. rewrite <- Hc2. by apply clamp_range.
  - apply IH. apply Forall_cons in Hhist as [_ Hrest]. exact Hrest.
Qed.

(** X13: the score of the summary is the score of today in the history.
    With a lookback of one day or more and hits today, the last entry of
    the history of the summary has the last date of the frame, the hits
    of today enriched at that date, and the score of the summary as its
    total. *)
Theorem today_score_is_last_entry (df : DataFrame) (lookback : Z)
    (patterns : option (list string)) (hits_raw : list RawHit)
    (history_raw : list HistoryEntry) (hits : list PatternHit.t) (score : Z)
    (history : list HitTimelineEntry.t) :
  1 ≤ lookback → hits_raw ≠ [] →
  detect_with_history pd ta df lookback patterns = Ok (hits_raw, history_raw) →
  score_detection g date_of hits_raw history_raw = Ok (hits, score, history) →
  ∃ d hits_list,
    last (dates_of pd ta df patterns) = Some d
    ∧ enrich_hits g hits_raw (Some (date_of d)) = Ok hits_list
    ∧ last history = Some (HitTimelineEntry.mk (Some (date_of d)) hits_list score).
Proof.
  intros Hlb Hne Hrun Hscore.
  destruct (last_entry_of_today pd ta df lookback patterns _ _ Hlb Hne Hrun)
    as (d & Hd & Hlast).
  unfold score_detection in Hscore.
  destruct (enrich_hits g hits_raw None) as [hits'|e] eqn:Hen; [| done].
  simpl in Hscore.
  destruct (total_score_from_hits g (HitObj <$> hits')) as [score'|e] eqn:Ht; [| done].
  simpl in Hscore.
  destruct (history_entries g date_of history_raw) as [history'|e] eqn:Hh; [| done].
  simpl in Hscore. injection Hscore as <- <- <-.
  rewrite (enriched_total g _ _ _ Hen) in Ht.
  pose proof (Forall2_last _ _ _ (history_entries_scored g date_of _ _ Hh)) as Hl.
  rewrite Hlast in Hl. inversion Hl as [raw e (Hde & Hhe & Hte) E1 E2|]; subst.
  simpl in *. rewrite Ht in Hte. injection Hte as Hte.
  exists d, (HitTimelineEntry.hits e). split; [done |].
  rewrite Hde in Hhe. split; [done |].
  f_equal. destruct e as [de he te]. simpl in *. by subst.
Qed.

End Pipeline.

Lemma int_of_str_raises (s : string) (e : exn) :
  Py.int_of_str s = Raise e → e = ValueError.
Proof.
  unfold Py.int_of_str.
  destruct (Py.utf8_decode s ≫= Py.transform) as [spelling|]; [| congruence].
  destruct (Py.max_str_digits <? Py.count_digits spelling); [congruence |].
  cbv zeta.
  match goal with
  | |- match ?parsed with _ => _ end = _ → _ => destruct parsed
  end; congruence.
Qed.

Lemma int_raises (value : pyobj) (e : exn) :
  Py.int value = Raise e →
  (e = OverflowError ∧ ∃ s, value = PyFloat (S754_infinity s))
  ∨ ((e = TypeError ∨ e = ValueError) ∧ ∀ s, value ≠ PyFloat (S754_infinity s)).
Proof.
  destruct value as [|z|x|s]; simpl; intros H.
  - right. split; [left; congruence | done].
  - done.
  - destruct x as [sx|sx| |sx mx ex]; simpl in H; try done.
    + left. split; [congruence | by exists sx].
    + right. split; [right; congruence | done].
  - right. split; [right; by apply int_of_str_raises in H | done].
Qed.

(** X14: [_safe_int] lets one error through. It raises exactly for an
    infinite float, and then an OverflowError; what [int] returns it
    returns; where [int] raises another error ([None], a NaN, a string
    that spells no integer) it gives the fallback. A string of decimal
    digits of any script spells an integer: the full-width digit five
    (U+FF15, the bytes EF BC 95) gives 5 and not the fallback. *)
Theorem _safe_int_raises (value : pyobj) (fallback : Z) :
  (raises (_safe_int value fallback) ↔ ∃ s, value = PyFloat (S754_infinity s))
  ∧ (∀ e, _safe_int value fallback = Raise e → e = OverflowError)
  ∧ (∀ z, Py.int value = Ok z → _safe_int value fallback = Ok z)
  ∧ (∀ e, Py.int value = Raise e → e ≠ OverflowError →
          _safe_int value fallback = Ok fallback)
  ∧ _safe_int PyNone fallback = Ok fallback
  ∧ _safe_int (PyFloat S754_nan) fallback = Ok fallback
  ∧ _safe_int (PyStr "12a") fallback = Ok fallback
  ∧ _safe_int (PyStr " -12 ") fallback = Ok (-12)
  ∧ _safe_int (PyStr (String (ascii_of_N 239) (String (ascii_of_N 188)
                        (String (ascii_of_N 149) EmptyString)))) fallback = Ok 5.
Proof.
  split; [| split; [| split; [| split]]].
  - split.
    + intros [e He]. unfold _safe_int in He.
      destruct (Py.int value) as [z|ex] eqn:E; [done |].
      apply int_raises in E as [[_ Hinf] | [[-> | ->] _]]; done.
    + intros [s ->]. by exists OverflowError.
  - intros e He. unfold _safe_int in He.
    destruct (Py.int value) as [z|ex] eqn:E; [done |].
    apply int_raises in E as [[-> _] | [[-> | ->] _]]; congruence.
  - intros z Hz. unfold _safe_int. by rewrite Hz.
  - intros e He Hne. unfold _safe_int. rewrite He.
    apply int_raises in He as [[-> _] | [[-> | ->] _]]; done.
  - repeat split; vm_compute; reflexivity.
Qed.

Lemma week_small_outputs : small_outputs (Some Week.backend).
Proof.
  intros fn o h l c out x value Hcall Hx Hint.
  unfold ta_call, Week.backend in Hcall. simpl in Hcall.
  destruct (String.eqb fn "CDLDOJI").
  - injection Hcall as <-. apply elem_of_zip_with in Hx as (a & b & -> & _).
    injection Hint as <-. unfold small. destruct (a =? b); simpl; lia.
  - destruct (String.eqb fn "CDLENGULFING"); [| done].
    injection Hcall as <-. apply elem_of_zip_with in Hx as (a & b & -> & _).
    injection Hint as <-. unfold small. destruct (b <? a); simpl; lia.
Qed.

Lemma detection_is_scored_witness :
  scores_small Sample.globals
  ∧ small_outputs (Some Week.backend)
  ∧ CLIP_MIN Sample.globals ≤ CLIP_MAX Sample.globals
  ∧ detect_with_history Sample.pd (Some Week.backend) Week.frame 3 None
    = Ok (Week.today, Week.history3)
  ∧ ∃ hits score history,
      score_detection Sample.globals Week.date_of Week.today Week.history3
      = Ok (hits, score, history)
      ∧ total_score_from_hits Sample.globals (HitMap <$> Week.today) = Ok score
      ∧ CLIP_MIN Sample.globals ≤ score ≤ CLIP_MAX Sample.globals
      ∧ Forall2 (entry_scored Sample.globals Week.date_of) Week.history3 history
      ∧ Forall (λ e, CLIP_MIN Sample.globals ≤ HitTimelineEntry.total_score e
                     ≤ CLIP_MAX Sample.globals) history.
Proof.
  split; [exact sample_scores_small |]. split; [exact week_small_outputs |].
  split; [simpl; lia |]. split; [vm_compute; reflexivity |].
  apply (detection_is_scored Sample.pd (Some Week.backend) Sample.globals
           Week.date_of Week.frame 3 None);
    [exact sample_scores_small | exact week_small_outputs | simpl; lia
    | vm_compute; reflexivity].
Defined.

Lemma today_score_is_last_entry_witness :
  1 ≤ 3 ∧ Week.today ≠ []
  ∧ detect_with_history Sample.pd (Some Week.backend) Week.frame 3 None
    = Ok (Week.today, Week.history3)
  ∧ score_detection Sample.globals Week.date_of Week.today Week.history3
    = Ok (Scored.summary.1.1, Scored.summary.1.2, Scored.summary.2)
  ∧ ∃ d hits_list,
      last (dates_of Sample.pd (Some Week.backend) Week.frame None) = Some d
      ∧ enrich_hits Sample.globals Week.today (Some (Week.date_of d)) = Ok hits_list
      ∧ last Scored.summary.2
        = Some (HitTimelineEntry.mk (Some (Week.date_of d)) hits_list
                  Scored.summary.1.2).
Proof.
  split; [lia |]. split; [discriminate |]. split; [vm_compute; reflexivity |].
  split; [vm_compute; reflexivity |].
  apply (today_score_is_last_entry Sample.pd (Some Week.backend) Sample.globals
           Week.date_of Week.frame 3 None Week.today Week.history3
           Scored.summary.1.1 Scored.summary.1.2 Scored.summary.2);
    [lia | discriminate | vm_compute; reflexivity | vm_compute; reflexivity].
Defined.

(** ** The columns that matter *)

Lemma cols_lookup_lower (columns : list string) (d : list (string * string))
    (key c : string) :
  dict_get (foldl (λ d c, dict_set d (Py.lower c) c) d columns) key = Some c →
  dict_get d key = Some c ∨ Py.lower c = key.
Proof.
  revert d. induction columns as [|c0 columns IH]; intros d; simpl; [by left |].
  intros H. apply IH in H as [H|H]; [| by right].
  rewrite dict_get_set in H.
  destruct (String.eqb_spec (Py.lower c0) key) as [E|E]; [| by left].
  injection H as <-. by right.
Qed.

Section SamePrices.

Context {cell index : Type} (pd : pandas (cell:=cell) (index:=index)).
Context (ta : option (talib (cell:=cell))).

Lemma same_prices_getitem (df1 df2 : DataFrame (cell:=cell) (index:=index)) (col : string) :
  same_prices df1 df2 → price_column col → df_getitem df1 col = df_getitem df2 col.
Proof.
  intros [_ Hrows] Hcol. unfold df_getitem.
  induction Hrows as [|r1 r2 rs1 rs2 [_ Hr] _ IH]; csimpl; [done |].
  by rewrite IH, (Hr col Hcol).
Qed.

Lemma same_prices_index (df1 df2 : DataFrame (cell:=cell) (index:=index)) :
  same_prices df1 df2 → row_index <$> df_rows df1 = row_index <$> df_rows df2.
Proof.
  intros [_ Hrows].
  induction Hrows as [|r1 r2 rs1 rs2 [Hi _] _ IH]; csimpl; [done |].
  by rewrite IH, Hi.
Qed.

Lemma same_prices_empty (df1 df2 : DataFrame (cell:=cell) (index:=index)) :
  same_prices df1 df2 → df_empty df1 = df_empty df2.
Proof.
  intros [Hc Hrows]. unfold df_empty. rewrite Hc.
  by destruct Hrows.
Qed.

Lemma same_prices_series (df1 df2 : DataFrame (cell:=cell) (index:=index))
    (patterns : option (list string)) :
  same_prices df1 df2 →
  _compute_pattern_series pd ta df1 patterns
  = _compute_pattern_series pd ta df2 patterns.
Proof.
  intros Hsame. pose proof Hsame as [Hc _]. unfold _compute_pattern_series.
  rewrite Hc.
  assert (∀ key c,
            key ∈ ["open"; "high"; "low"; "close"; "date"; "datetime"]%string →
            dict_get (foldl (λ d c, dict_set d (Py.lower c) c) [] (df_columns df2)) key
            = Some c →
            df_getitem df1 c = df_getitem df2 c) as Hget.
  { intros key c Hkey Hc'. apply same_prices_getitem; [done |].
    apply cols_lookup_lower in Hc' as [Hc'|Hc']; [done |].
    unfold price_column. by rewrite Hc'. }
  destruct (dict_get _ "open") as [open_col|] eqn:Ho; [| done].
  destruct (dict_get _ "high") as [high_col|] eqn:Hh; [| done].
  destruct (dict_get _ "low") as [low_col|] eqn:Hl; [| done].
  destruct (dict_get _ "close") as [close_col|] eqn:Hcl; [| done].
  rewrite (Hget "open" open_col), (Hget "high" high_col), (Hget "low" low_col),
    (Hget "close" close_col) by (done || (repeat constructor)).
  rewrite (same_prices_index df1 df2 Hsame).
  destruct (dict_get _ "date") as [date_col|] eqn:Hd.
  - destruct date_col as [|a col]; [done |].
    by rewrite (Hget "date" (String a col)) by (done || (repeat constructor)).
  - destruct (dict_get _ "datetime") as [date_col|] eqn:Hdt; [| done].
    destruct date_col as [|a col]; [done |].
    by rewrite (Hget "datetime" (String a col)) by (done || (repeat constructor)).
Qed.

(** X15: the detection reads the prices and the dates only. Two frames
    with the same column names, whose rows agree on the index and on the
    open, high, low, close, date and datetime columns (in any case), give
    the same hits and the same history: no other column, a volume among
    them, has an influence. *)
Theorem detection_reads_prices_only (df1 df2 : DataFrame (cell:=cell) (index:=index)) (lookback : Z)
    (patterns : option (list string)) :
  same_prices df1 df2 →
  detect_with_history pd ta df1 lookback patterns
  = detect_with_history pd ta df2 lookback patterns.
Proof.
  intros Hsame. unfold detect_with_history.
  by rewrite (same_prices_empty df1 df2 Hsame), (same_prices_series df1 df2 patterns Hsame).
Qed.

End SamePrices.

Lemma detection_reads_prices_only_witness :
  same_prices (Volume.frame 1000) (Volume.frame 2500)
  ∧ detect_with_history Sample.pd (Some Week.backend) (Volume.frame 1000) 3 None
    = detect_with_history Sample.pd (Some Week.backend) (Volume.frame 2500) 3 None.
Proof.
  assert (same_prices (Volume.frame 1000) (Volume.frame 2500)) as Hsame.
  { split; [reflexivity |].
    repeat constructor; simpl; intros col Hcol;
      destruct (String.eqb_spec col "Volume") as [->|_]; try reflexivity;
      unfold price_column in Hcol; simpl in Hcol;
      repeat (apply elem_of_cons in Hcol as [Hcol|Hcol]; [discriminate |]);
      by apply elem_of_nil in Hcol. }
  split; [exact Hsame |].
  apply (detection_reads_prices_only Sample.pd (Some Week.backend)
           (Volume.frame 1000) (Volume.frame 2500) 3 None).
  exact Hsame.
Defined.

(** ** The column of the dates *)

Lemma cols_lookup_other (columns : list string) (d : list (string * string))
    (key : string) :
  Forall (λ c, Py.lower c ≠ key) columns →
  dict_get (foldl (λ d c, dict_set d (Py.lower c) c) d columns) key = dict_get d key.
Proof.
  intros H. revert d. induction H as [|c columns Hc _ IH]; intros d; simpl; [done |].
  rewrite IH, dict_get_set. by rewrite (proj2 (String.eqb_neq _ _)).
Qed.

(** The dictionary of the columns gives the last column of a name. *)
Lemma cols_lookup_last (columns : list string) (key c : string) :
  last_column columns key c →
  dict_get (foldl (λ d c, dict_set d (Py.lower c) c) [] columns) key = Some c.
Proof.
  intros (before & after & -> & Hc & Hafter).
  rewrite foldl_app. simpl. rewrite cols_lookup_other by done.
  by rewrite dict_get_set, Hc, String.eqb_refl.
Qed.

Section Dates.

Context {cell index : Type} (pd : pandas (cell:=cell) (index:=index)).
Context (ta : option (talib (cell:=cell))).

(** X16: where the dates come from. In a frame with open, high, low and
    close columns (names in any case, no name twice), the dates are the
    conversion by [pd.to_datetime] of the last column named date; of the
    last column named datetime when no column is named date; and, when
    there is neither, the conversion of the index of the frame, cut to
    whole microseconds by [to_pydatetime]. An error of the conversion is
    the error of [_compute_pattern_series]. *)
Theorem dates_come_from_date_column (df : DataFrame (cell:=cell) (index:=index))
    (patterns : option (list string)) :
  NoDup (df_columns df) →
  (∀ key, key ∈ ["open"; "high"; "low"; "close"]%string →
          ∃ c, c ∈ df_columns df ∧ Py.lower c = key) →
  let dates := r ← _compute_pattern_series pd ta df patterns; Ok r.2 in
  let unnamed key := ∀ c, c ∈ df_columns df → Py.lower c ≠ key in
  let converted c :=
    convert ← to_datetime pd (df_getitem df c); Ok (convert <$> df_getitem df c) in
  let index := row_index <$> df_rows df in
  (∀ c, last_column (df_columns df) "date" c → dates = converted c)
  ∧ (unnamed "date"%string →
     ∀ c, last_column (df_columns df) "datetime" c → dates = converted c)
  ∧ (unnamed "date"%string → unnamed "datetime"%string →
     dates = (convert ← index_to_datetime pd index;
              Ok ((λ i, to_pydatetime (convert i)) <$> index))
     ∧ ∀ ds, dates = Ok ds →
         length ds = length (df_rows df) ∧ Forall (λ d, d mod 1000 = 0) ds).
Proof.
  intros _ Hprices. cbv zeta.
  assert (∀ key, key ∈ ["open"; "high"; "low"; "close"]%string →
            dict_get (foldl (λ d c, dict_set d (Py.lower c) c) [] (df_columns df)) key
            ≠ None) as Hsome.
  { intros key Hkey Hnone. apply dict_get_columns in Hnone as [_ Hnone].
    destruct (Hprices key Hkey) as (c & Hc & Hlow). by apply (Hnone c). }
  unfold _compute_pattern_series.
  destruct (dict_get _ "open") as [open_col|] eqn:Ho;
    [| exfalso; apply (Hsome "open"%string); [repeat constructor | done]].
  destruct (dict_get _ "high") as [high_col|] eqn:Hh;
    [| exfalso; apply (Hsome "high"%string); [repeat constructor | done]].
  destruct (dict_get _ "low") as [low_col|] eqn:Hl;
    [| exfalso; apply (Hsome "low"%string); [repeat constructor | done]].
  destruct (dict_get _ "close") as [close_col|] eqn:Hc;
    [| exfalso; apply (Hsome "close"%string); [repeat constructor | done]].
  assert (∀ key c, Py.lower c = key → key ≠ ""%string → ∃ a col, c = String a col)
    as Hnonempty.
  { intros key [|a col] Hlow Hkey; [by rewrite <- Hlow in Hkey | eauto]. }
  split; [| split].
  - intros c Hlast. rewrite (cols_lookup_last _ _ _ Hlast).
    destruct Hlast as (_ & _ & _ & Hlow & _).
    destruct (Hnonempty _ _ Hlow ltac:(done)) as (a & col & ->).
    by destruct (to_datetime pd _).
  - intros Hno c Hlast.
    rewrite (proj2 (dict_get_columns "date" (df_columns df) [])) by done.
    rewrite (cols_lookup_last _ _ _ Hlast).
    destruct Hlast as (_ & _ & _ & Hlow & _).
    destruct (Hnonempty _ _ Hlow ltac:(done)) as (a & col & ->).
    by destruct (to_datetime pd _).
  - intros Hno Hno'.
    rewrite (proj2 (dict_get_columns "date" (df_columns df) [])) by done.
    rewrite (proj2 (dict_get_columns "datetime" (df_columns df) [])) by done.
    destruct (index_to_datetime pd _) as [convert|e]; simpl; [| done].
    split; [done |]. intros ds [= <-].
    split; [by rewrite !length_fmap |].
    apply Forall_fmap, Forall_forall. intros i _. simpl. unfold to_pydatetime.
    by rewrite Z.mod_mul.
Qed.

End Dates.

Lemma dates_come_from_date_column_witness :
  let dates :=
    r ← _compute_pattern_series Sample.pd (Some Week.backend) Week.frame None;
    Ok r.2 in
  let unnamed key := ∀ c, c ∈ df_columns Week.frame → Py.lower c ≠ key in
  let converted c :=
    convert ← to_datetime Sample.pd (df_getitem Week.frame c);
    Ok (convert <$> df_getitem Week.frame c) in
  let index := row_index <$> df_rows Week.frame in
  NoDup (df_columns Week.frame)
  ∧ (∀ key, key ∈ ["open"; "high"; "low"; "close"]%string →
            ∃ c, c ∈ df_columns Week.frame ∧ Py.lower c = key)
  ∧ dates = Ok [1; 2; 3; 4; 5]
  ∧ (∀ c, last_column (df_columns Week.frame) "date" c → dates = converted c)
  ∧ (unnamed "date"%string →
     ∀ c, last_column (df_columns Week.frame) "datetime" c → dates = converted c)
  ∧ (unnamed "date"%string → unnamed "datetime"%string →
     dates = (convert ← index_to_datetime Sample.pd index;
              Ok ((λ i, to_pydatetime (convert i)) <$> index))
     ∧ ∀ ds, dates = Ok ds →
         length ds = length (df_rows Week.frame) ∧ Forall (λ d, d mod 1000 = 0) ds).
Proof.
  assert (NoDup (df_columns Week.frame)) as Hnodup.
  { apply (bool_decide_unpack (NoDup (df_columns Week.frame))).
    vm_compute. exact I. }
  assert (∀ key, key ∈ ["open"; "high"; "low"; "close"]%string →
                 ∃ c, c ∈ df_columns Week.frame ∧ Py.lower c = key) as Hprices.
  { intros key Hkey.
    repeat (apply elem_of_cons in Hkey as [->|Hkey]);
      [exists "Open"%string | exists "High"%string | exists "Low"%string
      | exists "Close"%string | by apply elem_of_nil in Hkey];
      (split; [simpl; repeat constructor | reflexivity]). }
  cbv zeta.
  split; [exact Hnodup |]. split; [exact Hprices |].
  split; [vm_compute; reflexivity |].
  apply (dates_come_from_date_column Sample.pd (Some Week.backend) Week.frame None);
    [exact Hnodup | exact Hprices].
Defined.

(** The dates read from the index have lost their nanoseconds. *)
Example index_dates_lose_nanoseconds :
  _compute_pattern_series Sample.pd (Some Week.backend) Intraday.frame None
  = Ok ([("CDLDOJI"%string, [PyInt 100; PyInt 0]);
         ("CDLENGULFING"%string, [PyInt 0; PyInt 0])],
        [1000; 2000]).
Proof. vm_compute. reflexivity. Qed.
